(** * Moving Transform: the aggregation engines of [owmovingtransform.py]

    A shallow embedding of the computational core of the Moving Transform
    widget of orange3-timeseries: the catalog of aggregations
    ([AggOptions]), the catalog of periods ([PeriodOptions]), the model that
    stores the selected transformations ([TransformationsModel]), the three
    engines ([_compute_sliding_window], [_compute_sequential_blocks],
    [_compute_period_aggregation]) and the dispatcher ([commit]).

    Python integers are [Z]; Python sets of strings are [gset string];
    Python lists are [list]; an exception is the [Raised] case of [result];
    the widget's warnings are an explicit record that the engines thread. *)

From Stdlib Require Import ZArith Lia Ascii String.
From stdpp Require Import base tactics option list strings gmap sorting.

Local Open Scope string_scope.
Local Open Scope list_scope.
Local Open Scope Z_scope.

(** ** Exceptions *)

Inductive exn :=
| ValueError | IndexError | KeyError | TypeError | AttributeError
| StopIteration.

Inductive result (A : Type) :=
| Ok (a : A)
| Raised (e : exn).
Arguments Ok {A} a.
Arguments Raised {A} e.

#[global] Instance result_ret : MRet result := fun A a => Ok a.
#[global] Instance result_bind : MBind result := fun A B f m =>
  match m with Ok a => f a | Raised e => Raised e end.
#[global] Instance result_fmap : FMap result := fun A B f m =>
  match m with Ok a => Ok (f a) | Raised e => Raised e end.

Definition is_ok {A} (r : result A) : bool :=
  match r with Ok _ => true | Raised _ => false end.

(** [for x in l: s = body(s, x)], stopping at the first exception. *)
Fixpoint for_each {A S : Type} (l : list A) (body : S -> A -> result S)
    (s : S) : result S :=
  match l with
  | [] => Ok s
  | x :: l' => s' ← body s x; for_each l' body s'
  end.

(** ** Python sequences *)

(** [l[i]] on a list, with negative indices counted from the end. *)
Definition py_getitem {A} (l : list A) (i : Z) : result A :=
  let n := Z.of_nat (length l) in
  let j := if i <? 0 then i + n else i in
  if (0 <=? j) && (j <? n) then
    match l !! Z.to_nat j with Some x => Ok x | None => Raised IndexError end
  else Raised IndexError.

(** [next(it)] on an iterator over a list: the head and the rest. *)
Definition next {A} (it : list A) : result (A * list A) :=
  match it with
  | [] => Raised StopIteration
  | x :: it' => Ok (x, it')
  end.

(** [slice(start, stop, step)]; [None] is Python's [None]. *)
Record slice := Slice {
  slice_start : option Z;
  slice_stop : option Z;
  slice_step : option Z }.

(** Bounds of a slice on a sequence of length [n], as [slice.indices(n)]
    computes them: [(start, stop, step)], or [ValueError] for step 0. *)
Definition slice_indices (s : slice) (n : Z) : result (Z * Z * Z) :=
  let step := default 1 (slice_step s) in
  if step =? 0 then Raised ValueError else
  let lower := if step <? 0 then -1 else 0 in
  let upper := if step <? 0 then n - 1 else n in
  let clip (i : Z) :=
    if i <? 0 then Z.max (i + n) lower else Z.min i upper in
  let start :=
    match slice_start s with
    | None => if step <? 0 then upper else lower
    | Some i => clip i
    end in
  let stop :=
    match slice_stop s with
    | None => if step <? 0 then lower else upper
    | Some i => clip i
    end in
  Ok (start, stop, step).

(** The positions a slice selects, in order: [range(start, stop, step)]. *)
Definition py_range (start stop step : Z) : list Z :=
  let len :=
    if 0 <? step then
      (if start <? stop then (stop - start - 1) / step + 1 else 0)
    else
      (if stop <? start then (start - stop - 1) / (- step) + 1 else 0) in
  (fun k => start + k * step) <$> seqZ 0 len.

Definition slice_positions (s : slice) (n : nat) : result (list nat) :=
  '(start, stop, step) ← slice_indices s (Z.of_nat n);
  Ok (Z.to_nat <$> py_range start stop step).

(** What the engines index rows with: a slice, [...] or [None]. *)
Inductive rowsel :=
| RowsNone
| RowsEllipsis
| RowsSlice (s : slice).

(** The positions of a sequence of length [n] that [seq[rows]] keeps.
    Indexing an array with [None] inserts an axis instead of selecting rows;
    the engines never do that ([rows] is [None] only when the original data
    is discarded, and every use of [rows] is then skipped), so it is
    reported as a [TypeError] here. *)
Definition rows_positions (rows : rowsel) (n : nat) : result (list nat) :=
  match rows with
  | RowsNone => Raised TypeError
  | RowsEllipsis => Ok (seq 0 n)
  | RowsSlice s => slice_positions s n
  end.

Definition take_positions {A} (l : list A) (ps : list nat) : list A :=
  omap (fun p => l !! p) ps.

(** [seq[rows]] *)
Definition np_getitem {A} (l : list A) (rows : rowsel) : result (list A) :=
  ps ← rows_positions rows (length l); Ok (take_positions l ps).

(** ** Strings *)

Definition is_lower (c : ascii) : bool :=
  let n := nat_of_ascii c in (97 <=? n)%nat && (n <=? 122)%nat.
Definition is_upper (c : ascii) : bool :=
  let n := nat_of_ascii c in (65 <=? n)%nat && (n <=? 90)%nat.
Definition to_upper (c : ascii) : ascii :=
  if is_lower c then ascii_of_nat (nat_of_ascii c - 32) else c.
Definition to_lower (c : ascii) : ascii :=
  if is_upper c then ascii_of_nat (nat_of_ascii c + 32) else c.

(** [str.title()] on ASCII text: a letter that follows a letter is lowered,
    any other letter is raised. *)
Fixpoint title_from (after_letter : bool) (s : string) : string :=
  match s with
  | EmptyString => EmptyString
  | String c s' =>
      if is_lower c || is_upper c then
        String (if after_letter then to_lower c else to_upper c)
               (title_from true s')
      else String c (title_from false s')
  end.
Definition title (s : string) : string := title_from false s.

(** [sep.join(l)] *)
Fixpoint join (sep : string) (l : list string) : string :=
  match l with
  | [] => ""
  | [x] => x
  | x :: l' => x +:+ sep +:+ join sep l'
  end.

(** ** Variables and domains (Orange.data) *)

Inductive VarType :=
| TContinuous | TDiscrete | TTime | TString.

Record Var := mkVariable {
  name : string;
  vartype : VarType;
  values : list string;
  number_of_decimals : option Z }.

Definition is_discrete (v : Var) : bool :=
  match vartype v with TDiscrete => true | _ => false end.
(** A time variable is a continuous variable. *)
Definition is_continuous (v : Var) : bool :=
  match vartype v with TContinuous | TTime => true | _ => false end.

Definition ContinuousVariable (nm : string) (decimals : option Z) : Var :=
  mkVariable nm TContinuous [] decimals.
Definition DiscreteVariable (nm : string) (vals : list string) : Var :=
  mkVariable nm TDiscrete vals None.
(** [var.copy(name=nm)] *)
Definition copy (v : Var) (nm : string) : Var :=
  mkVariable nm (vartype v) (values v) (number_of_decimals v).

#[global] Instance VarType_eq_dec : EqDecision VarType.
Proof. solve_decision. Defined.
#[global] Instance Variable_eq_dec : EqDecision Var.
Proof. solve_decision. Defined.

Record Domain := mkDomain {
  attributes : list Var;
  class_vars : list Var;
  metas : list Var }.

Definition variables (d : Domain) : list Var :=
  attributes d ++ class_vars d.

(** [time.struct_time], what [datetime.timetuple()] returns: a tuple of
    nine fields. *)
Record struct_time := mkStructTime {
  tm_year : Z; tm_mon : Z; tm_mday : Z;
  tm_hour : Z; tm_min : Z; tm_sec : Z;
  tm_wday : Z; tm_yday : Z; tm_isdst : Z }.

Definition struct_time_fields (t : struct_time) : list Z :=
  [tm_year t; tm_mon t; tm_mday t; tm_hour t; tm_min t; tm_sec t;
   tm_wday t; tm_yday t; tm_isdst t].

(** ** The numeric, calendar and naming routines the widget imports

    The widget calls numpy and scipy reductions, the windowed functions of
    [orangecontrib.timeseries.functions], the calendar routines of the
    standard library and the name allocator of [Orange.data.util].  Their
    code is not part of the widget; they are the fields of this interface,
    under the names the widget calls them by, and are taken to be total
    functions.  [val] is the type of a table cell (a float), [nan] its
    missing value and [of_int] the conversion of an integer to a cell. *)
Class Env := {
  val : Type;
  nan : val;
  of_int : Z -> val;
  fsub : val -> val -> val;
  ne_zero : val -> bool;
  np_isfinite : val -> bool;
  (* numpy and scipy.stats reductions *)
  np_nanmean : list val -> val;
  np_nansum : list val -> val;
  np_nanprod : list val -> val;
  np_nanmin : list val -> val;
  np_nanmax : list val -> val;
  np_nanmedian : list val -> val;
  np_nanstd : list val -> val;
  np_nanvar : list val -> val;
  np_nancumsum : list val -> list val;
  np_nancumprod : list val -> list val;
  stats_mode_omit : list val -> val;
  stats_hmean : list val -> val;
  stats_gmean : list val -> val;
  (* orangecontrib.timeseries.functions *)
  windowed_func : (list val -> val) -> list val -> Z -> Z -> list val;
  moving_sum : list val -> Z -> Z -> list val;
  moving_count_nonzero : list val -> Z -> Z -> list val;
  moving_count_defined : list val -> Z -> Z -> list val;
  windowed_linear_MA : list val -> Z -> Z -> list val;
  windowed_exponential_MA : list val -> Z -> Z -> list val;
  windowed_mode : list val -> Z -> Z -> list val;
  windowed_cumsum : list val -> Z -> Z -> list val;
  windowed_cumprod : list val -> Z -> Z -> list val;
  windowed_span : list val -> Z -> Z -> list val;
  windowed_harmonic_mean : list val -> Z -> Z -> list val;
  (* datetime and calendar *)
  datetime : Type;
  utc_from_timestamp : val -> datetime;
  timetuple : datetime -> struct_time;
  weekday : datetime -> Z;
  toordinal : datetime -> Z;
  year : datetime -> Z;
  date_toordinal : Z -> Z -> Z -> Z;
  truncated_date : datetime -> Z -> datetime;
  timegm : struct_time -> Z;
  (* Orange.data.util; the first argument is a list of names or a domain *)
  get_unique_names : list string + Domain -> list string -> list string;
  get_unique_names_duplicates : list string -> list string;
  (* what [Timeseries.from_numpy] fills in: the time variable it finds in
     a domain, and the identifiers of [n] new rows *)
  from_numpy_time_variable : Domain -> option Var;
  new_ids : nat -> list Z }.

Section Widget.
Context {E : Env}.

(** ** AggOptions: the catalog of aggregations *)

Record AggDesc := mkAggDesc {
  short_desc : string;
  transform : list val -> Z -> Z -> list val;
  block_transform : option (list val -> val);
  _long_desc : string;
  supports_discrete : bool;
  count_aggregate : bool;
  cumulative : option (list val -> list val) }.

Definition long_desc (a : AggDesc) : string :=
  if decide (_long_desc a = "") then title (short_desc a) else _long_desc a.

(** [partial(windowed_func, f)] *)
Definition pmw (f : list val -> val) : list val -> Z -> Z -> list val :=
  windowed_func f.

(** [np.sum(mask)] where [mask] is an array of booleans *)
Definition np_sum_bool (mask : list bool) : val :=
  of_int (Z.of_nat (length (filter (fun b => b = true) mask))).

(** The descriptors in the order in which the module creates them. *)
Definition descriptors : list AggDesc := [
    mkAggDesc "mean" (pmw np_nanmean) (Some np_nanmean) "Mean value"
      false false None;
    mkAggDesc "sum" moving_sum (Some np_nansum) "" false false None;
    mkAggDesc "product" (pmw np_nanprod) (Some np_nanprod) ""
      false false None;
    mkAggDesc "min" (pmw np_nanmin) (Some np_nanmin) "Minimum"
      false false None;
    mkAggDesc "max" (pmw np_nanmax) (Some np_nanmax) "Maximum"
      false false None;
    mkAggDesc "span" windowed_span
      (Some (fun x => fsub (np_nanmax x) (np_nanmin x))) "Span"
      false false None;
    mkAggDesc "median" (pmw np_nanmedian) (Some np_nanmedian) ""
      false false None;
    mkAggDesc "mode" windowed_mode (Some stats_mode_omit) ""
      true false None;
    mkAggDesc "std" (pmw np_nanstd) (Some np_nanstd) "Standard deviation"
      false false None;
    mkAggDesc "var" (pmw np_nanvar) (Some np_nanvar) "Variance"
      false false None;
    mkAggDesc "lin. MA" windowed_linear_MA None "Linear MA"
      false false None;
    mkAggDesc "exp. MA" windowed_exponential_MA None "Exponential MA"
      false false None;
    mkAggDesc "harmonic" windowed_harmonic_mean (Some stats_hmean)
      "Harmonic mean" false false None;
    mkAggDesc "geometric" (pmw stats_gmean) (Some stats_gmean)
      "Geometric mean" false false None;
    mkAggDesc "non-zero" moving_count_nonzero
      (Some (fun x =>
         np_sum_bool ((fun v => ne_zero v && np_isfinite v) <$> x)))
      "Non-zero count" true true None;
    mkAggDesc "defined" moving_count_defined
      (Some (fun x => np_sum_bool (np_isfinite <$> x)))
      "Defined count" true true None;
    mkAggDesc "cumsum" windowed_cumsum None "Cumulative sum"
      false false (Some np_nancumsum);
    mkAggDesc "cumprod" windowed_cumprod None "Cumulative product"
      false false (Some np_nancumprod) ].

(** Each descriptor registers itself in the dictionary [AggOptions] under
    its short name, and a dictionary iterates in the order of insertion. *)
Definition AggOptions : list (string * AggDesc) :=
  (fun a => (short_desc a, a)) <$> descriptors.

(** [d[key]] on a dictionary kept as an association list *)
Fixpoint dict_getitem {V} (d : list (string * V)) (key : string) : result V :=
  match d with
  | [] => Raised KeyError
  | (k, v) :: d' => if decide (k = key) then Ok v else dict_getitem d' key
  end.

Definition dict_keys {V} (d : list (string * V)) : list string := fst <$> d.
Definition dict_values {V} (d : list (string * V)) : list V := snd <$> d.

(** ** PeriodOptions: the catalog of periods *)

Record PeriodDesc := mkPeriodDesc {
  struct_index : Z;
  periodic : bool;
  attr_name : string;
  value_as_period : bool;
  names : option (list string);
  names_option : option string;
  value_offset : Z }.

(** [calendar.month_name[1:]] and [calendar.day_name] *)
Definition month_names : list string :=
  ["January"; "February"; "March"; "April"; "May"; "June"; "July";
   "August"; "September"; "October"; "November"; "December"].
Definition day_names : list string :=
  ["Monday"; "Tuesday"; "Wednesday"; "Thursday"; "Friday"; "Saturday";
   "Sunday"].

Definition PeriodOptions : list (string * PeriodDesc) := [
  ("Years", mkPeriodDesc 0 false "Time" true None None 0);
  ("Months", mkPeriodDesc 1 false "Time" true None None 0);
  ("Days", mkPeriodDesc 2 false "Time" true None None 0);
  ("Hours", mkPeriodDesc 3 false "Time" true None None 0);
  ("Minutes", mkPeriodDesc 4 false "Time" true None None 0);
  ("Seconds", mkPeriodDesc 5 false "Time" true None None 0);
  ("Month of year",
   mkPeriodDesc 1 true "Month" true (Some month_names)
     (Some "Use month names") (-1));
  ("Day of year", mkPeriodDesc 2 true "Day" false None None 0);
  ("Day of month", mkPeriodDesc 2 true "Day" true None None 0);
  ("Day of week",
   mkPeriodDesc 2 true "Day" false (Some day_names)
     (Some "Use day names") 0);
  ("Hour of day", mkPeriodDesc 3 true "Hour" true None None 0) ].

(** ** Tables *)

(** A two-dimensional array by its columns; [shape0] is the number of rows,
    which the columns alone do not tell when there is none. *)
Record array2 := mkArray2 {
  shape0 : nat;
  columns_of : list (list val) }.

(** [a[rows]]: the selected rows of every column *)
Definition array_getitem (a : array2) (rows : rowsel) : result array2 :=
  ps ← rows_positions rows (shape0 a);
  Ok (mkArray2 (length ps)
        ((fun c => take_positions c ps) <$> columns_of a)).

Record Timeseries := mkTimeseries {
  domain : Domain;
  X : array2;
  Y : array2;
  metas_of : array2;
  W : array2;
  table_attributes : list (string * string);
  ids : list Z;
  time_variable : option Var }.

(** [len(data)] *)
Definition len (d : Timeseries) : Z := Z.of_nat (shape0 (X d)).

(** The position of the first element equal to [x] *)
Fixpoint index_of {A} `{EqDecision A} (x : A) (l : list A) : option nat :=
  match l with
  | [] => None
  | y :: l' => if decide (y = x) then Some 0%nat else S <$> index_of x l'
  end.

(** [data.get_column_view(var)[0]]: the column of a variable of the domain,
    looked up among the attributes and class variables, then the metas. *)
Definition get_column_view (d : Timeseries) (v : Var) : result (list val) :=
  let column (a : array2) (i : nat) :=
    match columns_of a !! i with
    | Some c => Ok c
    | None => Raised IndexError
    end in
  let nattrs := length (attributes (domain d)) in
  match index_of v (variables (domain d)) with
  | Some i =>
      if (i <? nattrs)%nat then column (X d) i
      else column (Y d) (i - nattrs)%nat
  | None =>
      match index_of v (metas (domain d)) with
      | Some j => column (metas_of d) j
      | None => Raised ValueError
      end
  end.

(** [np.vstack(columns).T]: the columns must have one length and there
    must be at least one. *)
Definition np_vstack_T (columns : list (list val)) : result array2 :=
  match columns with
  | [] => Raised ValueError
  | c :: cs =>
      if forallb (fun c' => (length c' =? length c)%nat) cs
      then Ok (mkArray2 (length c) columns)
      else Raised ValueError
  end.

(** [Timeseries.from_numpy(domain, X, Y, metas, W, attributes, ids)]:
    the table of the given parts.  The number of columns of each part must
    be that of the domain and all parts must have as many rows as [X];
    omitted identifiers are new ones. *)
Definition from_numpy (dom : Domain) (x y m w : array2)
    (attrs : list (string * string)) (ids_arg : option (list Z))
    : result Timeseries :=
  let n := shape0 x in
  if negb ((length (columns_of x) =? length (attributes dom))%nat
           && (length (columns_of y) =? length (class_vars dom))%nat
           && (length (columns_of m) =? length (metas dom))%nat)
  then Raised ValueError
  else if negb ((shape0 y =? n)%nat && (shape0 m =? n)%nat
                && (shape0 w =? n)%nat
                && match ids_arg with
                   | Some l => (length l =? n)%nat
                   | None => true
                   end)
  then Raised ValueError
  else Ok (mkTimeseries dom x y m w attrs (default (new_ids n) ids_arg)
             (from_numpy_time_variable dom)).

(** An array with [n] rows and no column, the default of an omitted part *)
Definition no_columns (n : nat) : array2 := mkArray2 n [].

(** ** TransformationsModel *)

(** The list of variables the widget offers, and for each of them the set
    of the short names of the transformations selected for it. *)
Record TransformationsModel := mkModel {
  model_vars : list Var;
  _transformations : list (gset string) }.

Definition set_variables (vs : list Var) : TransformationsModel :=
  mkModel vs ((fun _ => ∅) <$> vs).

(** The selected transformations of row [index], in the order of
    [AggOptions] and not in that of the set. *)
Definition get_transformations (m : TransformationsModel) (index : nat)
    : result (list string) :=
  match _transformations m !! index with
  | Some s => Ok (filter (fun trans => trans ∈ s) (dict_keys AggOptions))
  | None => Raised IndexError
  end.

Definition set_transformations (m : TransformationsModel) (index : nat)
    (transformations : gset string) : result TransformationsModel :=
  if (index <? length (_transformations m))%nat then
    Ok (mkModel (model_vars m) (<[index := transformations]> (_transformations m)))
  else Raised IndexError.

(** [set.add] when [state] holds and [set.discard] otherwise, on every row
    of [rows]; the final [min(rows)] fails on no row. *)
Definition set_transformation (m : TransformationsModel) (rows : list nat)
    (transformation : string) (state : bool) : result TransformationsModel :=
  let oper (s : gset string) :=
    if state then s ∪ {[transformation]} else s ∖ {[transformation]} in
  ts ← for_each rows (fun ts row =>
          match ts !! row with
          | Some s => Ok (<[row := oper s]> ts)
          | None => Raised IndexError
          end) (_transformations m);
  match rows with
  | [] => Raised ValueError
  | _ => Ok (mkModel (model_vars m) ts)
  end.

(** ** The widget *)

Record Warnings := mkWarnings {
  no_aggregations : bool;
  inapplicable_aggregations : option string;
  window_to_large : bool;
  block_to_large : bool }.

(** [Warning.clear()] *)
Definition no_warnings : Warnings := mkWarnings false None false false.

Definition DiscardOriginal : Z := 0.
Definition KeepFirst : Z := 1.
Definition KeepMiddle : Z := 2.
Definition KeepLast : Z := 3.

Definition KeepComplete : Z := 1.
Definition KeepAll : Z := 2.

Definition SlidingWindow : Z := 0.
Definition SequentialBlocks : Z := 1.
Definition TimePeriods : Z := 2.

Record OWMovingTransform := mkWidget {
  data : option Timeseries;
  var_model : TransformationsModel;
  method : Z;
  window_width : Z;
  keep_instances : Z;
  block_width : Z;
  ref_instance : Z;
  period_width : string;
  use_names : bool;
  var_hints : list (string * bool * gset string);
  Warning : Warnings }.

Definition _varkey (var : Var) : string * bool := (name var, is_continuous var).

Definition with_model (w : OWMovingTransform) (m : TransformationsModel)
    : OWMovingTransform :=
  mkWidget (data w) m (method w) (window_width w) (keep_instances w)
    (block_width w) (ref_instance w) (period_width w) (use_names w)
    (var_hints w) (Warning w).

Definition with_warnings (w : OWMovingTransform) (ws : Warnings)
    : OWMovingTransform :=
  mkWidget (data w) (var_model w) (method w) (window_width w)
    (keep_instances w) (block_width w) (ref_instance w) (period_width w)
    (use_names w) (var_hints w) ws.

(** The variables [set_data] offers for selection: the discrete ones, and
    the continuous ones other than the time variable.  [is not] compares
    identities; variables are values here, so it compares them. *)
Definition offered_variables (d : Timeseries) : list Var :=
  filter (fun var =>
            is_discrete var = true
            \/ (is_continuous var = true /\ Some var <> time_variable d))
         (variables (domain d)).

(** [var_hints.get(key)] *)
Definition hint_for (hints : list (string * bool * gset string))
    (key : string * bool) : option (gset string) :=
  match list_find (fun h => fst h = key) hints with
  | Some (_, (_, transformations)) => Some transformations
  | None => None
  end.

(** [set_data], up to the final [commit]; the table comes already converted
    by [Timeseries.from_data_table]. *)
Definition set_data (w : OWMovingTransform) (input : option Timeseries)
    : result OWMovingTransform :=
  match input with
  | None =>
      Ok (mkWidget None (set_variables []) (method w) (window_width w)
            (keep_instances w) (block_width w) (ref_instance w)
            (period_width w) (use_names w) (var_hints w) (Warning w))
  | Some d =>
      let m0 := set_variables (offered_variables d) in
      m ← for_each (imap (fun i attr => (i, attr)) (model_vars m0))
            (fun m '(i, attr) =>
               match hint_for (var_hints w) (_varkey attr) with
               | Some transformations =>
                   if decide (transformations = ∅) then Ok m
                   else set_transformations m i transformations
               | None => Ok m
               end) m0;
      Ok (mkWidget (Some d) m (method w) (window_width w)
            (keep_instances w) (block_width w) (ref_instance w)
            (period_width w) (use_names w) (var_hints w) (Warning w))
  end.

(** [_var_for_agg]: the variable of an aggregate column, under the next
    name of the iterator. *)
Definition _var_for_agg (attr : Var) (agg : AggDesc) (nms : list string)
    : result (Var * list string) :=
  '(nm, nms') ← next nms;
  if count_aggregate agg then Ok (ContinuousVariable nm (Some 0), nms')
  else Ok (copy attr nm, nms').

(** [_set_warnings]; [inapplicable] is [None] or a set of long names. *)
Definition _set_warnings (ws : Warnings) (columns : list (list val))
    (inapplicable : option (gset string)) : Warnings :=
  let ws1 :=
    match inapplicable with
    | Some s =>
        if decide (s = ∅) then ws
        else mkWarnings (no_aggregations ws)
               (Some (join ", "
                        (filter (fun d => d ∈ s)
                           (long_desc <$> dict_values AggOptions))))
               (window_to_large ws) (block_to_large ws)
    | None => ws
    end in
  match columns with
  | [] => mkWarnings true (inapplicable_aggregations ws1)
            (window_to_large ws1) (block_to_large ws1)
  | _ => ws1
  end.

(** ** The sliding window *)

(** What the loops of an engine build: the variables and columns of the
    output, the iterator over the names still to give, and the long names
    of the aggregations that do not apply. *)
Record acc := mkAcc {
  acc_attributes : list Var;
  acc_columns : list (list val);
  acc_names : list string;
  acc_inapplicable : gset string }.

(** [f"{var.name} ({trans})"] *)
Definition agg_name (var : Var) (trans : string) : string :=
  name var +:+ " (" +:+ trans +:+ ")".

(** [np.full(n, v)] *)
Definition np_full (n : Z) (v : val) : result (list val) :=
  if n <? 0 then Raised ValueError else Ok (replicate (Z.to_nat n) v).

(** [np.hstack((leading, column))]; [leading] is [None] only where the
    engine does not stack. *)
Definition np_hstack (leading : option (list val)) (column : list val)
    : result (list val) :=
  match leading with
  | Some l => Ok (l ++ column)
  | None => Raised ValueError
  end.

(** [[f"{var.name} ({trans})" for i, var in enumerate(model)
      for trans in model.get_transformations(i)]] *)
Definition proposed_names (model : TransformationsModel)
    : result (list string) :=
  for_each (imap (fun i var => (i, var)) (model_vars model))
    (fun nms '(i, var) =>
       ts ← get_transformations model i;
       Ok (nms ++ (agg_name var <$> ts)))
    [].

Definition sliding_add_aggregates (w : OWMovingTransform)
    (leading : option (list val)) (attr : Var) (column : list val)
    (st : acc) : result acc :=
  let model := var_model w in
  match index_of attr (model_vars model) with
  | None => Ok st (* skip time_attribute *)
  | Some row =>
      ts ← get_transformations model row;
      for_each ts
        (fun st transformation =>
           agg ← dict_getitem AggOptions transformation;
           '(var, nms) ← _var_for_agg attr agg (acc_names st);
           agg_column ←
             match cumulative agg with
             | Some cumulative_fn =>
                 if keep_instances w =? KeepAll then Ok (cumulative_fn column)
                 else Ok (transform agg column (window_width w) 1)
             | None =>
                 let agg_column := transform agg column (window_width w) 1 in
                 if keep_instances w =? KeepAll
                 then np_hstack leading agg_column
                 else Ok agg_column
             end;
           Ok (mkAcc (acc_attributes st ++ [var])
                 (acc_columns st ++ [agg_column]) nms (acc_inapplicable st)))
        st
  end.

(** The part of [_compute_sliding_window] between the first warning and
    [_set_warnings]: the names, [rows] and [leading], and the two loops. *)
Definition sliding_collect (w : OWMovingTransform) (d : Timeseries)
    : result (acc * rowsel) :=
  let dom := domain d in
  let discard := keep_instances w =? DiscardOriginal in
  nms ← proposed_names (var_model w);
  let nms :=
    if discard then get_unique_names (inl []) nms
    else get_unique_names (inr dom) nms in
  '(rows, leading) ←
    (if discard then Ok (RowsNone, None)
     else if keep_instances w =? KeepComplete then
       Ok (RowsSlice (Slice (Some (window_width w - 1)) None None), None)
     else
       leading ← np_full (window_width w - 1) nan;
       Ok (RowsEllipsis, Some leading));
  st ← for_each (zip (attributes dom) (columns_of (X d)))
         (fun st '(attr, column) =>
            st ← (if discard then Ok st
                  else
                    original ← np_getitem column rows;
                    Ok (mkAcc (acc_attributes st ++ [attr])
                          (acc_columns st ++ [original])
                          (acc_names st) (acc_inapplicable st)));
            sliding_add_aggregates w leading attr column st)
         (mkAcc [] [] nms ∅);
  st ← for_each (zip (class_vars dom) (columns_of (Y d)))
         (fun st '(attr, column) =>
            sliding_add_aggregates w leading attr column st)
         st;
  Ok (st, rows).

(** The table an engine returns when it keeps original rows: the collected
    columns with the class, meta, weight and identifier parts at [rows]. *)
Definition table_with_originals (d : Timeseries) (st : acc) (rows : rowsel)
    : result Timeseries :=
  let dom := domain d in
  x ← np_vstack_T (acc_columns st);
  y ← array_getitem (Y d) rows;
  m ← array_getitem (metas_of d) rows;
  wt ← array_getitem (W d) rows;
  ids' ← np_getitem (ids d) rows;
  from_numpy (mkDomain (acc_attributes st) (class_vars dom) (metas dom))
    x y m wt (table_attributes d) (Some ids').

(** The table of the collected columns alone. *)
Definition table_of_aggregates (st : acc) (attrs : list (string * string))
    : result Timeseries :=
  x ← np_vstack_T (acc_columns st);
  let n := shape0 x in
  from_numpy (mkDomain (acc_attributes st) [] [])
    x (no_columns n) (no_columns n) (no_columns n) attrs None.

Definition _compute_sliding_window (w : OWMovingTransform)
    : Warnings * result (option Timeseries) :=
  match data w with
  | None => (Warning w, Raised AttributeError)
  | Some d =>
      let ws :=
        mkWarnings (no_aggregations (Warning w))
          (inapplicable_aggregations (Warning w))
          (len d <? window_width w) (block_to_large (Warning w)) in
      match sliding_collect w d with
      | Raised e => (ws, Raised e)
      | Ok (st, rows) =>
          (_set_warnings ws (acc_columns st) None,
           match acc_columns st with
           | [] => Ok None
           | _ =>
               ts ← (if keep_instances w =? DiscardOriginal
                     then table_of_aggregates st (table_attributes d)
                     else table_with_originals d st rows);
               Ok (Some ts)
           end)
      end
  end.

(** ** Sequential blocks and time periods *)

(** The truth value of [agg.block_transform]: a function is true, [None]
    is false. *)
Definition has_block_transform (agg : AggDesc) : bool :=
  match block_transform agg with Some _ => true | None => false end.

Definition _names_for_blocked_aggregation (w : OWMovingTransform)
    (d : Timeseries) : result (list string) :=
  let model := var_model w in
  let nms :=
    if method w =? TimePeriods then [period_width w; "Instance count"]
    else [] in
  more ← for_each (imap (fun i var => (i, var)) (model_vars model))
           (fun nms '(i, var) =>
              ts ← get_transformations model i;
              kept ← for_each ts
                       (fun kept trans =>
                          agg ← dict_getitem AggOptions trans;
                          Ok (if has_block_transform agg
                              then kept ++ [agg_name var trans] else kept))
                       [];
              Ok (nms ++ kept))
           [];
  let nms := nms ++ more in
  Ok (if (method w =? SequentialBlocks)
         && negb (ref_instance w =? DiscardOriginal)
      then get_unique_names (inr (domain d)) nms
      else get_unique_names_duplicates nms).

(** [add_aggregates] of [_compute_sequential_blocks]; [column] is [None]
    for a class variable and is then fetched at the first transformation
    that applies. *)
Definition blocks_add_aggregates (w : OWMovingTransform) (d : Timeseries)
    (attr : Var) (column : option (list val)) (st : acc) : result acc :=
  let model := var_model w in
  let width := block_width w in
  match index_of attr (model_vars model) with
  | None => Ok st (* skip time_attribute *)
  | Some row =>
      ts ← get_transformations model row;
      fst <$> for_each ts
        (fun '(st, column) transformation =>
           agg ← dict_getitem AggOptions transformation;
           match block_transform agg with
           | None =>
               Ok (mkAcc (acc_attributes st) (acc_columns st) (acc_names st)
                     (acc_inapplicable st ∪ {[long_desc agg]}), column)
           | Some _ =>
               column ← match column with
                        | Some c => Ok c
                        | None => get_column_view d attr
                        end;
               let agg_column := transform agg column width width in
               '(var, nms) ← _var_for_agg attr agg (acc_names st);
               Ok (mkAcc (acc_attributes st ++ [var])
                     (acc_columns st ++ [agg_column]) nms
                     (acc_inapplicable st), Some column)
           end)
        (st, column)
  end.

(** The dictionary of row slices, looked up at [ref_instance]. *)
Definition blocks_rows (w : OWMovingTransform) : result rowsel :=
  let width := block_width w in
  let r := ref_instance w in
  if r =? DiscardOriginal then
    Ok (RowsSlice (Slice (Some 0) (Some 0) None))
  else if r =? KeepFirst then
    Ok (RowsSlice (Slice (Some 0) (Some (- (width - 1))) (Some width)))
  else if r =? KeepMiddle then
    Ok (RowsSlice (Slice (Some (width / 2))
                     (Some (- (width - 1 - width / 2))) (Some width)))
  else if r =? KeepLast then
    Ok (RowsSlice (Slice (Some (width - 1)) None (Some width)))
  else Raised KeyError.

(** The part of [_compute_sequential_blocks] after the test of the width
    and before [_set_warnings]. *)
Definition blocks_collect (w : OWMovingTransform) (d : Timeseries)
    : result (acc * rowsel) :=
  let dom := domain d in
  nms ← _names_for_blocked_aggregation w d;
  rows ← blocks_rows w;
  st ← for_each (zip (attributes dom) (columns_of (X d)))
         (fun st '(attr, column) =>
            st ← (if negb (ref_instance w =? DiscardOriginal) then
                    original ← np_getitem column rows;
                    Ok (mkAcc (acc_attributes st ++ [attr])
                          (acc_columns st ++ [original])
                          (acc_names st) (acc_inapplicable st))
                  else Ok st);
            blocks_add_aggregates w d attr (Some column) st)
         (mkAcc [] [] nms ∅);
  st ← for_each (class_vars dom)
         (fun st attr => blocks_add_aggregates w d attr None st)
         st;
  Ok (st, rows).

Definition _compute_sequential_blocks (w : OWMovingTransform)
    : Warnings * result (option Timeseries) :=
  match data w with
  | None => (Warning w, Raised AttributeError)
  | Some d =>
      if len d <? block_width w then
        (mkWarnings (no_aggregations (Warning w))
           (inapplicable_aggregations (Warning w))
           (window_to_large (Warning w)) true,
         Ok None)
      else
        match blocks_collect w d with
        | Raised e => (Warning w, Raised e)
        | Ok (st, rows) =>
            (_set_warnings (Warning w) (acc_columns st)
               (Some (acc_inapplicable st)),
             match acc_columns st with
             | [] => Ok None
             | _ =>
                 ts ← (if ref_instance w =? DiscardOriginal
                       then table_of_aggregates st []
                       else table_with_originals d st rows);
                 Ok (Some ts)
             end)
        end
  end.

(** [np.unique(times, return_inverse=True, return_counts=True)] on
    integers: the distinct values in ascending order, for each element the
    position of its value among them, and how often each value occurs. *)
Fixpoint insert_sorted (x : Z) (l : list Z) : list Z :=
  match l with
  | [] => [x]
  | y :: l' =>
      if x <? y then x :: l
      else if x =? y then l
      else y :: insert_sorted x l'
  end.

Definition count_of (k : Z) (l : list Z) : Z :=
  Z.of_nat (length (filter (fun x => x = k) l)).

Definition np_unique (l : list Z) : list Z * list nat * list Z :=
  let values := foldr insert_sorted [] l in
  (values,
   (fun x => default 0%nat (index_of x values)) <$> l,
   (fun k => count_of k l) <$> values).

(** [column[mask]] with an array of booleans, which must be as long as
    the column. *)
Definition np_mask_select (column : list val) (mask : list bool)
    : result (list val) :=
  if (length column =? length mask)%nat
  then Ok (fst <$> filter (fun p => snd p = true) (zip column mask))
  else Raised IndexError.

(** The key of every row: the calendar field of its time, or its time
    truncated to the period. *)
Definition period_times (w : OWMovingTransform) (period : PeriodDesc)
    (time_column : list val) : result (list Z) :=
  let times := utc_from_timestamp <$> time_column in
  if periodic period then
    times ←
      (if value_as_period period then
         mapM (fun x => py_getitem (struct_time_fields (timetuple x))
                           (struct_index period)) times
       else if decide (period_width w = "Day of week") then
         Ok (weekday <$> times)
       else if decide (period_width w = "Day of year") then
         Ok ((fun d => toordinal d - date_toordinal (year d) 1 1 + 1)
               <$> times)
       else Raised TypeError);
    Ok ((fun t => t + value_offset period) <$> times)
  else
    let ind := struct_index period in
    Ok ((fun x => timegm (timetuple (truncated_date x ind))) <$> times).

(** The loop of [_compute_period_aggregation] over the model. *)
Definition period_add_aggregates (w : OWMovingTransform) (d : Timeseries)
    (nperiods : nat) (period_indices : list nat) (st : acc) : result acc :=
  let model := var_model w in
  for_each (imap (fun i attr => (i, attr)) (model_vars model))
    (fun st '(i, attr) =>
       ts ← get_transformations model i;
       for_each ts
         (fun st transformation =>
            agg ← dict_getitem AggOptions transformation;
            match block_transform agg with
            | None =>
                Ok (mkAcc (acc_attributes st) (acc_columns st) (acc_names st)
                      (acc_inapplicable st ∪ {[long_desc agg]}))
            | Some block_fn =>
                '(var, nms) ← _var_for_agg attr agg (acc_names st);
                column ← get_column_view d attr;
                agg_column ←
                  mapM (fun i =>
                          seg ← np_mask_select column
                                  ((fun j => bool_decide (j = i))
                                     <$> period_indices);
                          Ok (block_fn seg))
                       (seq 0 nperiods);
                Ok (mkAcc (acc_attributes st ++ [var])
                      (acc_columns st ++ [agg_column]) nms
                      (acc_inapplicable st))
            end)
         st)
    st.

(** The part of [_compute_period_aggregation] before [_set_warnings]. *)
Definition period_collect (w : OWMovingTransform) (d : Timeseries)
    : result acc :=
  nms ← _names_for_blocked_aggregation w d;
  period ← dict_getitem PeriodOptions (period_width w);
  time_column ← match time_variable d with
                | Some tv => get_column_view d tv
                | None => Raised TypeError
                end;
  times ← period_times w period time_column;
  '(key_var, nms) ←
    (if periodic period then
       '(nm, nms) ← next nms;
       match names period with
       | Some labels =>
           if use_names w then Ok (DiscreteVariable nm labels, nms)
           else Ok (ContinuousVariable nm None, nms)
       | None => Ok (ContinuousVariable nm None, nms)
       end
     else
       match time_variable d with
       | Some tv => '(nm, nms) ← next nms; Ok (copy tv nm, nms)
       | None => Raised AttributeError
       end);
  let '(periods, period_indices, counts) := np_unique times in
  let periods :=
    if bool_decide (period_width w = "Month of year") && negb (use_names w)
    then (fun p => p + 1) <$> periods else periods in
  '(nm, nms) ← next nms;
  period_add_aggregates w d (length periods) period_indices
    (mkAcc [key_var; ContinuousVariable nm None]
       [of_int <$> periods; of_int <$> counts] nms ∅).

Definition _compute_period_aggregation (w : OWMovingTransform)
    : Warnings * result (option Timeseries) :=
  match data w with
  | None => (Warning w, Raised AttributeError)
  | Some d =>
      match period_collect w d with
      | Raised e => (Warning w, Raised e)
      | Ok st =>
          (_set_warnings (Warning w) (acc_columns st)
             (Some (acc_inapplicable st)),
           match acc_columns st with
           | [] => Ok None
           | _ => ts ← table_of_aggregates st []; Ok (Some ts)
           end)
      end
  end.

(** ** The dispatcher *)

(** [commit]: the warnings it leaves and what it sends; a table without
    rows is false, like no table. *)
Definition commit (w : OWMovingTransform)
    : Warnings * result (option Timeseries) :=
  let w := with_warnings w no_warnings in
  match data w with
  | None => (Warning w, Ok None)
  | Some d =>
      if len d =? 0 then (Warning w, Ok None)
      else
        match py_getitem [_compute_sliding_window;
                          _compute_sequential_blocks;
                          _compute_period_aggregation] (method w) with
        | Ok engine => engine w
        | Raised e => (Warning w, Raised e)
        end
  end.

(** ** The handlers of the controls *)

(** [var_hints[key] = value]: the value of a key that is present is
    replaced where it stands, a new key comes last. *)
Definition hints_setitem (hints : list (string * bool * gset string))
    (key : string * bool) (value : gset string)
    : list (string * bool * gset string) :=
  if bool_decide (key ∈ hints.*1)
  then (fun h => if decide (h.1 = key) then (key, value) else h) <$> hints
  else hints ++ [(key, value)].

(** [del var_hints[key]] *)
Definition hints_delitem (hints : list (string * bool * gset string))
    (key : string * bool) : list (string * bool * gset string) :=
  filter (fun h => h.1 <> key) hints.

(** [model[row]] for a row of the view *)
Definition model_getitem (m : TransformationsModel) (row : nat) : result Var :=
  match model_vars m !! row with
  | Some var => Ok var
  | None => Raised IndexError
  end.

(** [_checkbox_changed], up to the deferred [commit]: the check box of
    [transformation] was set to [state] while the rows [selection] were
    selected.  The hints remember the transformations of the selected
    variables, and forget a variable that is left with none. *)
Definition _checkbox_changed (w : OWMovingTransform) (state : bool)
    (transformation : string) (selection : list nat)
    : result OWMovingTransform :=
  model ← set_transformation (var_model w) selection transformation state;
  hints ← for_each selection
             (fun hints row =>
                var ← model_getitem model row;
                let key := _varkey var in
                transfs ← get_transformations model row;
                Ok (match transfs with
                    | [] =>
                        if bool_decide (key ∈ hints.*1)
                        then hints_delitem hints key else hints
                    | _ => hints_setitem hints key (list_to_set transfs)
                    end))
             (var_hints w);
  Ok (mkWidget (data w) model (method w) (window_width w) (keep_instances w)
        (block_width w) (ref_instance w) (period_width w) (use_names w)
        hints (Warning w)).

(** The states of a check box *)
Inductive CheckState := Unchecked | PartiallyChecked | Checked.

(** [Counter(l)[x]]: how often [x] occurs in [l] *)
Definition Counter_getitem (l : list string) (x : string) : nat :=
  length (filter (fun y : string => y = x) l).

(** [any(f(x) for x in l)], which stops at the first true value *)
Fixpoint py_any {A} (f : A -> result bool) (l : list A) : result bool :=
  match l with
  | [] => Ok false
  | x :: l' =>
      match f x with
      | Ok true => Ok true
      | Ok false => py_any f l'
      | Raised e => Raised e
      end
  end.

(** [_selection_changed]: for every aggregation, in the order of
    [AggOptions], the state of its check box and whether it is disabled,
    when the rows [selection] are selected. *)
Definition _selection_changed (w : OWMovingTransform) (selection : list nat)
    : result (list (string * CheckState * bool)) :=
  let nselected := length selection in
  let model := var_model w in
  lists ← mapM (get_transformations model) selection;
  let counts := concat lists in
  disc ← py_any (fun row => is_discrete <$> model_getitem model row) selection;
  Ok ((fun '(trans, desc) =>
         (trans,
          if bool_decide (trans ∉ counts) then Unchecked
          else if (Counter_getitem counts trans <? nselected)%nat
               then PartiallyChecked
               else Checked,
          (nselected =? 0)%nat || disc && negb (supports_discrete desc)))
        <$> AggOptions).

(** The second part of [send_report]: the rows of the table of
    transformations, or [None] when no table is reported.  Outside of the
    sliding window only the aggregations with a block transformation are
    listed, and a variable left with none is not listed. *)
Definition report_transformations (w : OWMovingTransform)
    : result (option (list (string * string))) :=
  let model := var_model w in
  transformations ←
    for_each (imap (fun i attr => (i, attr)) (model_vars model))
      (fun transformations '(i, attr) =>
         transfs ← get_transformations model i;
         transfs ←
           (if negb (method w =? SlidingWindow) then
              for_each transfs
                (fun kept t =>
                   agg ← dict_getitem AggOptions t;
                   Ok (if has_block_transform agg then kept ++ [t] else kept))
                []
            else Ok transfs);
         match transfs with
         | [] => Ok transformations
         | _ =>
             descs ← mapM (fun t => long_desc <$> dict_getitem AggOptions t)
                       transfs;
             Ok (transformations ++ [(name attr, join ", " descs)])
         end)
      [];
  Ok (match transformations with
      | [] => None
      | _ => Some transformations
      end).

(** ** The filter of the list of variables *)

(** [pattern in text] on strings: [pattern] starts [text], or occurs
    further in it. *)
Fixpoint str_contains (pattern text : string) : bool :=
  String.prefix pattern text
  || match text with
     | EmptyString => false
     | String _ text' => str_contains pattern text'
     end.

(** [NumericFilterProxy]: whether only numeric variables are shown, and
    the text of the filter line. *)
Record NumericFilterProxy := mkProxy {
  filtering : bool;
  pattern : string }.

(** [filterAcceptsRow] over the source model [source]; an empty pattern is
    false. *)
Definition filterAcceptsRow (proxy : NumericFilterProxy)
    (source : TransformationsModel) (row : nat) : result bool :=
  var ← model_getitem source row;
  Ok ((negb (filtering proxy) || is_continuous var)
      && (bool_decide (pattern proxy = "")
          || str_contains (pattern proxy) (name var))).

(** [N_NONPERIODIC]: the position of the first periodic period of
    [PeriodOptions], where the combo box gets its separator. *)
Definition N_NONPERIODIC : result nat :=
  fst <$> (fst <$> next (filter (fun '(i, p) => periodic p = true)
                           (imap (fun i p => (i, p))
                              (dict_values PeriodOptions)))).


End Widget.

(** ** What the engines are expected to compute

    Closed forms of what the loops of the engines build, against which
    the engines are checked below. *)
Section Expected.
Context {E : Env}.

(** Some warning is shown. *)
Definition any_warning (ws : Warnings) : bool :=
  no_aggregations ws || bool_decide (inapplicable_aggregations ws <> None)
  || window_to_large ws || block_to_large ws.

(** The two lists of the model are kept in step by [set_variables]. *)
Definition model_wf (m : TransformationsModel) : Prop :=
  length (_transformations m) = length (model_vars m).

(** The descriptors selected for a variable, in the order of the catalog;
    none for a variable that is not in the model. *)
Definition selected_aggs (m : TransformationsModel) (attr : Var)
    : list AggDesc :=
  match index_of attr (model_vars m) with
  | Some row =>
      match _transformations m !! row with
      | Some s => filter (fun a => short_desc a ∈ s) descriptors
      | None => []
      end
  | None => []
  end.

(** The variable of the aggregate [agg] of [attr] under the name [nm] *)
Definition var_of (attr : Var) (agg : AggDesc) (nm : string) : Var :=
  if count_aggregate agg then ContinuousVariable nm (Some 0)
  else copy attr nm.

Definition vars_for (attr : Var) (aggs : list AggDesc) (nms : list string)
    : list Var :=
  zip_with (var_of attr) aggs nms.

(** The rows that [seq[rows]] keeps of [n]; none where indexing fails. *)
Definition positions (rows : rowsel) (n : nat) : list nat :=
  match rows_positions rows n with Ok ps => ps | Raised _ => [] end.


(** The column of the aggregate [agg] of [column] in a sliding window: the
    cumulative form over the whole column when all rows are kept and there
    is one; else the windowed form with step 1, which is headed by
    [window_width - 1] missing values when all rows are kept. *)
Definition sliding_column (w : OWMovingTransform) (agg : AggDesc)
    (column : list val) : list val :=
  let windowed := transform agg column (window_width w) 1 in
  if keep_instances w =? KeepAll then
    match cumulative agg with
    | Some cumulative_fn => cumulative_fn column
    | None => replicate (Z.to_nat (window_width w - 1)) nan ++ windowed
    end
  else windowed.

(** The state of a loop after it has added the variables and columns of
    [entries], taken [k] names and found the aggregations [inapp]
    inapplicable. *)
Definition push (st : acc) (entries : list (Var * list val)) (k : nat)
    (inapp : gset string) : acc :=
  mkAcc (acc_attributes st ++ entries.*1) (acc_columns st ++ entries.*2)
    (drop k (acc_names st)) (acc_inapplicable st ∪ inapp).

(** The variables and columns of the aggregates [aggs] of one variable,
    named by [nms] in turn. *)
Definition aggregate_entries (colf : AggDesc -> list val -> list val)
    (aggs : list AggDesc) (attr : Var) (column : list val)
    (nms : list string) : list (Var * list val) :=
  zip_with (fun agg nm => (var_of attr agg nm, colf agg column)) aggs nms.

(** What a loop over variables with their columns collects: for each
    variable the original columns [orig] keeps, then its aggregates. *)
Fixpoint collected (orig : list val -> list (list val))
    (colf : AggDesc -> list val -> list val) (sel : Var -> list AggDesc)
    (pairs : list (Var * list val)) (nms : list string)
    : list (Var * list val) :=
  match pairs with
  | [] => []
  | (attr, column) :: pairs' =>
      ((fun c => (attr, c)) <$> orig column)
      ++ aggregate_entries colf (sel attr) attr column nms
      ++ collected orig colf sel pairs' (drop (length (sel attr)) nms)
  end.

(** The number of names such a loop takes. *)
Definition needed (sel : Var -> list AggDesc) (attrs : list Var) : nat :=
  sum_list_with (fun attr => length (sel attr)) attrs.

(** The columns such a loop collects when the names suffice. *)
Definition collected_columns (orig : list val -> list (list val))
    (colf : AggDesc -> list val -> list val) (sel : Var -> list AggDesc)
    (pairs : list (Var * list val)) : list (list val) :=
  concat ((fun '(attr, column) =>
             orig column ++ ((fun agg => colf agg column) <$> sel attr))
          <$> pairs).

(** The original column an engine keeps: the rows [rows] of it, or none. *)
Definition kept_original (keep : bool) (rows : rowsel) (column : list val)
    : list (list val) :=
  if keep then [take_positions column (positions rows (length column))]
  else [].

(** The number of catalog kinds in a set, and in all the sets of a model:
    the number of names [proposed_names] proposes. *)
Definition kinds_in (s : gset string) : list AggDesc :=
  filter (fun a => short_desc a ∈ s) descriptors.

Definition selection_size (m : TransformationsModel) : nat :=
  sum_list_with (fun s => length (kinds_in s)) (_transformations m).

(** The name allocator returns as many names as are proposed. *)
Definition allocator_keeps_length : Prop :=
  (forall taken l, length (get_unique_names taken l) = length l)
  /\ (forall l, length (get_unique_names_duplicates l) = length l).

(** Row selections that index without an error *)
Definition rows_ok (rows : rowsel) : Prop :=
  match rows with
  | RowsNone => False
  | RowsEllipsis => True
  | RowsSlice s => slice_step s <> Some 0
  end.

(** The rows of the original data that the sliding window keeps *)
Definition sliding_rows (w : OWMovingTransform) : rowsel :=
  if keep_instances w =? DiscardOriginal then RowsNone
  else if keep_instances w =? KeepComplete then
    RowsSlice (Slice (Some (window_width w - 1)) None None)
  else RowsEllipsis.

(** The columns the sliding window collects: for every attribute the kept
    rows of its column, unless the original data is discarded, and the
    columns of its selected aggregates; then the columns of the selected
    aggregates of every class variable. *)
Definition sliding_columns (w : OWMovingTransform) (d : Timeseries)
    : list (list val) :=
  let sel := selected_aggs (var_model w) in
  let keep := negb (keep_instances w =? DiscardOriginal) in
  collected_columns (kept_original keep (sliding_rows w)) (sliding_column w)
    sel (zip (attributes (domain d)) (columns_of (X d)))
  ++ collected_columns (fun _ => []) (sliding_column w) sel
       (zip (class_vars (domain d)) (columns_of (Y d))).

(** The aggregations that apply to blocks and periods, and the long names
    of those that do not. *)
Definition applicable (aggs : list AggDesc) : list AggDesc :=
  filter (fun a => has_block_transform a = true) aggs.

Definition inapplicable_names (aggs : list AggDesc) : gset string :=
  list_to_set (long_desc <$> filter (fun a => has_block_transform a = false) aggs).

(** The number of names [_names_for_blocked_aggregation] proposes for the
    aggregates. *)
Definition applicable_size (m : TransformationsModel) : nat :=
  sum_list_with (fun s => length (applicable (kinds_in s))) (_transformations m).

(** The column of the aggregate [agg] over blocks of [block_width] rows *)
Definition block_column (w : OWMovingTransform) (agg : AggDesc)
    (column : list val) : list val :=
  transform agg column (block_width w) (block_width w).

(** The column of a variable of the table; empty when there is none. *)
Definition column_of (d : Timeseries) (v : Var) : list val :=
  match get_column_view d v with Ok c => c | Raised _ => [] end.

(** The variables the loops of the sequential blocks visit: the attributes
    that have a column, and the class variables. *)
Definition blocks_visited (d : Timeseries) : list Var :=
  (zip (attributes (domain d)) (columns_of (X d))).*1 ++ class_vars (domain d).

(** The columns the sequential blocks collect: for every attribute the
    rows of the reference instances of its column, unless the original
    data is discarded, and the columns of its selected aggregates that
    apply; then the same columns of the aggregates of every class
    variable. *)
Definition blocks_columns (w : OWMovingTransform) (d : Timeseries)
    (rows : rowsel) : list (list val) :=
  let sel attr := applicable (selected_aggs (var_model w) attr) in
  let keep := negb (ref_instance w =? DiscardOriginal) in
  collected_columns (kept_original keep rows) (block_column w) sel
    (zip (attributes (domain d)) (columns_of (X d)))
  ++ collected_columns (fun _ => []) (block_column w) sel
       ((fun v => (v, column_of d v)) <$> class_vars (domain d)).

(** The long names of the selected aggregations of the visited variables
    that do not apply. *)
Definition blocks_inapplicable (w : OWMovingTransform) (d : Timeseries)
    : gset string :=
  ⋃ ((fun attr => inapplicable_names (selected_aggs (var_model w) attr))
     <$> blocks_visited d).

(** No kind of the catalog is selected for any variable; no kind with a
    block transformation is. *)
Definition nothing_selected (m : TransformationsModel) : Prop :=
  forall s, s ∈ _transformations m -> kinds_in s = [].

Definition nothing_applicable_selected (m : TransformationsModel) : Prop :=
  forall s, s ∈ _transformations m -> applicable (kinds_in s) = [].

(** The rows of [n] that the sequential blocks keep as originals *)
Definition retained_rows (w : OWMovingTransform) (n : nat)
    : result (list nat) :=
  rows ← blocks_rows w; rows_positions rows n.

(** The offset of the reference instance in a block: 0 for the first,
    half the width for the middle one, the width less one for the last. *)
Definition reference_offset (w : OWMovingTransform) : Z :=
  if ref_instance w =? KeepFirst then 0
  else if ref_instance w =? KeepMiddle then block_width w / 2
  else block_width w - 1.

(** The row at [offset] in each of the complete blocks of [width] rows
    among [n] rows *)
Definition segment_rows (width offset : Z) (n : nat) : list nat :=
  (fun k => Z.to_nat (k * width + offset)) <$> seqZ 0 (Z.of_nat n / width).

(** The rows of [column] whose period is the [i]-th one *)
Definition period_segment (column : list val) (period_indices : list nat)
    (i : nat) : list val :=
  (filter (fun p => snd p = true)
     (zip column ((fun j => bool_decide (j = i)) <$> period_indices))).*1.

(** The column of the aggregate [agg] over periods: its block
    transformation of the rows of every period in turn. *)
Definition period_column (nperiods : nat) (period_indices : list nat)
    (agg : AggDesc) (column : list val) : list val :=
  match block_transform agg with
  | Some block_fn =>
      (fun i => block_fn (period_segment column period_indices i))
      <$> seq 0 nperiods
  | None => []
  end.

(** The variable has a column in the table, as long as the table. *)
Definition table_has (d : Timeseries) (v : Var) : Prop :=
  exists c, get_column_view d v = Ok c /\ length c = shape0 (X d).

(** The long names of the selected aggregations of the model that do not
    apply to periods. *)
Definition period_inapplicable (m : TransformationsModel) : gset string :=
  ⋃ ((fun attr => inapplicable_names (selected_aggs m attr)) <$> model_vars m).

(** The columns of the aggregates over periods, for the variables of the
    model in turn. *)
Definition period_aggregate_columns (w : OWMovingTransform) (d : Timeseries)
    (nperiods : nat) (period_indices : list nat) : list (list val) :=
  collected_columns (fun _ => []) (period_column nperiods period_indices)
    (fun attr => applicable (selected_aggs (var_model w) attr))
    ((fun v => (v, column_of d v)) <$> model_vars (var_model w)).

(** The sum of a list of integers *)
Definition sum_Z (l : list Z) : Z := foldr Z.add 0 l.

(** The body of the inner loop of the period aggregation, after the
    descriptor has been looked up. *)
Definition period_step (d : Timeseries) (nperiods : nat)
    (period_indices : list nat) (attr : Var) (st : acc) (agg : AggDesc)
    : result acc :=
  match block_transform agg with
  | None =>
      Ok (mkAcc (acc_attributes st) (acc_columns st) (acc_names st)
            (acc_inapplicable st ∪ {[long_desc agg]}))
  | Some block_fn =>
      '(var, nms) ← _var_for_agg attr agg (acc_names st);
      column ← get_column_view d attr;
      agg_column ←
        mapM (fun i =>
                seg ← np_mask_select column
                        ((fun j => bool_decide (j = i)) <$> period_indices);
                Ok (block_fn seg))
             (seq 0 nperiods);
      Ok (mkAcc (acc_attributes st ++ [var])
            (acc_columns st ++ [agg_column]) nms (acc_inapplicable st))
  end.

(** The keys shown for the periods: months of the year are kept from 0 and
    shown from 1 when they are not named. *)
Definition period_keys (w : OWMovingTransform) (values : list Z) : list Z :=
  if bool_decide (period_width w = "Month of year") && negb (use_names w)
  then (fun p => p + 1) <$> values else values.
(** A part of a table whose columns have the length of the part *)
Definition array_wf (a : array2) : Prop :=
  Forall (fun c => length c = shape0 a) (columns_of a).


(** What the hints remember of a row: its transformations, if it has
    some. *)
Definition remembered (m : TransformationsModel) (row : nat)
    : option (gset string) :=
  match get_transformations m row with
  | Ok (t :: ts) => Some (list_to_set (t :: ts))
  | _ => None
  end.

(** The aggregations of a set that the report lists: all of them for the
    sliding window, else those with a block transformation. *)
Definition reported (w : OWMovingTransform) (s : gset string)
    : list AggDesc :=
  if method w =? SlidingWindow then kinds_in s else applicable (kinds_in s).

(** The rows of the reported table: the variables with a listed
    aggregation, each with the long names of its listed aggregations. *)
Definition report_rows (w : OWMovingTransform) : list (string * string) :=
  omap (fun '(v, s) =>
          match reported w s with
          | [] => None
          | aggs => Some (name v, join ", " (long_desc <$> aggs))
          end)
       (zip (model_vars (var_model w)) (_transformations (var_model w))).

End Expected.

(** ** A small library to run the engines on examples

    Cells are integers or missing ([None] is NaN); a reduction skips the
    missing cells, and one whose exact result is not an integer is rounded
    down.  The geometric and harmonic means and the moving averages, which
    have no integer counterpart, yield the missing value.  Times are whole
    seconds since 1970 in the proleptic Gregorian calendar. *)
Module Sample.

Definition cell : Type := option Z.

Definition finite (l : list cell) : list Z := omap id l.

Definition reduce_nonempty (f : list Z -> Z) (l : list cell) : cell :=
  match finite l with [] => None | xs => Some (f xs) end.

Definition sum_list (xs : list Z) : Z := foldr Z.add 0 xs.
Definition prod_list (xs : list Z) : Z := foldr Z.mul 1 xs.
Definition min_list (xs : list Z) : Z :=
  match xs with [] => 0 | x :: xs' => foldr Z.min x xs' end.
Definition max_list (xs : list Z) : Z :=
  match xs with [] => 0 | x :: xs' => foldr Z.max x xs' end.
Definition mean_list (xs : list Z) : Z :=
  sum_list xs / Z.of_nat (length xs).
Definition var_list (xs : list Z) : Z :=
  let m := mean_list xs in mean_list ((fun x => (x - m) * (x - m)) <$> xs).
Definition median_list (xs : list Z) : Z :=
  let sorted := merge_sort Z.le xs in
  let n := length sorted in
  if Nat.even n
  then (default 0 (sorted !! (n / 2 - 1)%nat) + default 0 (sorted !! (n / 2)%nat)) / 2
  else default 0 (sorted !! (n / 2)%nat).
(** The most frequent value, the smallest one among equals *)
Definition mode_list (xs : list Z) : Z :=
  let '(values, _, counts) := np_unique xs in
  fst (foldr (fun '(v, c) '(bv, bc) => if bc <=? c then (v, c) else (bv, bc))
         (0, 0) (zip values counts)).

Definition running (f : Z -> Z -> Z) (unit : Z) (l : list cell) : list cell :=
  (fix go (total : Z) (l : list cell) : list cell :=
     match l with
     | [] => []
     | x :: l' =>
         let total := f total (default unit x) in
         Some total :: go total l'
     end) unit l.

(** The windows of [width] cells that start at every [step]-th position *)
Definition windows (l : list cell) (width step : Z) : list (list cell) :=
  if (width <=? 0) || (step <=? 0) then []
  else
    (fun start => take (Z.to_nat width) (drop (Z.to_nat start) l))
      <$> py_range 0 (Z.of_nat (length l) - width + 1) step.

Definition windowed (f : list cell -> cell) (l : list cell) (width step : Z)
    : list cell :=
  f <$> windows l width step.

Definition count_cells (p : cell -> bool) (l : list cell) : cell :=
  Some (Z.of_nat (length (filter (fun c => p c = true) l))).
Definition cell_ne_zero (c : cell) : bool := negb (bool_decide (c = Some 0)).
Definition cell_finite (c : cell) : bool := bool_decide (c <> None).
Definition missing (_ : list cell) : cell := None.

(** Days since 1970-01-01 of a date, and back *)
Definition days_from_civil (y m d : Z) : Z :=
  let y := if m <=? 2 then y - 1 else y in
  let era := y / 400 in
  let yoe := y - era * 400 in
  let doy := (153 * (if 2 <? m then m - 3 else m + 9) + 2) / 5 + d - 1 in
  let doe := yoe * 365 + yoe / 4 - yoe / 100 + doy in
  era * 146097 + doe - 719468.

Definition civil_from_days (z : Z) : Z * Z * Z :=
  let z := z + 719468 in
  let era := z / 146097 in
  let doe := z - era * 146097 in
  let yoe := (doe - doe / 1460 + doe / 36524 - doe / 146096) / 365 in
  let y := yoe + era * 400 in
  let doy := doe - (365 * yoe + yoe / 4 - yoe / 100) in
  let mp := (5 * doy + 2) / 153 in
  let d := doy - (153 * mp + 2) / 5 + 1 in
  let m := if mp <? 10 then mp + 3 else mp - 9 in
  (if m <=? 2 then y + 1 else y, m, d).

Definition seconds_of (c : cell) : Z := default 0 c.
Definition weekday_of (t : Z) : Z := (t / 86400 + 3) mod 7.

Definition timetuple_of (t : Z) : struct_time :=
  let days := t / 86400 in
  let secs := t mod 86400 in
  let '(y, m, d) := civil_from_days days in
  mkStructTime y m d (secs / 3600) ((secs mod 3600) / 60) (secs mod 60)
    (weekday_of t) (days - days_from_civil y 1 1 + 1) 0.

Definition timegm_of (tt : struct_time) : Z :=
  days_from_civil (tm_year tt) (tm_mon tt) (tm_mday tt) * 86400
  + tm_hour tt * 3600 + tm_min tt * 60 + tm_sec tt.

(** The time with the fields after [level] set to their least value *)
Definition truncate_time (t : Z) (level : Z) : Z :=
  let tt := timetuple_of t in
  days_from_civil (tm_year tt)
    (if 1 <=? level then tm_mon tt else 1)
    (if 2 <=? level then tm_mday tt else 1) * 86400
  + (if 3 <=? level then tm_hour tt else 0) * 3600
  + (if 4 <=? level then tm_min tt else 0) * 60
  + (if 5 <=? level then tm_sec tt else 0).

Definition domain_names (dom : Domain) : list string :=
  name <$> (variables dom ++ metas dom).

(** A proposed name that is taken gets the suffix [" (1)"], and then so do
    all the proposed names. *)
Definition unique_names (taken : list string + Domain)
    (proposed : list string) : list string :=
  let existing :=
    match taken with inl l => l | inr dom => domain_names dom end in
  if existsb (fun p => bool_decide (p ∈ existing)) proposed
  then (fun p => p +:+ " (1)") <$> proposed
  else proposed.

Definition digit (n : nat) : string :=
  String (ascii_of_nat (48 + n mod 10)) EmptyString.

(** A name proposed several times gets its occurrence number as suffix;
    [seen] holds the names met so far. *)
Fixpoint number_duplicates (seen : list string) (l : list string)
    : list string :=
  match l with
  | [] => []
  | p :: l' =>
      (if bool_decide (p ∈ l') || bool_decide (p ∈ seen)
       then p +:+ " (" +:+
            digit (S (length (filter (fun q => q = p) seen))) +:+ ")"
       else p) :: number_duplicates (seen ++ [p]) l'
  end.

Definition unique_names_duplicates (proposed : list string) : list string :=
  number_duplicates [] proposed.

Definition env : Env := {|
  val := cell;
  nan := None;
  of_int := Some;
  fsub := fun a b =>
    match a, b with Some x, Some y => Some (x - y) | _, _ => None end;
  ne_zero := cell_ne_zero;
  np_isfinite := cell_finite;
  np_nanmean := reduce_nonempty mean_list;
  np_nansum := fun l => Some (sum_list (finite l));
  np_nanprod := fun l => Some (prod_list (finite l));
  np_nanmin := reduce_nonempty min_list;
  np_nanmax := reduce_nonempty max_list;
  np_nanmedian := reduce_nonempty median_list;
  np_nanstd := reduce_nonempty (fun xs => Z.sqrt (var_list xs));
  np_nanvar := reduce_nonempty var_list;
  np_nancumsum := running Z.add 0;
  np_nancumprod := running Z.mul 1;
  stats_mode_omit := reduce_nonempty mode_list;
  stats_hmean := missing;
  stats_gmean := missing;
  windowed_func := windowed;
  moving_sum := windowed (fun l => Some (sum_list (finite l)));
  moving_count_nonzero :=
    windowed (count_cells (fun c => cell_ne_zero c && cell_finite c));
  moving_count_defined := windowed (count_cells cell_finite);
  windowed_linear_MA := windowed missing;
  windowed_exponential_MA := windowed missing;
  windowed_mode := windowed (reduce_nonempty mode_list);
  windowed_cumsum := windowed (fun l => Some (sum_list (finite l)));
  windowed_cumprod := windowed (fun l => Some (prod_list (finite l)));
  windowed_span :=
    windowed (reduce_nonempty (fun xs => max_list xs - min_list xs));
  windowed_harmonic_mean := windowed missing;
  datetime := Z;
  utc_from_timestamp := seconds_of;
  timetuple := timetuple_of;
  weekday := weekday_of;
  toordinal := fun t => t / 86400 + 719163;
  year := fun t => tm_year (timetuple_of t);
  date_toordinal := fun y m d => days_from_civil y m d + 719163;
  truncated_date := truncate_time;
  timegm := timegm_of;
  get_unique_names := unique_names;
  get_unique_names_duplicates := unique_names_duplicates;
  from_numpy_time_variable := fun dom =>
    snd <$> list_find (fun v => vartype v = TTime)
              (attributes dom ++ metas dom);
  new_ids := fun n => seqZ 0 (Z.of_nat n) |}.

#[local] Existing Instance env.

(** A table of the columns [xs] under the attributes [attrs], with a time
    variable or none, and without class variables, metas and weights. *)
Definition table (attrs : list Var) (xs : list (list cell)) (n : nat)
    (tv : option Var) : Timeseries :=
  mkTimeseries (mkDomain attrs [] []) (mkArray2 n xs) (no_columns n)
    (no_columns n) (no_columns n) [] (seqZ 0 (Z.of_nat n)) tv.

Definition x_var : Var := ContinuousVariable "x" None.
Definition t_var : Var := mkVariable "t" TTime [] None.

Definition cells (l : list Z) : list cell := Some <$> l.

(** One column [x] = 1..5, and a widget that has it as data. *)
Definition five : Timeseries := table [x_var] [cells [1; 2; 3; 4; 5]] 5 None.

Definition widget (d : Timeseries) (sel : list (gset string))
    (method' width keep : Z) : OWMovingTransform :=
  mkWidget (Some d) (mkModel (offered_variables d) sel) method'
    width keep width keep "Years" true [] no_warnings.


(** Four rows, and a table without rows. *)
Definition four : Timeseries := table [x_var] [cells [1; 2; 3; 4]] 4 None.
Definition no_rows : Timeseries := table [x_var] [[]] 0 None.

(** Five rows with their times: two in January 1970, two in February 1970
    and one in January 1971. *)
Definition timed : Timeseries :=
  table [t_var; x_var]
    [cells [0; 86400; 2678400; 2678401; 31536000]; cells [1; 2; 3; 4; 5]]
    5 (Some t_var).

(** The widget in period mode on [timed], with the period [period]. *)
Definition period_widget (period : string) (sel : list (gset string))
    : OWMovingTransform :=
  mkWidget (Some timed) (mkModel (offered_variables timed) sel) TimePeriods
    5 KeepComplete 5 DiscardOriginal period true [] no_warnings.

Definition months : PeriodDesc := mkPeriodDesc 1 false "Time" true None None 0.

(** What is looked at in the result of an engine: the warnings, and the
    names of the variables, the columns and the number of rows of the
    table. *)
Definition brief (r : Warnings * result (option Timeseries))
    : Warnings * result (option (list string * list (list cell) * nat)) :=
  (fst r,
   match snd r with
   | Ok (Some t) =>
       Ok (Some (name <$> attributes (domain t), columns_of (X t),
                 shape0 (X t)))
   | Ok None => Ok None
   | Raised e => Raised e
   end).

(** The selection of the kinds [l] for the one variable of a model *)
Definition kinds (l : list string) : list (gset string) := [list_to_set l].


Definition colour : Var := DiscreteVariable "colour" ["red"; "green"].

(** The widget before any data, and after [set_data] has got [timed]. *)
Definition fresh : OWMovingTransform :=
  mkWidget None (set_variables []) SlidingWindow 5 KeepComplete 5
    DiscardOriginal "Years" true [] no_warnings.

Definition loaded : OWMovingTransform :=
  mkWidget (Some timed) (set_variables (offered_variables timed))
    SlidingWindow 5 KeepComplete 5 DiscardOriginal "Years" true []
    no_warnings.
(** What the engines return on [five] with the mean over windows of 3 rows
    when the complete windows are kept and when the original data are
    discarded, and with the sum over blocks of 2 rows when the last row of
    a block is kept. *)
Definition aligned : Timeseries :=
  mkTimeseries (mkDomain [x_var; copy x_var "x (mean)"] [] [])
    (mkArray2 3 [cells [3; 4; 5]; cells [2; 3; 4]])
    (no_columns 3) (no_columns 3) (no_columns 3) [] [2; 3; 4] None.

Definition means : Timeseries :=
  mkTimeseries (mkDomain [copy x_var "x (mean)"] [] [])
    (mkArray2 3 [cells [2; 3; 4]])
    (no_columns 3) (no_columns 3) (no_columns 3) [] [0; 1; 2] None.

Definition last_of_two : Timeseries :=
  mkTimeseries (mkDomain [x_var; copy x_var "x (sum)"] [] [])
    (mkArray2 2 [cells [2; 4]; cells [3; 7]])
    (no_columns 2) (no_columns 2) (no_columns 2) [] [1; 3] None.
End Sample.

(** * Properties *)

Section Properties.
Context {E : Env}.

(* The catalogs are long: they are unfolded by name only. *)
#[local] Arguments descriptors : simpl never.
#[local] Arguments AggOptions : simpl never.
#[local] Arguments PeriodOptions : simpl never.
#[local] Arguments kinds_in : simpl never.

Lemma bind_Ok {A B} (a : A) (f : A -> result B) : (Ok a ≫= f) = f a.
Proof. reflexivity. Qed.

Lemma bind_Raised {A B} (e : exn) (f : A -> result B) : (Raised e ≫= f) = Raised e.
Proof. reflexivity. Qed.

(** C5. In sequential-block mode, a table with fewer rows than the block
    width makes the engine show [block_to_large] and return no table; the
    result is the same whatever is selected, as nothing is aggregated. *)
Theorem block_too_large w d :
  data w = Some d -> len d < block_width w ->
  _compute_sequential_blocks w
  = (mkWarnings (no_aggregations (Warning w))
       (inapplicable_aggregations (Warning w))
       (window_to_large (Warning w)) true, Ok None)
  /\ forall m, _compute_sequential_blocks (with_model w m) = _compute_sequential_blocks w.
Proof.
  intros Hd Hlt.
  assert (Hb : (len d <? block_width w) = true) by (apply Z.ltb_lt; exact Hlt).
  unfold _compute_sequential_blocks. simpl. rewrite Hd, Hb. split; reflexivity.
Qed.

Lemma set_warnings_nonempty ws c cs inapp :
  no_aggregations (_set_warnings ws (c :: cs) inapp) = no_aggregations ws.
Proof.
  unfold _set_warnings. destruct inapp as [s|]; [|reflexivity].
  destruct (decide (s = ∅)); reflexivity.
Qed.

Lemma set_warnings_empty ws inapp :
  no_aggregations (_set_warnings ws [] inapp) = true.
Proof. reflexivity. Qed.

Lemma engine_null_warns (engine : OWMovingTransform -> Warnings * result (option Timeseries)) w :
  engine ∈ [_compute_sliding_window; _compute_sequential_blocks; _compute_period_aggregation] ->
  snd (engine w) = Ok None -> any_warning (fst (engine w)) = true.
Proof.
  intros Hin. rewrite !elem_of_cons in Hin.
  destruct Hin as [-> | [-> | [-> | Hin]]]; [| | |by apply elem_of_nil in Hin].
  - unfold _compute_sliding_window. destruct (data w) as [d|]; [|discriminate].
    destruct (sliding_collect w d) as [[st rows]|e]; [|discriminate].
    destruct (acc_columns st) as [|c cs]; cbn [fst snd].
    + intros _. unfold any_warning. by rewrite set_warnings_empty.
    + destruct (keep_instances w =? DiscardOriginal);
        [destruct (table_of_aggregates _ _) | destruct (table_with_originals _ _ _)]; discriminate.
  - unfold _compute_sequential_blocks. destruct (data w) as [d|]; [|discriminate].
    destruct (len d <? block_width w).
    { intros _. unfold any_warning. cbn. by rewrite !orb_true_r. }
    destruct (blocks_collect w d) as [[st rows]|e]; [|discriminate].
    destruct (acc_columns st) as [|c cs]; cbn [fst snd].
    + intros _. unfold any_warning. by rewrite set_warnings_empty.
    + destruct (ref_instance w =? DiscardOriginal);
        [destruct (table_of_aggregates _ _) | destruct (table_with_originals _ _ _)]; discriminate.
  - unfold _compute_period_aggregation. destruct (data w) as [d|]; [|discriminate].
    destruct (period_collect w d) as [st|e]; [|discriminate].
    destruct (acc_columns st) as [|c cs]; cbn [fst snd].
    + intros _. unfold any_warning. by rewrite set_warnings_empty.
    + destruct (table_of_aggregates _ _); discriminate.
Qed.

(** C3, amended. For a table with at least one row, whenever [commit]
    sends no table, at least one warning is shown. *)
Theorem null_output_has_warning w d :
  data w = Some d -> 0 < len d ->
  snd (commit w) = Ok None -> any_warning (fst (commit w)) = true.
Proof.
  intros Hd Hlen. unfold commit. simpl. rewrite Hd.
  destruct (len d =? 0) eqn:Hz; [apply Z.eqb_eq in Hz; lia|].
  destruct (py_getitem _ (method w)) as [engine|e] eqn:Hg; [|discriminate].
  apply engine_null_warns.
  unfold py_getitem in Hg. simpl in Hg.
  destruct ((0 <=? _) && _) eqn:Hr; [|discriminate].
  destruct (_ !! _) eqn:Hl; [|discriminate]. injection Hg as <-.
  by apply list_elem_of_lookup_2 in Hl.
Qed.


(** ** Loops *)

Lemma for_each_cons {A S} (x : A) (l : list A) (f : S -> A -> result S) s :
  for_each (x :: l) f s = (f s x ≫= for_each l f).
Proof. reflexivity. Qed.

Lemma for_each_app {A S} (l1 l2 : list A) (f : S -> A -> result S) s :
  for_each (l1 ++ l2) f s = (for_each l1 f s ≫= for_each l2 f).
Proof.
  revert s. induction l1 as [|x l1 IH]; intros s; [reflexivity|].
  cbn. destruct (f s x) as [s'|e]; cbn; [apply IH | reflexivity].
Qed.

Lemma for_each_ext {A S} (l : list A) (f g : S -> A -> result S) s :
  (forall s x, x ∈ l -> f s x = g s x) -> for_each l f s = for_each l g s.
Proof.
  revert s. induction l as [|x l IH]; intros s Hfg; [reflexivity|].
  cbn. rewrite Hfg by left. destruct (g s x) as [s'|e]; cbn; [|reflexivity].
  apply IH. intros s'' y Hy. apply Hfg. by right.
Qed.

Lemma for_each_fmap {A B S} (h : A -> B) (l : list A)
    (f : S -> B -> result S) s :
  for_each (h <$> l) f s = for_each l (fun s x => f s (h x)) s.
Proof.
  revert s. induction l as [|x l IH]; intros s; [reflexivity|].
  cbn. destruct (f s (h x)) as [s'|e]; cbn; [apply IH | reflexivity].
Qed.

(** A loop whose body keeps the state returns it. *)
Lemma for_each_skip {A S} (l : list A) (f : S -> A -> result S) s :
  (forall x, x ∈ l -> f s x = Ok s) -> for_each l f s = Ok s.
Proof.
  induction l as [|x l IH]; intros Hf; [reflexivity|].
  cbn. rewrite Hf by left. cbn. apply IH. intros y Hy. apply Hf. by right.
Qed.

(** ** The catalog *)

Lemma dict_keys_AggOptions : dict_keys AggOptions = short_desc <$> descriptors.
Proof. reflexivity. Qed.


Lemma short_desc_NoDup : NoDup (dict_keys AggOptions).
Proof. apply (bool_decide_unpack _). vm_compute. exact I. Qed.

(** Looking a descriptor up under its short name finds it. *)
Lemma AggOptions_lookup a :
  a ∈ descriptors -> dict_getitem AggOptions (short_desc a) = Ok a.
Proof.
  unfold descriptors. intros H.
  repeat (apply elem_of_cons in H as [-> | H]; [reflexivity|]).
  by apply elem_of_nil in H.
Qed.

Lemma filter_keys (s : gset string) :
  filter (fun trans => trans ∈ s) (dict_keys AggOptions)
  = short_desc <$> filter (fun a => short_desc a ∈ s) descriptors.
Proof.
  rewrite dict_keys_AggOptions. induction descriptors as [|a l IH]; [reflexivity|].
  rewrite fmap_cons, !filter_cons. cbn.
  destruct (decide (short_desc a ∈ s)); rewrite IH; reflexivity.
Qed.

(** A loop over the selected short names that starts by looking the
    descriptor up is a loop over the selected descriptors. *)
Lemma for_each_selected {S} (s : gset string) (f : S -> string -> result S)
    (g : S -> AggDesc -> result S) st :
  (forall st a, a ∈ descriptors -> f st (short_desc a) = g st a) ->
  for_each (filter (fun trans => trans ∈ s) (dict_keys AggOptions)) f st
  = for_each (filter (fun a => short_desc a ∈ s) descriptors) g st.
Proof.
  intros Hfg. rewrite filter_keys, for_each_fmap. apply for_each_ext.
  intros st' a Ha. apply Hfg. by apply list_elem_of_filter in Ha as [_ Ha].
Qed.


(** ** The model *)

Lemma index_of_Some {A} `{EqDecision A} (x : A) l i :
  index_of x l = Some i -> l !! i = Some x.
Proof.
  revert i. induction l as [|y l IH]; intros i; [discriminate|].
  cbn. destruct (decide (y = x)) as [->|].
  - intros [= <-]. reflexivity.
  - destruct (index_of x l) as [j|]; [|discriminate].
    intros [= <-]. cbn. by apply IH.
Qed.

Lemma index_of_None {A} `{EqDecision A} (x : A) l :
  index_of x l = None <-> x ∉ l.
Proof.
  induction l as [|y l IH]; cbn.
  - split; [intros _; apply not_elem_of_nil | reflexivity].
  - rewrite not_elem_of_cons. destruct (decide (y = x)) as [->|Hne].
    + split; [discriminate | intros [? _]; congruence].
    + destruct (index_of x l); cbn.
      * split; [discriminate|]. intros [_ H]. by apply IH in H.
      * split; [|reflexivity]. intros _. split; [congruence | by apply IH].
Qed.

Lemma get_transformations_lookup m row s :
  _transformations m !! row = Some s ->
  get_transformations m row
  = Ok (filter (fun trans => trans ∈ s) (dict_keys AggOptions)).
Proof. unfold get_transformations. by intros ->. Qed.

(** In a well-formed model every variable has its set. *)
Lemma model_wf_lookup m attr row :
  model_wf m -> index_of attr (model_vars m) = Some row ->
  exists s, _transformations m !! row = Some s.
Proof.
  intros Hwf Hi. apply index_of_Some, lookup_lt_Some in Hi.
  apply lookup_lt_is_Some. unfold model_wf in Hwf. lia.
Qed.

Lemma for_each_inv {A S} (P : S -> Prop) (l : list A)
    (f : S -> A -> result S) s s' :
  (forall s x s', x ∈ l -> P s -> f s x = Ok s' -> P s') ->
  P s -> for_each l f s = Ok s' -> P s'.
Proof.
  revert s. induction l as [|x l IH]; intros s Hf Hs; cbn.
  - by intros [= <-].
  - destruct (f s x) as [s1|e] eqn:Hx; cbn; [|discriminate].
    apply IH.
    + intros s2 y s3 Hy. apply Hf. by right.
    + eapply Hf; [by left | exact Hs | exact Hx].
Qed.

(** [set_data] offers [offered_variables] and leaves a well-formed model. *)
Lemma set_data_model w0 d w :
  set_data w0 (Some d) = Ok w ->
  data w = Some d
  /\ model_vars (var_model w) = offered_variables d
  /\ model_wf (var_model w).
Proof.
  unfold set_data.
  destruct (for_each _ _ _) as [m|e] eqn:Hm; cbn; [|discriminate].
  intros [= <-]. cbn. split; [reflexivity|].
  eapply (for_each_inv
            (fun m => model_vars m = offered_variables d /\ model_wf m))
    in Hm; [exact Hm| |].
  - intros m1 [i attr] m2 _ [Hv Hwf].
    destruct (hint_for _ _) as [ts|]; [|by intros [= <-]].
    destruct (decide (ts = ∅)); [by intros [= <-]|].
    unfold set_transformations.
    destruct (_ <? _)%nat; [|discriminate]. intros [= <-]. cbn.
    split; [exact Hv|]. unfold model_wf in *. cbn. by rewrite length_insert.
  - split; [reflexivity|]. unfold model_wf, set_variables. cbn.
    by rewrite length_fmap.
Qed.

(** C10. The time variable is never aggregated.  After [set_data], and
    whatever is then selected for the offered variables, the time variable
    (a continuous variable) is not in the model, no aggregation is selected
    for it, the sliding-window and the sequential-block engines skip it
    when they collect the aggregates, and the period engine, which
    aggregates the variables of the model, does not meet it. *)
Theorem time_variable_not_aggregated w0 d w1 tv m :
  set_data w0 (Some d) = Ok w1 ->
  time_variable d = Some tv -> is_continuous tv = true ->
  model_vars m = model_vars (var_model w1) ->
  let w := with_model w1 m in
  data w = Some d
  /\ (tv ∉ model_vars (var_model w))
  /\ selected_aggs (var_model w) tv = []
  /\ (forall leading column st,
        sliding_add_aggregates w leading tv column st = Ok st)
  /\ (forall column st, blocks_add_aggregates w d tv column st = Ok st)
  /\ (forall i attr,
        (i, attr) ∈ imap (fun i attr => (i, attr)) (model_vars (var_model w)) ->
        attr <> tv).
Proof.
  intros Hset Htv Hc Hm w.
  destruct (set_data_model _ _ _ Hset) as (Hd & Hv & _).
  assert (Hnot : tv ∉ model_vars m).
  { rewrite Hm, Hv. unfold offered_variables.
    rewrite list_elem_of_filter, Htv. intros [[Hdisc | [_ Hne]] _].
    - unfold is_discrete, is_continuous in *. destruct (vartype tv); discriminate.
    - by apply Hne. }
  assert (Hi : index_of tv (model_vars m) = None) by by apply index_of_None.
  subst w. cbn. repeat split.
  - exact Hd.
  - exact Hnot.
  - unfold selected_aggs. by rewrite Hi.
  - intros leading column st. unfold sliding_add_aggregates. cbn. by rewrite Hi.
  - intros column st. unfold blocks_add_aggregates. cbn. by rewrite Hi.
  - intros i attr Hin ->. apply Hnot.
    apply list_elem_of_lookup in Hin as [j Hj].
    rewrite list_lookup_imap in Hj.
    destruct (model_vars m !! j) as [v|] eqn:Hv'; [|discriminate].
    cbn in Hj. injection Hj as _ <-. by apply list_elem_of_lookup_2 in Hv'.
Qed.


(** C8. The transformations of a variable are listed in the order of the
    catalog, whatever the order in which they were put in the set: the list
    is a sublist of the keys of [AggOptions], without repetition, holding
    the selected keys; selections with the same kinds give the same list,
    the same proposed names and the same results of the three engines. *)
Theorem transformations_in_registration_order (vars : list Var)
    (sels1 sels2 : list (list string)) :
  Forall2 (fun l1 l2 => forall t, t ∈ l1 <-> t ∈ l2) sels1 sels2 ->
  let m1 := mkModel vars (list_to_set <$> sels1) in
  let m2 := mkModel vars (list_to_set <$> sels2) in
  (forall index ts,
     get_transformations m1 index = Ok ts ->
     ts `sublist_of` dict_keys AggOptions /\ NoDup ts
     /\ (forall l1, sels1 !! index = Some l1 ->
         forall t, t ∈ ts <-> t ∈ l1 /\ t ∈ dict_keys AggOptions)
     /\ get_transformations m2 index = Ok ts)
  /\ proposed_names m1 = proposed_names m2
  /\ (forall w,
        _compute_sliding_window (with_model w m1)
        = _compute_sliding_window (with_model w m2)
        /\ _compute_sequential_blocks (with_model w m1)
           = _compute_sequential_blocks (with_model w m2)
        /\ _compute_period_aggregation (with_model w m1)
           = _compute_period_aggregation (with_model w m2)).
Proof.
  intros Hsame m1 m2.
  assert (Heq : list_to_set (C := gset string) <$> sels1
                = list_to_set <$> sels2).
  { induction Hsame as [|l1 l2 s1 s2 Hl _ IH]; [reflexivity|].
    rewrite !fmap_cons. f_equal; [|exact IH].
    apply set_eq. intros t. rewrite !elem_of_list_to_set. apply Hl. }
  assert (Hm : m1 = m2) by (subst m1 m2; by rewrite Heq).
  split; [|by rewrite Hm].
  intros index ts Hts. rewrite <- Hm. split_and!; [| | |exact Hts].
  - unfold get_transformations in Hts.
    destruct (_ !! index) as [s|]; [|discriminate]. injection Hts as <-.
    apply sublist_filter.
  - unfold get_transformations in Hts.
    destruct (_ !! index) as [s|]; [|discriminate]. injection Hts as <-.
    apply NoDup_filter, short_desc_NoDup.
  - intros l1 Hl1 t. unfold get_transformations in Hts. subst m1.
    cbn [_transformations] in Hts.
    rewrite list_lookup_fmap, Hl1 in Hts. cbn [fmap option_fmap option_map] in Hts.
    injection Hts as <-.
    rewrite list_elem_of_filter, elem_of_list_to_set. reflexivity.
Qed.

(** ** The loops of the engines *)

Lemma push_nil st : push st [] 0 ∅ = st.
Proof.
  destruct st. unfold push. cbn. by rewrite !app_nil_r, (right_id_L ∅ (∪)).
Qed.

Lemma push_push st e1 k1 i1 e2 k2 i2 :
  push (push st e1 k1 i1) e2 k2 i2 = push st (e1 ++ e2) (k1 + k2) (i1 ∪ i2).
Proof.
  unfold push. cbn.
  rewrite !fmap_app, !app_assoc, drop_drop, (assoc_L (∪)). reflexivity.
Qed.

Lemma selected_aggs_descriptors m attr a :
  a ∈ selected_aggs m attr -> a ∈ descriptors.
Proof.
  unfold selected_aggs. destruct (index_of _ _); [|by intros ?%elem_of_nil].
  destruct (_ !! _); [|by intros ?%elem_of_nil].
  by intros [_ ?]%list_elem_of_filter.
Qed.

Lemma var_for_agg_cons attr agg nm nms :
  _var_for_agg attr agg (nm :: nms) = Ok (var_of attr agg nm, nms).
Proof.
  unfold _var_for_agg, var_of. cbn. by destruct (count_aggregate agg).
Qed.

(** The inner loop of the sliding window, over descriptors. *)
Lemma sliding_inner_loop w leading attr column aggs st :
  (keep_instances w = KeepAll ->
   leading = Some (replicate (Z.to_nat (window_width w - 1)) nan)) ->
  (length aggs <= length (acc_names st))%nat ->
  for_each aggs
    (fun st agg =>
       '(var, nms) ← _var_for_agg attr agg (acc_names st);
       agg_column ←
         match cumulative agg with
         | Some cumulative_fn =>
             if keep_instances w =? KeepAll then Ok (cumulative_fn column)
             else Ok (transform agg column (window_width w) 1)
         | None =>
             let agg_column := transform agg column (window_width w) 1 in
             if keep_instances w =? KeepAll
             then np_hstack leading agg_column
             else Ok agg_column
         end;
       Ok (mkAcc (acc_attributes st ++ [var])
             (acc_columns st ++ [agg_column]) nms (acc_inapplicable st)))
    st
  = Ok (push st (aggregate_entries (sliding_column w) aggs attr column
                   (acc_names st))
          (length aggs) ∅).
Proof.
  intros Hlead.
  match goal with |- _ -> for_each _ ?f _ = _ => set (body := f) end.
  assert (Hstep : forall agg attrs cols nm nms inapp,
            body (mkAcc attrs cols (nm :: nms) inapp) agg
            = Ok (mkAcc (attrs ++ [var_of attr agg nm])
                    (cols ++ [sliding_column w agg column]) nms inapp)).
  { intros agg attrs cols nm nms inapp. unfold body. cbn [acc_names].
    rewrite var_for_agg_cons, bind_Ok. cbn beta iota zeta.
    cbn [acc_attributes acc_columns acc_inapplicable].
    unfold sliding_column.
    destruct (keep_instances w =? KeepAll) eqn:Hk.
    - apply Z.eqb_eq in Hk. rewrite (Hlead Hk).
      by destruct (cumulative agg).
    - by destruct (cumulative agg). }
  clearbody body.
  revert st. induction aggs as [|agg aggs IH]; intros st Hlen.
  - cbn. by rewrite push_nil.
  - destruct st as [attrs cols nms inapp]. cbn in Hlen.
    destruct nms as [|nm nms]; [cbn in Hlen; lia|]. cbn in Hlen.
    rewrite for_each_cons, Hstep, bind_Ok, IH by (cbn; lia).
    f_equal. unfold push. cbn.
    rewrite <- !app_assoc, (right_id_L ∅ (∪)). reflexivity.
Qed.

Lemma sliding_add_aggregates_spec w leading attr column st :
  model_wf (var_model w) ->
  (keep_instances w = KeepAll ->
   leading = Some (replicate (Z.to_nat (window_width w - 1)) nan)) ->
  (length (selected_aggs (var_model w) attr) <= length (acc_names st))%nat ->
  sliding_add_aggregates w leading attr column st
  = Ok (push st
          (aggregate_entries (sliding_column w)
             (selected_aggs (var_model w) attr) attr column (acc_names st))
          (length (selected_aggs (var_model w) attr)) ∅).
Proof.
  intros Hwf Hlead. unfold sliding_add_aggregates, selected_aggs.
  destruct (index_of attr _) as [row|] eqn:Hi.
  - destruct (model_wf_lookup _ _ _ Hwf Hi) as [s Hs]. rewrite Hs.
    intros Hlen. rewrite (get_transformations_lookup _ _ _ Hs), bind_Ok.
    erewrite for_each_selected.
    + exact (sliding_inner_loop w leading attr column _ st Hlead Hlen).
    + intros st' a Ha. cbn beta. rewrite (AggOptions_lookup _ Ha), bind_Ok.
      reflexivity.
  - intros _. cbn. by rewrite push_nil.
Qed.

(** A loop over variables with their columns, whose body adds for each
    variable the kept original columns and the aggregates of the variable,
    collects [collected] when the names suffice. *)
Lemma collect_loop orig colf sel (extra : Var -> gset string)
    (step : acc -> Var * list val -> result acc) pairs st :
  (forall st attr column,
     (attr, column) ∈ pairs ->
     (length (sel attr) <= length (acc_names st))%nat ->
     step st (attr, column)
     = Ok (push st
             (((fun c => (attr, c)) <$> orig column)
              ++ aggregate_entries colf (sel attr) attr column (acc_names st))
             (length (sel attr)) (extra attr))) ->
  (needed sel pairs.*1 <= length (acc_names st))%nat ->
  for_each pairs step st
  = Ok (push st (collected orig colf sel pairs (acc_names st))
          (needed sel pairs.*1) (⋃ (extra <$> pairs.*1))).
Proof.
  revert st. induction pairs as [|[attr column] pairs IH]; intros st Hstep Hlen.
  - cbn. by rewrite push_nil.
  - cbn in Hlen. unfold needed in Hlen. cbn in Hlen.
    cbn [for_each]. rewrite Hstep; [|by left|lia]. rewrite bind_Ok.
    rewrite IH.
    + rewrite push_push. f_equal. cbn [collected]. unfold push. cbn.
      rewrite <- !app_assoc. reflexivity.
    + intros st' a c Hin. apply Hstep. by right.
    + unfold push. cbn. rewrite length_drop. unfold needed. lia.
Qed.

(** With enough names the collected columns are the expected ones. *)
Lemma collected_snd orig colf sel pairs nms :
  (needed sel pairs.*1 <= length nms)%nat ->
  (collected orig colf sel pairs nms).*2 = collected_columns orig colf sel pairs.
Proof.
  revert nms. induction pairs as [|[attr column] pairs IH]; intros nms Hlen.
  - reflexivity.
  - unfold needed in Hlen. cbn in Hlen.
    cbn [collected]. unfold collected_columns. cbn.
    rewrite !fmap_app, IH by (rewrite length_drop; unfold needed; lia).
    rewrite <- !app_assoc. f_equal.
    + rewrite <- list_fmap_compose. cbn. apply list_fmap_id.
    + f_equal. unfold aggregate_entries.
      revert nms Hlen. clear. induction (sel attr) as [|a l IH]; intros nms Hlen.
      * reflexivity.
      * destruct nms as [|nm nms]; [cbn in Hlen; lia|].
        cbn. f_equal. apply IH. cbn in Hlen. lia.
Qed.

Lemma collected_length orig colf sel pairs nms :
  length (collected orig colf sel pairs nms).*1
  = length (collected orig colf sel pairs nms).*2.
Proof. by rewrite !length_fmap. Qed.

(** A loop over the rows of a well-formed model is a loop over its
    variables paired with their sets. *)
Lemma for_each_rows {St} (vars : list Var) (sets : list (gset string))
    (j : nat) (f : St -> nat * Var -> result St)
    (g : St -> Var * gset string -> result St) s :
  length sets = length vars ->
  (forall s i var set,
     vars !! i = Some var -> sets !! i = Some set ->
     f s ((j + i)%nat, var) = g s (var, set)) ->
  for_each (imap (fun i var => ((j + i)%nat, var)) vars) f s
  = for_each (zip vars sets) g s.
Proof.
  revert sets j s. induction vars as [|v vars IH]; intros sets j s Hlen Hfg.
  - reflexivity.
  - destruct sets as [|set sets]; [discriminate|].
    rewrite imap_cons. cbn [zip zip_with for_each].
    rewrite (Hfg s 0%nat v set) by reflexivity.
    destruct (g s (v, set)) as [s'|e]; [|reflexivity]. rewrite !bind_Ok.
    rewrite <- (IH sets (S j) s'); [|by injection Hlen|].
    + f_equal. apply imap_ext. intros i x _. cbn. f_equal. lia.
    + intros s'' i var set' Hv Hs.
      replace (S j + i)%nat with (j + S i)%nat by lia. by apply Hfg.
Qed.

Lemma for_each_model {St} m (f : St -> nat * Var -> result St)
    (g : St -> Var * gset string -> result St) s :
  model_wf m ->
  (forall s i var set,
     model_vars m !! i = Some var -> _transformations m !! i = Some set ->
     f s (i, var) = g s (var, set)) ->
  for_each (imap (fun i var => (i, var)) (model_vars m)) f s
  = for_each (zip (model_vars m) (_transformations m)) g s.
Proof.
  intros Hwf Hfg.
  apply (for_each_rows (model_vars m) (_transformations m) 0 f g s Hwf Hfg).
Qed.

(** [proposed_names] proposes one name for every selected kind. *)
Lemma proposed_names_length m :
  model_wf m ->
  exists nms, proposed_names m = Ok nms /\ length nms = selection_size m.
Proof.
  intros Hwf. unfold proposed_names.
  rewrite (for_each_model m _
             (fun nms '(var, s) =>
                Ok (nms ++ (agg_name var <$> (short_desc <$> kinds_in s)))) _ Hwf).
  - unfold selection_size.
    assert (H : forall l nms0,
      exists nms,
        for_each l
          (fun nms '(var, s) =>
             Ok (nms ++ (agg_name var <$> (short_desc <$> kinds_in s)))) nms0
        = Ok nms
        /\ length nms
           = (length nms0 + sum_list_with (fun s => length (kinds_in s)) l.*2)%nat).
    { induction l as [|[var s] l IH]; intros nms0.
      - exists nms0. cbn. split; [reflexivity | lia].
      - cbn [for_each]. rewrite bind_Ok.
        destruct (IH (nms0 ++ (agg_name var <$> (short_desc <$> kinds_in s))))
          as (nms & -> & Hl).
        exists nms. split; [reflexivity|]. rewrite Hl, length_app, !length_fmap.
        cbn. lia. }
    destruct (H (zip (model_vars m) (_transformations m)) []) as (nms & Hn & Hl).
    exists nms. split; [exact Hn|]. rewrite Hl. cbn.
    rewrite snd_zip; [reflexivity|]. unfold model_wf in Hwf. lia.
  - intros nms i var s _ Hs. rewrite (get_transformations_lookup _ _ _ Hs), bind_Ok.
    unfold kinds_in. by rewrite filter_keys.
Qed.

Lemma sum_at_most_once {A} `{EqDecision A} (y : A) (c : nat) (h : A -> nat) l :
  NoDup l ->
  (sum_list_with (fun a => if decide (y = a) then c else h a) l
   <= c + sum_list_with h l)%nat.
Proof.
  induction 1 as [|a l Hnin Hnd IH]; cbn; [lia|].
  destruct (decide (y = a)) as [<-|]; [|lia].
  assert (Hrest : sum_list_with (fun a => if decide (y = a) then c else h a) l
                  = sum_list_with h l).
  { clear IH Hnd. induction l as [|b l IH]; [reflexivity|]. cbn.
    apply not_elem_of_cons in Hnin as [Hne Hnin].
    destruct (decide (y = b)); [done|]. by rewrite IH. }
  lia.
Qed.

(** Distinct variables need at most as many names as are proposed, also
    when only some of the selected kinds [G] are named. *)
Lemma needed_le (G : list AggDesc -> list AggDesc) m visited :
  G [] = [] -> model_wf m -> NoDup visited ->
  (needed (fun attr => G (selected_aggs m attr)) visited
   <= sum_list_with (fun s => length (G (kinds_in s))) (_transformations m))%nat.
Proof.
  unfold model_wf, needed, selected_aggs.
  destruct m as [vars sets]. cbn [model_vars _transformations].
  intros HG Hlen Hnd.
  revert sets Hlen. induction vars as [|y vars IH]; intros sets Hlen.
  - cbn [index_of]. rewrite HG.
    assert (H0 : forall l : list Var,
              sum_list_with (fun _ => length (@nil AggDesc)) l = 0%nat).
    { induction l as [|? ? IHl]; [reflexivity|]. cbn. exact IHl. }
    rewrite H0. lia.
  - destruct sets as [|s sets]; [discriminate|]. cbn in Hlen.
    cbn [sum_list_with].
    etransitivity; [|apply Nat.add_le_mono_l, (IH sets); lia].
    etransitivity;
      [|apply (sum_at_most_once y (length (G (kinds_in s)))); exact Hnd].
    apply Nat.eq_le_incl. clear -HG.
    induction visited as [|a l IHl]; [reflexivity|].
    cbn [sum_list_with]. rewrite IHl. f_equal. cbn [index_of].
    destruct (decide (y = a)); [reflexivity|].
    destruct (index_of a vars); reflexivity.
Qed.


Lemma needed_le_applicable m visited :
  model_wf m -> NoDup visited ->
  (needed (fun attr => applicable (selected_aggs m attr)) visited
   <= applicable_size m)%nat.
Proof. intros. by apply (needed_le applicable). Qed.

(** ** Indexing rows *)

Lemma slice_positions_ok s n :
  slice_step s <> Some 0 -> exists ps, slice_positions s n = Ok ps.
Proof.
  intros Hstep. unfold slice_positions, slice_indices.
  destruct (default 1 (slice_step s) =? 0) eqn:Hz.
  - apply Z.eqb_eq in Hz. destruct (slice_step s) as [k|]; cbn in Hz; [|lia].
    subst k. by destruct Hstep.
  - cbn. eauto.
Qed.

Lemma np_getitem_ok {A} (l : list A) rows :
  rows_ok rows ->
  np_getitem l rows = Ok (take_positions l (positions rows (length l))).
Proof.
  intros Hok. unfold np_getitem, positions.
  destruct rows as [| |s]; cbn in Hok |- *; [done|reflexivity|].
  destruct (slice_positions_ok s (length l) Hok) as [ps ->]. reflexivity.
Qed.


Lemma needed_app sel l1 l2 :
  needed sel (l1 ++ l2) = (needed sel l1 + needed sel l2)%nat.
Proof. unfold needed. apply sum_list_with_app. Qed.

(** ** The sliding window *)

Lemma sliding_step w leading st attr column :
  model_wf (var_model w) ->
  (keep_instances w = KeepAll ->
   leading = Some (replicate (Z.to_nat (window_width w - 1)) nan)) ->
  (length (selected_aggs (var_model w) attr) <= length (acc_names st))%nat ->
  (st ← (if keep_instances w =? DiscardOriginal then Ok st
         else
           original ← np_getitem column (sliding_rows w);
           Ok (mkAcc (acc_attributes st ++ [attr])
                 (acc_columns st ++ [original])
                 (acc_names st) (acc_inapplicable st)));
   sliding_add_aggregates w leading attr column st)
  = Ok (push st
          (((fun c => (attr, c))
              <$> kept_original (negb (keep_instances w =? DiscardOriginal))
                    (sliding_rows w) column)
           ++ aggregate_entries (sliding_column w)
                (selected_aggs (var_model w) attr) attr column (acc_names st))
          (length (selected_aggs (var_model w) attr)) ∅).
Proof.
  intros Hwf Hlead Hlen.
  destruct (keep_instances w =? DiscardOriginal) eqn:Hd.
  - rewrite bind_Ok. cbn. by apply sliding_add_aggregates_spec.
  - rewrite np_getitem_ok.
    + rewrite !bind_Ok.
      rewrite sliding_add_aggregates_spec by assumption.
      f_equal. unfold push, kept_original. cbn.
      rewrite <- !app_assoc, (right_id_L ∅ (∪)). reflexivity.
    + unfold sliding_rows. rewrite Hd.
      destruct (keep_instances w =? KeepComplete); cbn; [discriminate | exact I].
Qed.

(** With a well-formed model and enough names, the loops of the sliding
    window succeed and collect [sliding_columns]. *)
Lemma sliding_collect_gen w d :
  model_wf (var_model w) ->
  (keep_instances w = DiscardOriginal \/ keep_instances w = KeepComplete
   \/ 1 <= window_width w) ->
  (forall taken nms0,
     length nms0 = selection_size (var_model w) ->
     (needed (selected_aggs (var_model w))
        ((zip (attributes (domain d)) (columns_of (X d))).*1
         ++ (zip (class_vars (domain d)) (columns_of (Y d))).*1)
      <= length (get_unique_names taken nms0))%nat) ->
  exists st,
    sliding_collect w d = Ok (st, sliding_rows w)
    /\ acc_columns st = sliding_columns w d
    /\ length (acc_attributes st) = length (acc_columns st)
    /\ acc_inapplicable st = ∅.
Proof.
  intros Hwf Hwidth Hnames. unfold sliding_collect.
  destruct (proposed_names_length _ Hwf) as (nms0 & -> & Hl0). rewrite bind_Ok.
  set (nms := if keep_instances w =? DiscardOriginal
              then get_unique_names (inl []) nms0
              else get_unique_names (inr (domain d)) nms0).
  set (pairsX := zip (attributes (domain d)) (columns_of (X d))).
  set (pairsY := zip (class_vars (domain d)) (columns_of (Y d))).
  assert (Hneed : (needed (selected_aggs (var_model w)) pairsX.*1
                   + needed (selected_aggs (var_model w)) pairsY.*1
                   <= length nms)%nat).
  { rewrite <- needed_app. subst nms.
    destruct (_ =? _); by apply Hnames. }
  set (leading := if (keep_instances w =? DiscardOriginal)
                     || (keep_instances w =? KeepComplete)
                  then None
                  else Some (replicate (Z.to_nat (window_width w - 1)) nan)).
  assert (Hrl :
    (if keep_instances w =? DiscardOriginal then Ok (RowsNone, None)
     else if keep_instances w =? KeepComplete then
       Ok (RowsSlice (Slice (Some (window_width w - 1)) None None), None)
     else
       leading ← np_full (window_width w - 1) nan;
       Ok (RowsEllipsis, Some leading))
    = Ok (sliding_rows w, leading)).
  { unfold sliding_rows, leading, np_full.
    destruct (keep_instances w =? DiscardOriginal) eqn:Hk0; [reflexivity|].
    destruct (keep_instances w =? KeepComplete) eqn:Hk1; [reflexivity|].
    apply Z.eqb_neq in Hk0, Hk1.
    destruct (window_width w - 1 <? 0) eqn:Hneg; [|reflexivity].
    apply Z.ltb_lt in Hneg. lia. }
  rewrite Hrl, bind_Ok. cbn beta iota.
  assert (Hlead : keep_instances w = KeepAll ->
                  leading = Some (replicate (Z.to_nat (window_width w - 1)) nan)).
  { intros Hk. unfold leading. rewrite Hk. reflexivity. }
  rewrite (collect_loop
             (kept_original (negb (keep_instances w =? DiscardOriginal))
                (sliding_rows w))
             (sliding_column w) (selected_aggs (var_model w)) (fun _ => ∅)).
  2:{ intros st attr column _ Hlen. by apply sliding_step. }
  2:{ cbn. fold pairsX. lia. }
  rewrite bind_Ok.
  rewrite (collect_loop (fun _ => []) (sliding_column w)
             (selected_aggs (var_model w)) (fun _ => ∅)).
  2:{ intros st attr column _ Hlen.
      rewrite sliding_add_aggregates_spec by assumption. reflexivity. }
  2:{ unfold push. cbn. rewrite length_drop. fold pairsX pairsY. lia. }
  rewrite bind_Ok. eexists. split; [reflexivity|].
  fold pairsX pairsY. unfold push. cbn. split_and!.
  - rewrite !collected_snd.
    + reflexivity.
    + rewrite length_drop. lia.
    + lia.
  - by rewrite !length_app, !length_fmap.
  - assert (Hu : forall l : list Var,
              ⋃ ((fun _ : Var => (∅ : gset string)) <$> l) = ∅).
    { induction l as [|? ? IH]; [reflexivity|]. cbn. rewrite IH.
      apply (left_id_L ∅ (∪)). }
    by rewrite !Hu, !(left_id_L ∅ (∪)).
Qed.


(** ** The tables the engines build *)







(** ** Sequential blocks *)

Lemma applicable_names_loop var aggs kept0 :
  exists kept,
    for_each aggs
      (fun kept agg =>
         Ok (if has_block_transform agg
             then kept ++ [agg_name var (short_desc agg)] else kept))
      kept0
    = Ok kept
    /\ length kept = (length kept0 + length (applicable aggs))%nat.
Proof.
  revert kept0. induction aggs as [|agg aggs IH]; intros kept0.
  - exists kept0. split; [reflexivity|]. cbn. lia.
  - rewrite for_each_cons, bind_Ok. unfold applicable. rewrite filter_cons.
    destruct (has_block_transform agg) eqn:Hb.
    + destruct (IH (kept0 ++ [agg_name var (short_desc agg)]))
        as (kept & -> & Hl).
      exists kept. split; [reflexivity|].
      rewrite Hl, length_app. unfold applicable.
      destruct (decide (true = true)); [|done]. cbn. lia.
    + destruct (IH kept0) as (kept & -> & Hl).
      exists kept. split; [reflexivity|]. rewrite Hl. unfold applicable.
      destruct (decide (false = true)); [done|]. reflexivity.
Qed.

(** [_names_for_blocked_aggregation] proposes the two names of the period
    columns in period mode, and one name for every selected kind that has
    a block transformation. *)
Lemma names_for_blocked_length w d :
  model_wf (var_model w) ->
  exists nms0,
    _names_for_blocked_aggregation w d
    = Ok (if (method w =? SequentialBlocks)
             && negb (ref_instance w =? DiscardOriginal)
          then get_unique_names (inr (domain d)) nms0
          else get_unique_names_duplicates nms0)
    /\ length nms0
       = ((if (method w =? TimePeriods)%Z then 2 else 0)
          + applicable_size (var_model w))%nat
    /\ (method w = TimePeriods ->
        exists more, nms0 = period_width w :: "Instance count" :: more).
Proof.
  intros Hwf. unfold _names_for_blocked_aggregation.
  set (prefix := if method w =? TimePeriods
                 then [period_width w; "Instance count"] else []).
  assert (H : forall l more0,
    exists more,
      for_each l
        (fun nms '(var, s) =>
           kept ← for_each (kinds_in s)
                    (fun kept agg =>
                       Ok (if has_block_transform agg
                           then kept ++ [agg_name var (short_desc agg)]
                           else kept)) [];
           Ok (nms ++ kept)) more0
      = Ok more
      /\ length more
         = (length more0
            + sum_list_with (fun s => length (applicable (kinds_in s))) l.*2)%nat).
  { induction l as [|[var s] l IH]; intros more0.
    - exists more0. split; [reflexivity|]. cbn. lia.
    - rewrite for_each_cons.
      destruct (applicable_names_loop var (kinds_in s) []) as (kept & -> & Hk).
      rewrite !bind_Ok.
      destruct (IH (more0 ++ kept)) as (more & -> & Hl).
      exists more. split; [reflexivity|]. rewrite Hl, length_app, Hk.
      cbn [fmap list_fmap snd sum_list_with length]. lia. }
  rewrite (for_each_model (var_model w) _
             (fun nms '(var, s) =>
                kept ← for_each (kinds_in s)
                         (fun kept agg =>
                            Ok (if has_block_transform agg
                                then kept ++ [agg_name var (short_desc agg)]
                                else kept)) [];
                Ok (nms ++ kept)) _ Hwf).
  - destruct (H (zip (model_vars (var_model w))
                   (_transformations (var_model w))) []) as (more & -> & Hl).
    rewrite bind_Ok. exists (prefix ++ more). split; [reflexivity|].
    split.
    + rewrite length_app, Hl. unfold applicable_size, prefix.
      rewrite snd_zip by (unfold model_wf in Hwf; lia).
      destruct (method w =? TimePeriods); cbn [length]; lia.
    + intros Hm. exists more. unfold prefix. rewrite Hm. reflexivity.
  - intros nms i var s _ Hs.
    rewrite (get_transformations_lookup _ _ _ Hs), bind_Ok.
    unfold kinds_in.
    erewrite for_each_selected; [reflexivity|].
    intros kept a Ha. cbn beta. by rewrite (AggOptions_lookup _ Ha), bind_Ok.
Qed.

Lemma applicable_cons agg aggs :
  applicable (agg :: aggs)
  = if has_block_transform agg then agg :: applicable aggs else applicable aggs.
Proof.
  unfold applicable. rewrite filter_cons.
  destruct (has_block_transform agg).
  - destruct (decide (true = true)); [reflexivity | done].
  - destruct (decide (false = true)); [done | reflexivity].
Qed.

Lemma inapplicable_names_cons agg aggs :
  inapplicable_names (agg :: aggs)
  = if has_block_transform agg then inapplicable_names aggs
    else {[long_desc agg]} ∪ inapplicable_names aggs.
Proof.
  unfold inapplicable_names. rewrite filter_cons.
  destruct (has_block_transform agg).
  - destruct (decide (true = false)); [done | reflexivity].
  - destruct (decide (false = false)); [reflexivity | done].
Qed.

(** The inner loop of the sequential blocks, over descriptors: the
    aggregations without a block transformation are noted, the others give
    a column each; [col] is the column of the variable, given or fetched. *)
Lemma blocks_inner_loop w d attr col aggs st c0 :
  (c0 = Some col
   \/ (c0 = None /\ (get_column_view d attr = Ok col \/ applicable aggs = []))) ->
  (length (applicable aggs) <= length (acc_names st))%nat ->
  fst <$> for_each aggs
    (fun '(st, column) agg =>
       match block_transform agg with
       | None =>
           Ok (mkAcc (acc_attributes st) (acc_columns st) (acc_names st)
                 (acc_inapplicable st ∪ {[long_desc agg]}), column)
       | Some _ =>
           column ← match column with
                    | Some c => Ok c
                    | None => get_column_view d attr
                    end;
           let agg_column := transform agg column (block_width w) (block_width w) in
           '(var, nms) ← _var_for_agg attr agg (acc_names st);
           Ok (mkAcc (acc_attributes st ++ [var])
                 (acc_columns st ++ [agg_column]) nms
                 (acc_inapplicable st), Some column)
       end)
    (st, c0)
  = Ok (push st
          (aggregate_entries (block_column w) (applicable aggs) attr col
             (acc_names st))
          (length (applicable aggs)) (inapplicable_names aggs)).
Proof.
  match goal with |- _ -> _ -> _ <$> for_each _ ?f _ = _ => set (body := f) end.
  assert (Hnone : forall agg a cs ns i c,
            block_transform agg = None ->
            body (mkAcc a cs ns i, c) agg
            = Ok (mkAcc a cs ns (i ∪ {[long_desc agg]}), c)).
  { intros agg a cs ns i c Hb. unfold body. by rewrite Hb. }
  assert (Hsome : forall agg a cs nm ns i c,
            has_block_transform agg = true ->
            (c = Some col \/ (c = None /\ get_column_view d attr = Ok col)) ->
            body (mkAcc a cs (nm :: ns) i, c) agg
            = Ok (mkAcc (a ++ [var_of attr agg nm])
                    (cs ++ [block_column w agg col]) ns i, Some col)).
  { intros agg a cs nm ns i c Hb Hc. unfold body, has_block_transform in *.
    destruct (block_transform agg); [|discriminate].
    assert (Hcol : match c with
                   | Some c1 => Ok c1
                   | None => get_column_view d attr
                   end = Ok col).
    { destruct Hc as [-> | [-> ->]]; reflexivity. }
    rewrite Hcol, bind_Ok. cbn [acc_names].
    rewrite var_for_agg_cons, bind_Ok. reflexivity. }
  clearbody body.
  revert st c0. induction aggs as [|agg aggs IH]; intros st c0 Hc Hlen.
  - cbn. by rewrite push_nil.
  - destruct st as [a cs ns i]. rewrite for_each_cons.
    rewrite applicable_cons, inapplicable_names_cons in *.
    destruct (has_block_transform agg) eqn:Hb.
    + cbn [length acc_names] in Hlen.
      destruct ns as [|nm ns]; [cbn in Hlen; lia|]. cbn [length] in Hlen.
      rewrite Hsome; [|exact Hb|].
      2:{ destruct Hc as [Hc | [Hc [Hv | Hnil]]];
            [by left | by right | discriminate]. }
      rewrite bind_Ok, IH; [|by left | cbn; lia].
      f_equal. unfold push. cbn. rewrite <- !app_assoc. reflexivity.
    + rewrite Hnone.
      2:{ unfold has_block_transform in Hb.
          by destruct (block_transform agg). }
      rewrite bind_Ok, IH; [|exact Hc | exact Hlen].
      f_equal. unfold push. cbn. by rewrite (assoc_L (∪)).
Qed.

Lemma blocks_add_aggregates_spec w d attr col c0 st :
  model_wf (var_model w) ->
  (c0 = Some col
   \/ (c0 = None
       /\ (get_column_view d attr = Ok col
           \/ applicable (selected_aggs (var_model w) attr) = []))) ->
  (length (applicable (selected_aggs (var_model w) attr))
   <= length (acc_names st))%nat ->
  blocks_add_aggregates w d attr c0 st
  = Ok (push st
          (aggregate_entries (block_column w)
             (applicable (selected_aggs (var_model w) attr)) attr col
             (acc_names st))
          (length (applicable (selected_aggs (var_model w) attr)))
          (inapplicable_names (selected_aggs (var_model w) attr))).
Proof.
  intros Hwf. unfold blocks_add_aggregates, selected_aggs.
  destruct (index_of attr _) as [row|] eqn:Hi.
  - destruct (model_wf_lookup _ _ _ Hwf Hi) as [s Hs]. rewrite Hs.
    intros Hc Hlen. rewrite (get_transformations_lookup _ _ _ Hs), bind_Ok.
    erewrite for_each_selected.
    + exact (blocks_inner_loop w d attr col _ st c0 Hc Hlen).
    + intros [st' c'] a Ha. cbn beta iota.
      rewrite (AggOptions_lookup _ Ha), bind_Ok. reflexivity.
  - intros _ _. cbn. by rewrite push_nil.
Qed.

Lemma blocks_step w d rows st attr column :
  model_wf (var_model w) ->
  (ref_instance w = DiscardOriginal \/ rows_ok rows) ->
  (length (applicable (selected_aggs (var_model w) attr))
   <= length (acc_names st))%nat ->
  (st ← (if negb (ref_instance w =? DiscardOriginal) then
           original ← np_getitem column rows;
           Ok (mkAcc (acc_attributes st ++ [attr])
                 (acc_columns st ++ [original])
                 (acc_names st) (acc_inapplicable st))
         else Ok st);
   blocks_add_aggregates w d attr (Some column) st)
  = Ok (push st
          (((fun c => (attr, c))
              <$> kept_original (negb (ref_instance w =? DiscardOriginal))
                    rows column)
           ++ aggregate_entries (block_column w)
                (applicable (selected_aggs (var_model w) attr)) attr column
                (acc_names st))
          (length (applicable (selected_aggs (var_model w) attr)))
          (inapplicable_names (selected_aggs (var_model w) attr))).
Proof.
  intros Hwf Hrows Hlen.
  destruct (ref_instance w =? DiscardOriginal) eqn:Hd; cbn [negb].
  - rewrite bind_Ok. cbn [kept_original fmap list_fmap app].
    apply blocks_add_aggregates_spec; [exact Hwf | by left | exact Hlen].
  - apply Z.eqb_neq in Hd. destruct Hrows as [Hr | Hr]; [done|].
    rewrite (np_getitem_ok _ _ Hr), !bind_Ok.
    rewrite (blocks_add_aggregates_spec w d attr column (Some column));
      [|exact Hwf | by left | exact Hlen].
    f_equal. unfold push, kept_original. cbn.
    rewrite <- !app_assoc. reflexivity.
Qed.

(** With a well-formed model, rows that can be taken, columns for the
    class variables that are aggregated and enough names, the loops of the
    sequential blocks succeed, collect [blocks_columns] and note
    [blocks_inapplicable]. *)
Lemma blocks_collect_gen w d rows :
  model_wf (var_model w) ->
  blocks_rows w = Ok rows ->
  (ref_instance w = DiscardOriginal \/ rows_ok rows) ->
  (forall v, v ∈ class_vars (domain d) ->
     applicable (selected_aggs (var_model w) v) = []
     \/ exists c, get_column_view d v = Ok c) ->
  (forall nms, _names_for_blocked_aggregation w d = Ok nms ->
     (needed (fun attr => applicable (selected_aggs (var_model w) attr))
        (blocks_visited d) <= length nms)%nat) ->
  exists st,
    blocks_collect w d = Ok (st, rows)
    /\ acc_columns st = blocks_columns w d rows
    /\ length (acc_attributes st) = length (acc_columns st)
    /\ acc_inapplicable st = blocks_inapplicable w d.
Proof.
  intros Hwf Hrows Hok Hcv Hnames. unfold blocks_collect.
  destruct (names_for_blocked_length w d Hwf) as (nms0 & Hn & _).
  specialize (Hnames _ Hn). rewrite Hn, bind_Ok, Hrows, bind_Ok.
  remember (if (method w =? SequentialBlocks)
               && negb (ref_instance w =? DiscardOriginal)
            then get_unique_names (inr (domain d)) nms0
            else get_unique_names_duplicates nms0) as nms eqn:Hnms.
  clear Hn Hnms nms0.
  set (sel := fun attr => applicable (selected_aggs (var_model w) attr)) in *.
  set (pairsX := zip (attributes (domain d)) (columns_of (X d))).
  set (pairsY := (fun v => (v, column_of d v)) <$> class_vars (domain d)).
  assert (HY : pairsY.*1 = class_vars (domain d)).
  { unfold pairsY. rewrite <- list_fmap_compose. apply list_fmap_id. }
  unfold blocks_visited in Hnames. fold pairsX in Hnames.
  rewrite needed_app in Hnames.
  rewrite (collect_loop
             (kept_original (negb (ref_instance w =? DiscardOriginal)) rows)
             (block_column w) sel
             (fun attr => inapplicable_names (selected_aggs (var_model w) attr))).
  2:{ intros st attr column _ Hlen. by apply blocks_step. }
  2:{ cbn [acc_names]. lia. }
  rewrite bind_Ok.
  assert (Hcl : forall st,
            for_each (class_vars (domain d))
              (fun st attr => blocks_add_aggregates w d attr None st) st
            = for_each pairsY
                (fun st (p : Var * list val) =>
                   blocks_add_aggregates w d p.1 None st) st).
  { intros st. unfold pairsY. by rewrite for_each_fmap. }
  rewrite Hcl.
  rewrite (collect_loop (fun _ => []) (block_column w) sel
             (fun attr => inapplicable_names (selected_aggs (var_model w) attr))).
  2:{ intros st attr column Hin Hlen. cbn [fst].
      unfold pairsY in Hin. apply list_elem_of_fmap in Hin as (v & [= -> ->] & Hv).
      apply blocks_add_aggregates_spec; [exact Hwf | | exact Hlen].
      right. split; [reflexivity|].
      destruct (Hcv v Hv) as [Hnil | [c Hc]]; [by right|].
      left. unfold column_of. by rewrite Hc. }
  2:{ unfold push. cbn [acc_names]. rewrite length_drop, HY. lia. }
  rewrite bind_Ok. eexists. split; [reflexivity|].
  unfold push. cbn [acc_columns acc_attributes acc_inapplicable acc_names].
  split_and!.
  - cbn [app]. rewrite !collected_snd.
    + reflexivity.
    + rewrite length_drop, HY. lia.
    + lia.
  - by rewrite !length_app, !length_fmap.
  - unfold blocks_inapplicable, blocks_visited. fold pairsX.
    rewrite HY, fmap_app, union_list_app_L, (left_id_L ∅ (∪)). reflexivity.
Qed.

(** ** No aggregate column *)

Lemma selected_aggs_kinds m attr :
  selected_aggs m attr = []
  \/ exists s, s ∈ _transformations m /\ selected_aggs m attr = kinds_in s.
Proof.
  unfold selected_aggs. destruct (index_of _ _) as [row|]; [|by left].
  destruct (_ !! row) as [s|] eqn:Hs; [|by left].
  right. exists s. split; [|reflexivity]. by apply list_elem_of_lookup_2 in Hs.
Qed.

Lemma nothing_selected_aggs m attr :
  nothing_selected m -> selected_aggs m attr = [].
Proof.
  intros Hn. destruct (selected_aggs_kinds m attr) as [-> | (s & Hs & ->)];
    [reflexivity | by apply Hn].
Qed.

Lemma nothing_applicable_aggs m attr :
  nothing_applicable_selected m -> applicable (selected_aggs m attr) = [].
Proof.
  intros Hn. destruct (selected_aggs_kinds m attr) as [-> | (s & Hs & ->)];
    [reflexivity | by apply Hn].
Qed.

Lemma needed_nil sel l : (forall a, sel a = []) -> needed sel l = 0%nat.
Proof.
  intros Hsel. unfold needed. induction l as [|a l IH]; [reflexivity|].
  cbn. by rewrite Hsel, IH.
Qed.

Lemma collected_columns_nil orig colf sel pairs :
  (forall c, orig c = []) -> (forall a, sel a = []) ->
  collected_columns orig colf sel pairs = [].
Proof.
  intros Ho Hs. unfold collected_columns.
  induction pairs as [|[attr column] pairs IH]; [reflexivity|].
  cbn. by rewrite Ho, Hs, IH.
Qed.

(** C1, amended. When the original data is discarded and nothing is
    selected (sliding window), or nothing that applies to blocks is
    selected and the block is not wider than the table (sequential
    blocks), the engine shows [no_aggregations] and returns no table. *)
Theorem no_aggregations_when_discarding w d :
  data w = Some d -> model_wf (var_model w) ->
  (keep_instances w = DiscardOriginal ->
   nothing_selected (var_model w) ->
   _compute_sliding_window w
   = (mkWarnings true (inapplicable_aggregations (Warning w))
        (len d <? window_width w) (block_to_large (Warning w)),
      Ok None))
  /\ (ref_instance w = DiscardOriginal -> block_width w <= len d ->
      nothing_applicable_selected (var_model w) ->
      no_aggregations (fst (_compute_sequential_blocks w)) = true
      /\ snd (_compute_sequential_blocks w) = Ok None).
Proof.
  intros Hd Hwf. split.
  - intros Hk Hnone.
    destruct (sliding_collect_gen w d Hwf) as (st & Hc & Hcols & _).
    { by left. }
    { intros taken nms0 _. rewrite needed_nil; [lia|].
      intros a. by apply nothing_selected_aggs. }
    unfold _compute_sliding_window. rewrite Hd, Hc, Hcols.
    unfold sliding_columns. rewrite Hk. cbn [Z.eqb DiscardOriginal negb].
    rewrite !collected_columns_nil; try done;
      intros a; by apply nothing_selected_aggs.
  - intros Hr Hwidth Hnone.
    assert (Hrows : blocks_rows w = Ok (RowsSlice (Slice (Some 0) (Some 0) None))).
    { unfold blocks_rows. by rewrite Hr. }
    destruct (blocks_collect_gen w d _ Hwf Hrows) as (st & Hc & Hcols & _).
    { by left. }
    { intros v _. left. by apply nothing_applicable_aggs. }
    { intros nms _. rewrite needed_nil; [lia|].
      intros a. by apply nothing_applicable_aggs. }
    unfold _compute_sequential_blocks. rewrite Hd.
    destruct (len d <? block_width w) eqn:Hlt; [apply Z.ltb_lt in Hlt; lia|].
    rewrite Hc, Hcols. unfold blocks_columns. rewrite Hr.
    cbn [Z.eqb DiscardOriginal negb].
    rewrite !collected_columns_nil; try done;
      intros a; by apply nothing_applicable_aggs.
Qed.

(** ** The reference instances of the blocks *)

Lemma py_range_blocks offset width n :
  0 < width -> 0 <= offset < width -> width <= n ->
  py_range offset (n - width + 1 + offset) width
  = (fun k => offset + k * width) <$> seqZ 0 (n / width).
Proof.
  intros Hw Ho Hn. unfold py_range.
  destruct (Z.ltb_spec 0 width); [|lia].
  destruct (Z.ltb_spec offset (n - width + 1 + offset)); [|lia].
  replace (n - width + 1 + offset - offset - 1) with (n + (-1) * width) by lia.
  rewrite Z.div_add by lia. f_equal. f_equal. lia.
Qed.

Lemma py_range_empty start stop step :
  0 < step -> stop <= start -> py_range start stop step = [].
Proof.
  intros Hs Hle. unfold py_range.
  destruct (Z.ltb_spec 0 step); [|lia].
  destruct (Z.ltb_spec start stop); [lia|]. reflexivity.
Qed.

Lemma segment_rows_small width offset n :
  0 < width -> Z.of_nat n < width -> segment_rows width offset n = [].
Proof.
  intros Hw Hn. unfold segment_rows. by rewrite Z.div_small by lia.
Qed.

(** For a width of at least 2, the first and the last instance of every
    complete block are kept, and so is the middle one when the width is at
    least 3. *)
Lemma reference_rows w n :
  2 <= block_width w ->
  ref_instance w = KeepFirst \/ ref_instance w = KeepLast
  \/ (ref_instance w = KeepMiddle /\ 3 <= block_width w) ->
  retained_rows w n
  = Ok (segment_rows (block_width w) (reference_offset w) n).
Proof.
  intros Hw Href. unfold retained_rows, blocks_rows, reference_offset.
  assert (Hhalf : 1 <= block_width w / 2 < block_width w).
  { split; [apply Z.div_le_lower_bound; lia | apply Z.div_lt; lia]. }
  assert (Hhalf' : 3 <= block_width w -> block_width w / 2 < block_width w - 1).
  { intros H3. apply Z.div_lt_upper_bound; lia. }
  destruct Href as [-> | [-> | [-> H3]]]; cbn [Z.eqb Pos.eqb KeepFirst KeepMiddle KeepLast
    DiscardOriginal]; rewrite bind_Ok; cbn [rows_positions];
    unfold slice_positions, slice_indices;
    cbn [slice_step slice_start slice_stop default from_option id];
    (destruct (Z.eqb_spec (block_width w) 0); [lia|]);
    (destruct (Z.ltb_spec (block_width w) 0); [lia|]);
    rewrite bind_Ok; cbn beta iota; f_equal.
  - (* first *)
    cbn [Z.ltb Z.compare].
    destruct (Z.ltb_spec (- (block_width w - 1)) 0); [|lia].
    destruct (Z.le_gt_cases (block_width w) (Z.of_nat n)) as [Hn | Hn].
    + rewrite Z.min_l, Z.max_l by lia.
      replace (- (block_width w - 1) + Z.of_nat n)
        with (Z.of_nat n - block_width w + 1 + 0) by lia.
      rewrite py_range_blocks by lia. unfold segment_rows.
      rewrite <- list_fmap_compose. apply list_fmap_ext.
      intros i k _. cbn. f_equal. lia.
    + rewrite py_range_empty, segment_rows_small by lia. reflexivity.
  - (* last *)
    destruct (Z.ltb_spec (block_width w - 1) 0); [lia|].
    destruct (Z.le_gt_cases (block_width w) (Z.of_nat n)) as [Hn | Hn].
    + rewrite Z.min_l by lia.
      replace (Z.of_nat n)
        with (Z.of_nat n - block_width w + 1 + (block_width w - 1)) at 1 by lia.
      rewrite py_range_blocks by lia. unfold segment_rows.
      rewrite <- list_fmap_compose. apply list_fmap_ext.
      intros i k _. cbn. f_equal. lia.
    + rewrite py_range_empty, segment_rows_small by lia. reflexivity.
  - (* middle *)
    specialize (Hhalf' H3).
    destruct (Z.ltb_spec (block_width w / 2) 0); [lia|].
    destruct (Z.ltb_spec (- (block_width w - 1 - block_width w / 2)) 0); [|lia].
    destruct (Z.le_gt_cases (block_width w) (Z.of_nat n)) as [Hn | Hn].
    + rewrite Z.min_l, Z.max_l by lia.
      replace (- (block_width w - 1 - block_width w / 2) + Z.of_nat n)
        with (Z.of_nat n - block_width w + 1 + block_width w / 2) by lia.
      rewrite py_range_blocks by lia. unfold segment_rows.
      rewrite <- list_fmap_compose. apply list_fmap_ext.
      intros i k _. cbn. f_equal. lia.
    + rewrite py_range_empty, segment_rows_small by lia. reflexivity.
Qed.

(** With a width of 2 the slice for the middle instance is
    [slice(1, -0, 2)], which stops at row 0 and keeps no row. *)
Lemma keep_middle_of_two w n :
  block_width w = 2 -> ref_instance w = KeepMiddle ->
  retained_rows w n = Ok [].
Proof.
  intros Hw Hr. unfold retained_rows, blocks_rows. rewrite Hw, Hr.
  cbn [Z.eqb Pos.eqb KeepMiddle KeepFirst DiscardOriginal]. rewrite bind_Ok.
  cbn [rows_positions]. unfold slice_positions, slice_indices.
  cbn [slice_step slice_start slice_stop default from_option id Z.eqb Z.ltb
       Z.compare].
  rewrite bind_Ok. cbn beta iota. f_equal.
  change (2 / 2) with 1. change (- (2 - 1 - 1)) with 0.
  cbn [Z.ltb Z.compare]. rewrite py_range_empty; [reflexivity | lia | lia].
Qed.

(** ** Periods *)

Lemma mapM_ok {A B} (f : A -> result B) (g : A -> B) l :
  (forall x, x ∈ l -> f x = Ok (g x)) -> mapM f l = Ok (g <$> l).
Proof.
  induction l as [|x l IH]; intros Hf; [reflexivity|].
  cbn [mapM]. rewrite Hf by left. rewrite bind_Ok.
  change ((fix go (l0 : list A) : result (list B) :=
             match l0 with
             | [] => mret []
             | x0 :: l1 => y ← f x0; k ← go l1; mret (y :: k)
             end) l) with (mapM f l).
  rewrite IH; [reflexivity|]. intros y Hy. apply Hf. by right.
Qed.

(** Every period of the catalog gives a key to every row. *)
Lemma period_times_ok w period time_column :
  dict_getitem PeriodOptions (period_width w) = Ok period ->
  exists times,
    period_times w period time_column = Ok times
    /\ length times = length time_column.
Proof.
  unfold PeriodOptions, period_times. cbn [dict_getitem].
  set (times0 := utc_from_timestamp <$> time_column).
  assert (Hlen : length times0 = length time_column)
    by (unfold times0; by rewrite length_fmap).
  assert (Hfield : forall i g,
            (forall t, py_getitem (struct_time_fields t) i = Ok (g t)) ->
            forall off,
            exists times,
              (times ← mapM (fun x => py_getitem
                                        (struct_time_fields (timetuple x)) i)
                         times0;
               Ok ((fun t => t + off) <$> times)) = Ok times
              /\ length times = length time_column).
  { intros i g Hg off.
    rewrite (mapM_ok _ (fun x => g (timetuple x))) by (intros; apply Hg).
    rewrite bind_Ok. eexists. split; [reflexivity|].
    by rewrite !length_fmap. }
  intros H.
  repeat match type of H with
  | context [decide (?k = period_width w)] =>
      destruct (decide (k = period_width w)) as [Hk | _];
        [injection H as <-; cbn [periodic value_as_period struct_index
                                     value_offset];
         try (eexists; split; [reflexivity | by rewrite !length_fmap]) |]
  end; try discriminate.
  - exact (Hfield 1 tm_mon (fun _ => eq_refl) (-1)).
  - rewrite <- Hk. cbn [decide]. 
    destruct (decide ("Day of year" = "Day of week")); [discriminate|].
    destruct (decide ("Day of year" = "Day of year")); [|done].
    rewrite bind_Ok. eexists. split; [reflexivity | by rewrite !length_fmap].
  - exact (Hfield 2 tm_mday (fun _ => eq_refl) 0).
  - rewrite <- Hk.
    destruct (decide ("Day of week" = "Day of week")); [|done].
    rewrite bind_Ok. eexists. split; [reflexivity | by rewrite !length_fmap].
  - exact (Hfield 3 tm_hour (fun _ => eq_refl) 0).
Qed.

Lemma index_of_NoDup {A} `{EqDecision A} (l : list A) i x :
  NoDup l -> l !! i = Some x -> index_of x l = Some i.
Proof.
  intros Hnd. revert i. induction Hnd as [|y l Hnin Hnd IH]; intros i Hi.
  - discriminate.
  - cbn [index_of]. destruct i as [|i]; cbn in Hi.
    + injection Hi as ->. by destruct (decide (x = x)).
    + destruct (decide (y = x)) as [->|].
      * apply list_elem_of_lookup_2 in Hi. done.
      * by rewrite (IH i Hi).
Qed.

(** A loop over the rows of a model is a loop over its variables. *)
Lemma for_each_indexed {St} (vars : list Var) (j : nat)
    (f : St -> nat * Var -> result St) (g : St -> Var -> result St) s :
  (forall s i var, vars !! i = Some var -> f s ((j + i)%nat, var) = g s var) ->
  for_each (imap (fun i var => ((j + i)%nat, var)) vars) f s
  = for_each vars g s.
Proof.
  revert j s. induction vars as [|v vars IH]; intros j s Hfg; [reflexivity|].
  rewrite imap_cons, !for_each_cons. rewrite (Hfg s 0%nat v) by reflexivity.
  destruct (g s v) as [s'|e]; [|reflexivity]. rewrite !bind_Ok.
  rewrite <- (IH (S j) s').
  - f_equal. apply imap_ext. intros i x _. cbn. f_equal. lia.
  - intros s'' i var Hv.
    replace (S j + i)%nat with (j + S i)%nat by lia. by apply Hfg.
Qed.

(** *** np.unique *)

Lemma elem_of_insert_sorted x y l :
  y ∈ insert_sorted x l <-> y = x \/ y ∈ l.
Proof.
  induction l as [|z l IH]; cbn.
  - rewrite list_elem_of_singleton, elem_of_nil. tauto.
  - destruct (Z.ltb_spec x z).
    + rewrite !elem_of_cons. tauto.
    + destruct (Z.eqb_spec x z) as [->|].
      * rewrite !elem_of_cons. tauto.
      * rewrite !elem_of_cons, IH. tauto.
Qed.

Lemma insert_sorted_sorted x l :
  StronglySorted Z.lt l -> StronglySorted Z.lt (insert_sorted x l).
Proof.
  induction 1 as [|z l Hs IH Hall]; cbn.
  - repeat constructor.
  - destruct (Z.ltb_spec x z).
    + constructor; [by constructor|]. constructor; [done|].
      eapply Forall_impl; [exact Hall|]. cbn. intros; lia.
    + destruct (Z.eqb_spec x z) as [->|]; [by constructor|].
      constructor; [exact IH|]. apply Forall_forall. intros y Hy.
      apply elem_of_insert_sorted in Hy as [-> | Hy]; [lia|].
      by eapply Forall_forall in Hall.
Qed.

Lemma unique_values_sorted l : StronglySorted Z.lt (foldr insert_sorted [] l).
Proof.
  induction l as [|x l IH]; cbn; [constructor | by apply insert_sorted_sorted].
Qed.

Lemma elem_of_unique_values x l : x ∈ foldr insert_sorted [] l <-> x ∈ l.
Proof.
  induction l as [|y l IH]; cbn; [reflexivity|].
  rewrite elem_of_insert_sorted, elem_of_cons, IH. reflexivity.
Qed.

Lemma sorted_NoDup l : StronglySorted Z.lt l -> NoDup l.
Proof.
  induction 1 as [|z l Hs IH Hall]; constructor; [|exact IH].
  intros Hin. eapply Forall_forall in Hall; [|exact Hin]. lia.
Qed.

Lemma count_of_cons (k x : Z) (l : list Z) :
  count_of k (x :: l) = (if decide (x = k) then 1 else 0) + count_of k l.
Proof.
  unfold count_of. rewrite filter_cons.
  destruct (decide (x = k)); cbn [length]; lia.
Qed.

Lemma sum_Z_cons x l : sum_Z (x :: l) = x + sum_Z l.
Proof. reflexivity. Qed.

Lemma sum_indicator (x : Z) (u : list Z) :
  NoDup u -> x ∈ u ->
  sum_Z ((fun k => if decide (x = k) then 1 else 0) <$> u) = 1.
Proof.
  induction 1 as [|y u Hnin Hnd IH]; intros Hin; [by apply elem_of_nil in Hin|].
  rewrite fmap_cons, sum_Z_cons. destruct (decide (x = y)) as [->|Hne].
  - assert (H0 : sum_Z ((fun k => if decide (y = k) then 1 else 0) <$> u) = 0).
    { clear IH Hnd Hin. induction u as [|z u IHu]; [reflexivity|].
      apply not_elem_of_cons in Hnin as [Hne Hnin].
      rewrite fmap_cons, sum_Z_cons, (IHu Hnin).
      by destruct (decide (y = z)). }
    rewrite H0. reflexivity.
  - apply elem_of_cons in Hin as [-> | Hin]; [done|].
    rewrite (IH Hin). reflexivity.
Qed.

(** The numbers of occurrences of distinct values that cover a list add
    up to its length. *)
Lemma sum_counts (u l : list Z) :
  NoDup u -> (forall x, x ∈ l -> x ∈ u) ->
  sum_Z ((fun k => count_of k l) <$> u) = Z.of_nat (length l).
Proof.
  intros Hnd. induction l as [|x l IH]; intros Hcover.
  - clear. induction u as [|k u IHu]; [reflexivity|].
    rewrite fmap_cons, sum_Z_cons, IHu. reflexivity.
  - assert (Hsplit :
      sum_Z ((fun k => count_of k (x :: l)) <$> u)
      = sum_Z ((fun k => if decide (x = k) then 1 else 0) <$> u)
        + sum_Z ((fun k => count_of k l) <$> u)).
    { clear. induction u as [|k u IHu]; [reflexivity|].
      rewrite !fmap_cons, !sum_Z_cons, IHu, count_of_cons. lia. }
    rewrite Hsplit, sum_indicator, IH.
    + cbn [length]. lia.
    + intros y Hy. apply Hcover. by right.
    + exact Hnd.
    + apply Hcover. by left.
Qed.

(** [np.unique]: the distinct values in ascending order; for every value
    the number of its occurrences; these numbers add up to the length. *)
Lemma np_unique_spec l :
  let '(values, inverse, counts) := np_unique l in
  StronglySorted Z.lt values
  /\ (forall x, x ∈ values <-> x ∈ l)
  /\ counts = (fun k => count_of k l) <$> values
  /\ length counts = length values
  /\ length inverse = length l
  /\ sum_Z counts = Z.of_nat (length l).
Proof.
  unfold np_unique. split_and!.
  - apply unique_values_sorted.
  - intros x. apply elem_of_unique_values.
  - reflexivity.
  - by rewrite length_fmap.
  - by rewrite length_fmap.
  - apply sum_counts.
    + apply sorted_NoDup, unique_values_sorted.
    + intros x. by rewrite elem_of_unique_values.
Qed.

(** *** The loop over the model *)

Lemma np_mask_select_ok column (period_indices : list nat) i :
  length column = length period_indices ->
  np_mask_select column ((fun j => bool_decide (j = i)) <$> period_indices)
  = Ok (period_segment column period_indices i).
Proof.
  intros Hlen. unfold np_mask_select.
  rewrite length_fmap, Hlen, Nat.eqb_refl. reflexivity.
Qed.

(** The inner loop of the period aggregation, over descriptors. *)
Lemma period_inner_loop d nperiods period_indices attr col aggs st :
  (applicable aggs = []
   \/ (get_column_view d attr = Ok col
       /\ length col = length period_indices)) ->
  (length (applicable aggs) <= length (acc_names st))%nat ->
  for_each aggs (period_step d nperiods period_indices attr) st
  = Ok (push st
          (aggregate_entries (period_column nperiods period_indices)
             (applicable aggs) attr col (acc_names st))
          (length (applicable aggs)) (inapplicable_names aggs)).
Proof.
  set (body := period_step d nperiods period_indices attr).
  assert (Hnone : forall agg a cs ns ia,
            block_transform agg = None ->
            body (mkAcc a cs ns ia) agg
            = Ok (mkAcc a cs ns (ia ∪ {[long_desc agg]}))).
  { intros agg a cs ns ia Hb. unfold body, period_step. by rewrite Hb. }
  assert (Hsome : forall agg a cs nm ns ia,
            has_block_transform agg = true ->
            get_column_view d attr = Ok col ->
            length col = length period_indices ->
            body (mkAcc a cs (nm :: ns) ia) agg
            = Ok (mkAcc (a ++ [var_of attr agg nm])
                    (cs ++ [period_column nperiods period_indices agg col])
                    ns ia)).
  { intros agg a cs nm ns ia Hb Hcol Hlen.
    unfold body, period_step, has_block_transform, period_column in *.
    destruct (block_transform agg) as [block_fn|]; [|discriminate].
    cbn [acc_names]. rewrite var_for_agg_cons, bind_Ok. cbn beta iota.
    rewrite Hcol, bind_Ok.
    rewrite (mapM_ok _
               (fun i => block_fn (period_segment col period_indices i))).
    - reflexivity.
    - intros i _. by rewrite np_mask_select_ok, bind_Ok. }
  clearbody body.
  revert st. induction aggs as [|agg aggs IH]; intros st Hc Hlen.
  - cbn. by rewrite push_nil.
  - destruct st as [a cs ns ia]. rewrite for_each_cons.
    rewrite applicable_cons, inapplicable_names_cons in *.
    destruct (has_block_transform agg) eqn:Hb.
    + cbn [length acc_names] in Hlen.
      destruct ns as [|nm ns]; [cbn in Hlen; lia|]. cbn [length] in Hlen.
      destruct Hc as [Hc | [Hcol Hl]]; [discriminate|].
      rewrite Hsome by assumption.
      rewrite bind_Ok, IH; [|by right | cbn; lia].
      f_equal. unfold push. cbn. rewrite <- !app_assoc. reflexivity.
    + rewrite Hnone.
      2:{ unfold has_block_transform in Hb.
          by destruct (block_transform agg). }
      rewrite bind_Ok, IH; [|exact Hc | exact Hlen].
      f_equal. unfold push. cbn. by rewrite (assoc_L (∪)).
Qed.

(** With a well-formed model of distinct variables, a full column for
    every variable that is aggregated, and enough names, the loop of the
    period aggregation collects the columns of the aggregates. *)
Lemma period_add_aggregates_spec w d nperiods period_indices st :
  model_wf (var_model w) -> NoDup (model_vars (var_model w)) ->
  (forall v, v ∈ model_vars (var_model w) ->
     applicable (selected_aggs (var_model w) v) = []
     \/ exists c, get_column_view d v = Ok c
                  /\ length c = length period_indices) ->
  (needed (fun attr => applicable (selected_aggs (var_model w) attr))
     (model_vars (var_model w)) <= length (acc_names st))%nat ->
  period_add_aggregates w d nperiods period_indices st
  = Ok (push st
          (collected (fun _ => []) (period_column nperiods period_indices)
             (fun attr => applicable (selected_aggs (var_model w) attr))
             ((fun v => (v, column_of d v)) <$> model_vars (var_model w))
             (acc_names st))
          (needed (fun attr => applicable (selected_aggs (var_model w) attr))
             (model_vars (var_model w)))
          (period_inapplicable (var_model w))).
Proof.
  intros Hwf Hnd Hcols Hneed. unfold period_add_aggregates.
  set (sel := fun attr => applicable (selected_aggs (var_model w) attr)) in *.
  set (pairs := (fun v => (v, column_of d v)) <$> model_vars (var_model w)).
  assert (HP : pairs.*1 = model_vars (var_model w)).
  { unfold pairs. rewrite <- list_fmap_compose. apply list_fmap_id. }
  set (G := fun st var =>
              for_each (selected_aggs (var_model w) var)
                (period_step d nperiods period_indices var) st).
  rewrite (for_each_indexed (model_vars (var_model w)) 0 _ G).
  2:{ intros s i var Hvar. cbn [Nat.add].
      pose proof (index_of_NoDup _ _ _ Hnd Hvar) as Hi.
      destruct (model_wf_lookup _ _ _ Hwf Hi) as [set Hset].
      rewrite (get_transformations_lookup _ _ _ Hset), bind_Ok.
      unfold G, selected_aggs. rewrite Hi, Hset.
      apply for_each_selected. intros st' a Ha.
      by rewrite (AggOptions_lookup _ Ha), bind_Ok. }
  assert (Hpairs : for_each (model_vars (var_model w)) G st
                   = for_each pairs (fun st (p : Var * list val) => G st p.1) st).
  { unfold pairs. by rewrite for_each_fmap. }
  rewrite Hpairs.
  rewrite (collect_loop (fun _ => []) (period_column nperiods period_indices)
             sel
             (fun attr => inapplicable_names (selected_aggs (var_model w) attr))).
  - rewrite HP. reflexivity.
  - intros st' attr column Hin Hlen. cbn [fst]. unfold G.
    unfold pairs in Hin.
    apply list_elem_of_fmap in Hin as (v & [= -> ->] & Hv).
    apply period_inner_loop; [|exact Hlen].
    destruct (Hcols v Hv) as [Hnil | (c & Hc & Hl)]; [by left|].
    right. unfold column_of. by rewrite Hc.
  - by rewrite HP.
Qed.

Lemma length_period_keys w values :
  length (period_keys w values) = length values.
Proof.
  unfold period_keys. destruct (_ && _); [by rewrite length_fmap | reflexivity].
Qed.

(** In period mode, with a well-formed model of distinct variables, an
    allocator that keeps the number of names, a time variable and a period
    of the catalog, and a full column for the time variable and for every
    variable that is aggregated, the period aggregation collects the keys
    of the periods, the numbers of their rows and the columns of the
    aggregates. *)
Lemma period_collect_spec w d tv period :
  method w = TimePeriods ->
  model_wf (var_model w) -> NoDup (model_vars (var_model w)) ->
  allocator_keeps_length ->
  time_variable d = Some tv -> table_has d tv ->
  dict_getitem PeriodOptions (period_width w) = Ok period ->
  (forall v, v ∈ model_vars (var_model w) ->
     applicable (selected_aggs (var_model w) v) = [] \/ table_has d v) ->
  exists time_column times st,
    get_column_view d tv = Ok time_column
    /\ period_times w period time_column = Ok times
    /\ length times = shape0 (X d)
    /\ period_collect w d = Ok st
    /\ acc_columns st
       = (of_int <$> period_keys w (np_unique times).1.1)
         :: (of_int <$> (np_unique times).2)
         :: period_aggregate_columns w d
              (length (period_keys w (np_unique times).1.1))
              (np_unique times).1.2
    /\ length (acc_attributes st) = length (acc_columns st)
    /\ acc_inapplicable st = period_inapplicable (var_model w).
Proof.
  intros Hm Hwf Hnd [_ Hdup] Htv (time_column & Htc & Htl) Hperiod Hcols.
  destruct (period_times_ok w period time_column Hperiod) as (times & Ht & Hlt).
  exists time_column, times.
  destruct (names_for_blocked_length w d Hwf) as (nms0 & Hn & Hl & _).
  rewrite Hm in Hn, Hl. cbn [Z.eqb Pos.eqb TimePeriods SequentialBlocks andb] in Hn, Hl.
  pose proof (Hdup nms0) as Hlen. rewrite Hl in Hlen.
  destruct (get_unique_names_duplicates nms0) as [|n1 [|n2 rest]] eqn:Hnames;
    [cbn in Hlen; lia | cbn in Hlen; lia |].
  cbn [length] in Hlen.
  assert (Hrest : length rest = applicable_size (var_model w)) by lia.
  unfold period_collect.
  rewrite Hn, bind_Ok, Hperiod, bind_Ok, Htv, Htc, bind_Ok, Ht, bind_Ok.
  assert (Hkey : exists key_var,
    (if periodic period then
       '(nm, nms) ← next (n1 :: n2 :: rest);
       match names period with
       | Some labels =>
           if use_names w then Ok (DiscreteVariable nm labels, nms)
           else Ok (ContinuousVariable nm None, nms)
       | None => Ok (ContinuousVariable nm None, nms)
       end
     else '(nm, nms) ← next (n1 :: n2 :: rest); Ok (copy tv nm, nms))
    = Ok (key_var, n2 :: rest)).
  { destruct (periodic period); cbn [next]; rewrite bind_Ok; cbn beta iota.
    - destruct (names period); [destruct (use_names w)|]; eauto.
    - eauto. }
  destruct Hkey as [key_var ->]. rewrite bind_Ok. cbn beta iota.
  pose proof (np_unique_spec times) as Hu.
  destruct (np_unique times) as [[values period_indices] counts] eqn:Hnu.
  destruct Hu as (_ & _ & _ & Hcl & Hil & _).
  cbn [fst snd next]. rewrite bind_Ok. cbn beta iota.
  fold (period_keys w values).
  rewrite period_add_aggregates_spec; [|exact Hwf | exact Hnd | |].
  - eexists. split_and!; try reflexivity; try lia.
    + unfold push. cbn [acc_columns acc_names app].
      rewrite collected_snd; [reflexivity|].
      rewrite <- list_fmap_compose, list_fmap_id, Hrest.
      by apply needed_le_applicable.
    + unfold push. cbn [acc_columns acc_attributes].
      by rewrite !length_app, !length_fmap.
    + unfold push. cbn [acc_inapplicable]. apply (left_id_L ∅ (∪)).
  - intros v Hv. destruct (Hcols v Hv) as [Hnil | (c & Hc & Hcl')]; [by left|].
    right. exists c. split; [exact Hc|]. lia.
  - cbn [acc_names]. rewrite Hrest. by apply needed_le_applicable.
Qed.

Lemma np_vstack_T_ok columns n :
  columns <> [] -> Forall (fun c => length c = n) columns ->
  np_vstack_T columns = Ok (mkArray2 n columns).
Proof.
  intros Hne Hall. unfold np_vstack_T.
  destruct columns as [|c cs]; [done|].
  apply Forall_cons in Hall as [Hc Hcs]. rewrite Hc.
  assert (Hb : forallb (fun c' => (length c' =? n)%nat) cs = true).
  { apply forallb_forall. intros c' Hin. apply Nat.eqb_eq.
    rewrite Forall_forall in Hcs. apply Hcs. by apply list_elem_of_In. }
  by rewrite Hb.
Qed.

(** Columns of one length, with as many variables, make a table. *)
Lemma table_of_aggregates_ok st attrs n :
  acc_columns st <> [] ->
  Forall (fun c => length c = n) (acc_columns st) ->
  length (acc_attributes st) = length (acc_columns st) ->
  exists ts,
    table_of_aggregates st attrs = Ok ts
    /\ X ts = mkArray2 n (acc_columns st)
    /\ attributes (domain ts) = acc_attributes st.
Proof.
  intros Hne Hall Hlen. unfold table_of_aggregates.
  rewrite (np_vstack_T_ok _ n Hne Hall), bind_Ok. unfold from_numpy.
  cbn [columns_of shape0 no_columns attributes class_vars metas length].
  rewrite Hlen, !Nat.eqb_refl. cbn [andb negb default].
  eexists. split; [reflexivity|]. by split.
Qed.

Lemma period_column_length nperiods period_indices agg column :
  has_block_transform agg = true ->
  length (period_column nperiods period_indices agg column) = nperiods.
Proof.
  unfold has_block_transform, period_column.
  destruct (block_transform agg); [|discriminate].
  intros _. by rewrite length_fmap, length_seq.
Qed.

Lemma period_aggregate_columns_length w d nperiods period_indices :
  Forall (fun c => length c = nperiods)
    (period_aggregate_columns w d nperiods period_indices).
Proof.
  unfold period_aggregate_columns, collected_columns.
  induction ((fun v => (v, column_of d v)) <$> model_vars (var_model w))
    as [|[attr column] pairs IH]; [constructor|].
  cbn [fmap list_fmap concat app]. apply Forall_app. split; [|exact IH].
  apply Forall_fmap, Forall_forall. intros agg Hagg. cbn.
  apply period_column_length.
  unfold applicable in Hagg. by apply list_elem_of_filter in Hagg as [? _].
Qed.





(** C7. In period mode, for a table with a time variable, a period of the
    catalog and a well-formed model, the period aggregation returns a
    table whose first column holds the keys of the periods, in ascending
    order and without repetition, and whose second column holds for every
    key the number of rows with that key; these numbers add up to the
    number of rows of the input.  The columns of the selected aggregates
    follow; when none is selected (or none that applies) the table has
    these two columns alone.  [no_aggregations] is not shown. *)
Theorem period_aggregation_counts w d tv period :
  data w = Some d -> method w = TimePeriods ->
  model_wf (var_model w) -> NoDup (model_vars (var_model w)) ->
  allocator_keeps_length ->
  time_variable d = Some tv -> table_has d tv ->
  dict_getitem PeriodOptions (period_width w) = Ok period ->
  (forall v, v ∈ model_vars (var_model w) ->
     applicable (selected_aggs (var_model w) v) = [] \/ table_has d v) ->
  exists time_column times ts,
    get_column_view d tv = Ok time_column
    /\ period_times w period time_column = Ok times
    /\ length times = shape0 (X d)
    /\ snd (_compute_period_aggregation w) = Ok (Some ts)
    /\ no_aggregations (fst (_compute_period_aggregation w))
       = no_aggregations (Warning w)
    /\ let '(values, period_indices, counts) := np_unique times in
       columns_of (X ts)
       = (of_int <$> period_keys w values)
         :: (of_int <$> counts)
         :: period_aggregate_columns w d (length values) period_indices
       /\ shape0 (X ts) = length values
       /\ StronglySorted Z.lt values
       /\ (forall k, k ∈ values <-> k ∈ times)
       /\ counts = (fun k => count_of k times) <$> values
       /\ sum_Z counts = len d
       /\ (nothing_applicable_selected (var_model w) ->
           columns_of (X ts)
           = [of_int <$> period_keys w values; of_int <$> counts]).
Proof.
  intros Hd Hm Hwf Hnd Halloc Htv Hhas Hperiod Hcols.
  destruct (period_collect_spec w d tv period Hm Hwf Hnd Halloc Htv Hhas
              Hperiod Hcols)
    as (time_column & times & st & Htc & Ht & Hlt & Hc & Hcolumns & Hlen & _).
  exists time_column, times.
  pose proof (np_unique_spec times) as Hu.
  destruct (np_unique times) as [[values period_indices] counts] eqn:Hnu.
  cbn [fst snd] in Hcolumns.
  destruct Hu as (Hsorted & Hmem & Hcounts & Hcl & _ & Hsum).
  rewrite length_period_keys in Hcolumns.
  destruct (table_of_aggregates_ok st [] (length values)) as (ts & Hts & HX & _).
  { by rewrite Hcolumns. }
  { rewrite Hcolumns. repeat apply Forall_cons_2.
    - by rewrite length_fmap, length_period_keys.
    - by rewrite length_fmap.
    - apply period_aggregate_columns_length. }
  { exact Hlen. }
  exists ts.
  assert (Hengine : _compute_period_aggregation w
                    = (_set_warnings (Warning w) (acc_columns st)
                         (Some (acc_inapplicable st)), Ok (Some ts))).
  { unfold _compute_period_aggregation. rewrite Hd, Hc, Hts, bind_Ok.
    rewrite Hcolumns. reflexivity. }
  rewrite Hengine. cbn [fst snd].
  split_and!; try done.
  - rewrite Hcolumns. apply set_warnings_nonempty.
  - by rewrite HX.
  - by rewrite HX.
  - rewrite Hsum. unfold len. lia.
  - intros Hnone. rewrite HX. cbn [columns_of]. rewrite Hcolumns.
    unfold period_aggregate_columns.
    rewrite collected_columns_nil; [reflexivity | done |].
    intros a. by apply nothing_applicable_aggs.
Qed.

(** ** Inapplicable aggregations *)




(** ** The warnings of the dispatcher, the rows of the tables, and the
    handlers of the controls *)

Lemma set_warnings_keeps_width_flags ws columns inapp :
  window_to_large (_set_warnings ws columns inapp) = window_to_large ws
  /\ block_to_large (_set_warnings ws columns inapp) = block_to_large ws.
Proof.
  unfold _set_warnings. destruct inapp as [s|].
  - destruct (decide (s = ∅)); destruct columns; by split.
  - destruct columns; by split.
Qed.

Lemma sliding_width_flags w d :
  data w = Some d ->
  window_to_large (fst (_compute_sliding_window w)) = (len d <? window_width w)
  /\ block_to_large (fst (_compute_sliding_window w))
     = block_to_large (Warning w).
Proof.
  intros Hd. unfold _compute_sliding_window. rewrite Hd.
  destruct (sliding_collect w d) as [[st rows]|e]; cbn [fst].
  - destruct (set_warnings_keeps_width_flags
                (mkWarnings (no_aggregations (Warning w))
                   (inapplicable_aggregations (Warning w))
                   (len d <? window_width w) (block_to_large (Warning w)))
                (acc_columns st) None) as [-> ->]. by split.
  - by split.
Qed.

Lemma blocks_width_flags w d :
  data w = Some d ->
  window_to_large (fst (_compute_sequential_blocks w))
  = window_to_large (Warning w)
  /\ block_to_large (fst (_compute_sequential_blocks w))
     = (len d <? block_width w) || block_to_large (Warning w).
Proof.
  intros Hd. unfold _compute_sequential_blocks. rewrite Hd.
  destruct (len d <? block_width w); [by split|].
  destruct (blocks_collect w d) as [[st rows]|e]; cbn [fst orb].
  - apply set_warnings_keeps_width_flags.
  - by split.
Qed.

Lemma period_width_flags w d :
  data w = Some d ->
  window_to_large (fst (_compute_period_aggregation w))
  = window_to_large (Warning w)
  /\ block_to_large (fst (_compute_period_aggregation w))
     = block_to_large (Warning w).
Proof.
  intros Hd. unfold _compute_period_aggregation. rewrite Hd.
  destruct (period_collect w d) as [st|e]; cbn [fst].
  - apply set_warnings_keeps_width_flags.
  - by split.
Qed.

(** X1. On a table with rows and with one of the three methods, [commit]
    shows [window_to_large] exactly when the method is the sliding window
    and the window is wider than the table has rows, and [block_to_large]
    exactly when the method is the sequential blocks and the block is wider
    than the table has rows: the warnings left by an earlier run are
    cleared, and no engine shows the warning of another. *)
Theorem commit_width_warnings w d :
  data w = Some d -> 0 < len d -> 0 <= method w <= 2 ->
  window_to_large (fst (commit w))
  = (method w =? SlidingWindow) && (len d <? window_width w)
  /\ block_to_large (fst (commit w))
     = (method w =? SequentialBlocks) && (len d <? block_width w).
Proof.
  intros Hd Hlen Hm. unfold commit.
  set (w' := with_warnings w no_warnings).
  assert (Hd' : data w' = Some d) by exact Hd.
  rewrite Hd'. destruct (len d =? 0) eqn:Hz; [apply Z.eqb_eq in Hz; lia|].
  change (method w') with (method w).
  assert (Hcases : method w = 0 \/ method w = 1 \/ method w = 2) by lia.
  destruct Hcases as [Hk | [Hk | Hk]]; rewrite Hk.
  - change (py_getitem _ 0) with (Ok (@_compute_sliding_window E)).
    destruct (sliding_width_flags w' d Hd') as [-> ->]. by split.
  - change (py_getitem _ 1) with (Ok (@_compute_sequential_blocks E)).
    destruct (blocks_width_flags w' d Hd') as [-> ->].
    split; [reflexivity|]. apply orb_false_r.
  - change (py_getitem _ 2) with (Ok (@_compute_period_aggregation E)).
    destruct (period_width_flags w' d Hd') as [-> ->]. by split.
Qed.

Lemma take_positions_cons {A} (x : A) l k m :
  take_positions (x :: l) (seq (S k) m) = take_positions l (seq k m).
Proof.
  unfold take_positions. revert k. induction m as [|m IH]; intros k.
  - reflexivity.
  - cbn [seq omap list_omap]. rewrite (IH (S k)). reflexivity.
Qed.

Lemma take_positions_seq {A} (l : list A) k :
  take_positions l (seq k (length l - k)) = drop k l.
Proof.
  revert k. induction l as [|x l IH]; intros k.
  - by destruct k.
  - destruct k as [|k].
    + cbn [length Nat.sub seq drop].
      change (take_positions (x :: l) (0%nat :: seq 1 (length l)))
        with (x :: take_positions (x :: l) (seq 1 (length l))).
      rewrite take_positions_cons. specialize (IH 0%nat).
      rewrite Nat.sub_0_r, drop_0 in IH. by rewrite IH.
    + cbn [length Nat.sub drop]. rewrite take_positions_cons. apply IH.
Qed.

Lemma slice_from_positions k n :
  0 <= k ->
  slice_positions (Slice (Some k) None None) n
  = Ok (seq (Z.to_nat k) (n - Z.to_nat k)).
Proof.
  intros Hk. unfold slice_positions, slice_indices.
  cbn [slice_step slice_start slice_stop default from_option id Z.eqb Z.ltb
       Z.compare].
  rewrite bind_Ok. cbn beta iota. f_equal.
  destruct (Z.ltb_spec k 0); [lia|]. unfold py_range. cbn [Z.ltb Z.compare].
  destruct (Z.ltb_spec (Z.min k (Z.of_nat n)) (Z.of_nat n)).
  - rewrite Z.min_l by lia. rewrite Z.div_1_r.
    replace (Z.of_nat n - k - 1 + 1) with (Z.of_nat (n - Z.to_nat k)) by lia.
    rewrite <- list_fmap_compose. unfold seqZ.
    rewrite <- list_fmap_compose.
    replace (Z.to_nat (Z.of_nat (n - Z.to_nat k))) with (n - Z.to_nat k)%nat by lia.
    transitivity (Nat.add (Z.to_nat k) <$> seq 0 (n - Z.to_nat k));
      [|rewrite fmap_add_seq; f_equal; lia].
    apply list_fmap_ext. intros i j _. cbn. lia.
  - replace (n - Z.to_nat k)%nat with 0%nat by lia. reflexivity.
Qed.

Lemma np_getitem_from {A} (l : list A) k :
  0 <= k ->
  np_getitem l (RowsSlice (Slice (Some k) None None)) = Ok (drop (Z.to_nat k) l).
Proof.
  intros Hk. unfold np_getitem. cbn [rows_positions].
  rewrite slice_from_positions by exact Hk. rewrite bind_Ok.
  by rewrite take_positions_seq.
Qed.

Lemma np_getitem_all {A} (l : list A) : np_getitem l RowsEllipsis = Ok l.
Proof.
  unfold np_getitem. cbn [rows_positions]. rewrite bind_Ok. f_equal.
  rewrite <- (drop_0 l) at 3. rewrite <- take_positions_seq.
  by rewrite Nat.sub_0_r.
Qed.


Lemma sliding_collect_rows w d st rows :
  sliding_collect w d = Ok (st, rows) -> rows = sliding_rows w.
Proof.
  unfold sliding_collect, sliding_rows.
  destruct (proposed_names _) as [nms|e]; [|discriminate]. rewrite bind_Ok.
  destruct (keep_instances w =? DiscardOriginal).
  - rewrite bind_Ok.
    destruct (for_each _ _ _) as [st1|e]; [|discriminate]. rewrite bind_Ok.
    destruct (for_each _ _ _) as [st2|e]; [|discriminate]. rewrite bind_Ok.
    by intros [= _ <-].
  - destruct (keep_instances w =? KeepComplete).
    + rewrite bind_Ok.
      destruct (for_each _ _ _) as [st1|e]; [|discriminate]. rewrite bind_Ok.
      destruct (for_each _ _ _) as [st2|e]; [|discriminate]. rewrite bind_Ok.
      by intros [= _ <-].
    + destruct (np_full _ _) as [leading|e]; [|discriminate].
      rewrite !bind_Ok.
      destruct (for_each _ _ _) as [st1|e]; [|discriminate]. rewrite bind_Ok.
      destruct (for_each _ _ _) as [st2|e]; [|discriminate]. rewrite bind_Ok.
      by intros [= _ <-].
Qed.

Lemma array_getitem_from a k :
  array_wf a -> 0 <= k ->
  array_getitem a (RowsSlice (Slice (Some k) None None))
  = Ok (mkArray2 (shape0 a - Z.to_nat k) (drop (Z.to_nat k) <$> columns_of a)).
Proof.
  intros Hwf Hk. unfold array_getitem. cbn [rows_positions].
  rewrite slice_from_positions by exact Hk. rewrite bind_Ok.
  rewrite length_seq. f_equal. f_equal.
  apply list_fmap_ext. intros i c Hc.
  rewrite <- (Forall_lookup_1 _ _ _ _ Hwf Hc). apply take_positions_seq.
Qed.

Lemma array_getitem_all a :
  array_wf a -> array_getitem a RowsEllipsis = Ok a.
Proof.
  intros Hwf. unfold array_getitem. cbn [rows_positions]. rewrite bind_Ok.
  rewrite length_seq. destruct a as [n cols]. f_equal. f_equal.
  cbn [columns_of shape0] in *. rewrite <- (list_fmap_id cols) at 2.
  apply list_fmap_ext. intros i c Hc. cbn.
  pose proof (Forall_lookup_1 _ _ _ _ Hwf Hc) as Hlen. cbn in Hlen.
  rewrite <- (drop_0 c) at 2. rewrite <- take_positions_seq.
  by rewrite Nat.sub_0_r, Hlen.
Qed.

Lemma table_with_originals_parts d st rows ts :
  table_with_originals d st rows = Ok ts ->
  array_getitem (Y d) rows = Ok (Y ts)
  /\ array_getitem (metas_of d) rows = Ok (metas_of ts)
  /\ array_getitem (W d) rows = Ok (W ts)
  /\ np_getitem (ids d) rows = Ok (ids ts)
  /\ class_vars (domain ts) = class_vars (domain d)
  /\ metas (domain ts) = metas (domain d)
  /\ table_attributes ts = table_attributes d
  /\ length (ids ts) = shape0 (X ts).
Proof.
  unfold table_with_originals.
  destruct (np_vstack_T _) as [x|e] eqn:Hx; [|discriminate]. rewrite bind_Ok.
  destruct (array_getitem (Y d) rows) as [y|e]; [|discriminate]. rewrite bind_Ok.
  destruct (array_getitem (metas_of d) rows) as [m|e]; [|discriminate].
  rewrite bind_Ok.
  destruct (array_getitem (W d) rows) as [wt|e]; [|discriminate].
  rewrite bind_Ok.
  destruct (np_getitem (ids d) rows) as [ids'|e]; [|discriminate].
  rewrite bind_Ok. unfold from_numpy.
  destruct (negb _); [discriminate|].
  destruct (_ && (length ids' =? shape0 x)%nat) eqn:Hshape; [|discriminate].
  cbn [negb]. intros [= <-]. cbn.
  apply andb_prop in Hshape as [_ Hids]. apply Nat.eqb_eq in Hids.
  by repeat split.
Qed.

(** X2. When the sliding window keeps the original data and returns a
    table, the table has the class variables and the metas of the input
    and, of the identifiers, class values and metas, the rows from
    [window_width - 1] on when only the complete windows are kept, and all
    the rows when the leading instances are included; it has as many rows
    as it has identifiers. *)
Theorem sliding_window_original_rows w d ts :
  data w = Some d -> 1 <= window_width w ->
  array_wf (Y d) -> array_wf (metas_of d) ->
  snd (_compute_sliding_window w) = Ok (Some ts) ->
  keep_instances w <> DiscardOriginal ->
  let k := if keep_instances w =? KeepComplete
           then Z.to_nat (window_width w - 1) else 0%nat in
  ids ts = drop k (ids d)
  /\ columns_of (Y ts) = drop k <$> columns_of (Y d)
  /\ columns_of (metas_of ts) = drop k <$> columns_of (metas_of d)
  /\ class_vars (domain ts) = class_vars (domain d)
  /\ metas (domain ts) = metas (domain d)
  /\ shape0 (X ts) = (length (ids d) - k)%nat.
Proof.
  intros Hd Hwidth HY HM Hout Hkeep k. revert Hout.
  unfold _compute_sliding_window. rewrite Hd.
  destruct (sliding_collect w d) as [[st rows]|e] eqn:Hc; [|discriminate].
  apply sliding_collect_rows in Hc as ->. cbn [snd].
  destruct (acc_columns st) as [|c cs]; [discriminate|].
  unfold sliding_rows. subst k.
  destruct (Z.eqb_spec (keep_instances w) DiscardOriginal) as [|_]; [done|].
  destruct (table_with_originals _ _ _) as [ts'|e] eqn:Ht; [|discriminate].
  rewrite bind_Ok. intros [= ->].
  apply table_with_originals_parts in Ht
    as (Hy & Hm & _ & Hids & Hcv & Hmt & _ & Hn).
  destruct (keep_instances w =? KeepComplete).
  - rewrite array_getitem_from in Hy, Hm by (done || lia).
    rewrite np_getitem_from in Hids by lia.
    rewrite <- Hn.
    injection Hy as <-. injection Hm as <-. injection Hids as <-.
    rewrite length_drop. by repeat split.
  - rewrite array_getitem_all in Hy, Hm by done.
    rewrite np_getitem_all in Hids.
    rewrite <- Hn.
    injection Hy as <-. injection Hm as <-. injection Hids as <-.
    rewrite Nat.sub_0_r, drop_0.
    assert (H0 : forall l : list (list val), drop 0 <$> l = l).
    { intros l. rewrite <- (list_fmap_id l) at 2. by apply list_fmap_ext. }
    by rewrite !H0.
Qed.


Lemma table_of_aggregates_parts st attrs ts :
  table_of_aggregates st attrs = Ok ts ->
  class_vars (domain ts) = [] /\ metas (domain ts) = []
  /\ columns_of (Y ts) = [] /\ columns_of (metas_of ts) = []
  /\ table_attributes ts = attrs
  /\ ids ts = new_ids (shape0 (X ts)).
Proof.
  unfold table_of_aggregates.
  destruct (np_vstack_T _) as [x|e]; [|discriminate]. rewrite bind_Ok.
  unfold from_numpy.
  destruct (negb _); [discriminate|]. destruct (negb _); [discriminate|].
  by intros [= <-].
Qed.

(** X3. A table of aggregates alone (the sliding window and the
    sequential blocks when the original data are discarded, and the time
    periods always) has no class variables and no metas, and its rows have
    new identifiers.  The sliding window passes the attributes of the
    input table on; the blocks and the periods do not. *)
Theorem aggregates_only_table w d :
  data w = Some d ->
  (forall ts,
     keep_instances w = DiscardOriginal ->
     snd (_compute_sliding_window w) = Ok (Some ts) ->
     class_vars (domain ts) = [] /\ metas (domain ts) = []
     /\ ids ts = new_ids (shape0 (X ts))
     /\ table_attributes ts = table_attributes d)
  /\ (forall ts,
        ref_instance w = DiscardOriginal ->
        snd (_compute_sequential_blocks w) = Ok (Some ts) ->
        class_vars (domain ts) = [] /\ metas (domain ts) = []
        /\ ids ts = new_ids (shape0 (X ts))
        /\ table_attributes ts = [])
  /\ (forall ts,
        snd (_compute_period_aggregation w) = Ok (Some ts) ->
        class_vars (domain ts) = [] /\ metas (domain ts) = []
        /\ ids ts = new_ids (shape0 (X ts))
        /\ table_attributes ts = []).
Proof.
  intros Hd. split_and!; intros ts.
  - intros Hk. unfold _compute_sliding_window. rewrite Hd, Hk.
    destruct (sliding_collect w d) as [[st rows]|e]; [|discriminate].
    cbn [snd]. destruct (acc_columns st); [discriminate|].
    change (DiscardOriginal =? DiscardOriginal) with true. cbn iota.
    destruct (table_of_aggregates _ _) as [ts'|e] eqn:Ht; [|discriminate].
    rewrite bind_Ok. intros [= ->].
    apply table_of_aggregates_parts in Ht as (? & ? & _ & _ & ? & ?).
    by repeat split.
  - intros Hk. unfold _compute_sequential_blocks. rewrite Hd, Hk.
    destruct (len d <? block_width w); [discriminate|].
    destruct (blocks_collect w d) as [[st rows]|e]; [|discriminate].
    cbn [snd]. destruct (acc_columns st); [discriminate|].
    change (DiscardOriginal =? DiscardOriginal) with true. cbn iota.
    destruct (table_of_aggregates _ _) as [ts'|e] eqn:Ht; [|discriminate].
    rewrite bind_Ok. intros [= ->].
    apply table_of_aggregates_parts in Ht as (? & ? & _ & _ & ? & ?).
    by repeat split.
  - unfold _compute_period_aggregation. rewrite Hd.
    destruct (period_collect w d) as [st|e]; [|discriminate].
    cbn [snd]. destruct (acc_columns st); [discriminate|].
    destruct (table_of_aggregates _ _) as [ts'|e] eqn:Ht; [|discriminate].
    rewrite bind_Ok. intros [= ->].
    apply table_of_aggregates_parts in Ht as (? & ? & _ & _ & ? & ?).
    by repeat split.
Qed.

Lemma blocks_collect_rows w d st rows :
  blocks_collect w d = Ok (st, rows) -> blocks_rows w = Ok rows.
Proof.
  unfold blocks_collect.
  destruct (_names_for_blocked_aggregation w d) as [nms|e]; [|discriminate].
  rewrite bind_Ok.
  destruct (blocks_rows w) as [rows'|e]; [|discriminate]. rewrite bind_Ok.
  destruct (for_each _ _ _) as [st1|e]; [|discriminate]. rewrite bind_Ok.
  destruct (for_each _ _ _) as [st2|e]; [|discriminate]. rewrite bind_Ok.
  by intros [= _ <-].
Qed.

Lemma segment_rows_in_range width offset n :
  0 < width -> 0 <= offset < width ->
  Forall (fun p => (p < n)%nat) (segment_rows width offset n).
Proof.
  intros Hw Ho. unfold segment_rows. apply Forall_fmap, Forall_forall.
  intros k [Hk0 Hk]%elem_of_seqZ. cbn.
  assert (0 <= Z.of_nat n / width) by (apply Z.div_pos; lia).
  assert (width * (Z.of_nat n / width) <= Z.of_nat n)
    by (apply Z.mul_div_le; lia).
  nia.
Qed.

Lemma length_take_positions {A} (l : list A) ps :
  Forall (fun p => (p < length l)%nat) ps ->
  length (take_positions l ps) = length ps.
Proof.
  unfold take_positions. induction 1 as [|p ps Hp _ IH]; [reflexivity|].
  cbn [omap list_omap]. apply lookup_lt_is_Some in Hp as [x ->].
  cbn. by rewrite IH.
Qed.

Lemma length_segment_rows width offset n :
  0 < width -> Z.of_nat (length (segment_rows width offset n)) = Z.of_nat n / width.
Proof.
  intros Hw. unfold segment_rows. rewrite length_fmap, length_seqZ.
  assert (0 <= Z.of_nat n / width) by (apply Z.div_pos; lia). lia.
Qed.

(** X4. When the sequential blocks keep a reference instance and return a
    table, with a block width of at least 2 (at least 3 for the middle
    instance), the identifiers, class values and metas of the table are
    those of the reference row of every complete block: the row at the
    reference offset in the block.  The table has the class variables and
    metas of the input, and as many rows as there are complete blocks. *)
Theorem sequential_blocks_original_rows w d ts :
  data w = Some d -> 2 <= block_width w ->
  ref_instance w = KeepFirst \/ ref_instance w = KeepLast
  \/ (ref_instance w = KeepMiddle /\ 3 <= block_width w) ->
  snd (_compute_sequential_blocks w) = Ok (Some ts) ->
  let kept := segment_rows (block_width w) (reference_offset w) in
  ids ts = take_positions (ids d) (kept (length (ids d)))
  /\ columns_of (Y ts)
     = (fun c => take_positions c (kept (shape0 (Y d)))) <$> columns_of (Y d)
  /\ columns_of (metas_of ts)
     = (fun c => take_positions c (kept (shape0 (metas_of d))))
         <$> columns_of (metas_of d)
  /\ class_vars (domain ts) = class_vars (domain d)
  /\ metas (domain ts) = metas (domain d)
  /\ Z.of_nat (shape0 (X ts)) = Z.of_nat (length (ids d)) / block_width w.
Proof.
  intros Hd Hwidth Href Hout kept. revert Hout.
  unfold _compute_sequential_blocks. rewrite Hd.
  destruct (len d <? block_width w); [discriminate|].
  destruct (blocks_collect w d) as [[st rows]|e] eqn:Hc; [|discriminate].
  apply blocks_collect_rows in Hc. cbn [snd].
  destruct (acc_columns st) as [|c cs]; [discriminate|].
  destruct (Z.eqb_spec (ref_instance w) DiscardOriginal) as [Hz|_].
  { rewrite Hz in Href. by destruct Href as [|[|[]]]. }
  destruct (table_with_originals _ _ _) as [ts'|e] eqn:Ht; [|discriminate].
  rewrite bind_Ok. intros [= ->].
  apply table_with_originals_parts in Ht
    as (Hy & Hm & _ & Hids & Hcv & Hmt & _ & Hn).
  assert (Hpos : forall n, rows_positions rows n = Ok (kept n)).
  { intros n. unfold kept. rewrite <- (reference_rows w n Hwidth Href).
    unfold retained_rows. by rewrite Hc. }
  unfold array_getitem in Hy, Hm. unfold np_getitem in Hids.
  rewrite Hpos in Hy, Hm, Hids.
  rewrite bind_Ok in Hy. rewrite bind_Ok in Hm. rewrite bind_Ok in Hids.
  rewrite <- Hn.
  injection Hy as <-. injection Hm as <-. injection Hids as <-.
  repeat split; try done.
  assert (Hoff : 0 <= reference_offset w < block_width w).
  { unfold reference_offset.
    assert (0 <= block_width w / 2 < block_width w)
      by (split; [apply Z.div_pos | apply Z.div_lt]; lia).
    destruct (_ =? _); [lia|]. destruct (_ =? _); lia. }
  rewrite length_take_positions
    by (apply segment_rows_in_range; [lia | exact Hoff]).
  apply length_segment_rows. lia.
Qed.



Lemma set_data_loop (hints : list (string * bool * gset string)) vs rest pre :
  for_each (imap (fun i attr => ((length pre + i)%nat, attr)) rest)
    (fun m '(i, attr) =>
       match hint_for hints (_varkey attr) with
       | Some transformations =>
           if decide (transformations = ∅) then Ok m
           else set_transformations m i transformations
       | None => Ok m
       end)
    (mkModel vs (pre ++ ((fun _ => ∅) <$> rest)))
  = Ok (mkModel vs
          (pre ++ ((fun v => default ∅ (hint_for hints (_varkey v))) <$> rest))).
Proof.
  revert pre. induction rest as [|v rest IH]; intros pre; [reflexivity|].
  rewrite imap_cons, for_each_cons.
  assert (Hstep :
    match hint_for hints (_varkey v) with
    | Some transformations =>
        if decide (transformations = ∅)
        then Ok (mkModel vs (pre ++ ((fun _ => ∅) <$> v :: rest)))
        else set_transformations
               (mkModel vs (pre ++ ((fun _ => ∅) <$> v :: rest)))
               (length pre + 0) transformations
    | None => Ok (mkModel vs (pre ++ ((fun _ => ∅) <$> v :: rest)))
    end
    = Ok (mkModel vs
            ((pre ++ [default ∅ (hint_for hints (_varkey v))])
             ++ ((fun _ => ∅) <$> rest)))).
  { rewrite <- app_assoc. cbn [app fmap list_fmap].
    destruct (hint_for hints (_varkey v)) as [ts|]; [|reflexivity].
    destruct (decide (ts = ∅)) as [->|Hne]; [reflexivity|].
    unfold set_transformations. cbn [_transformations model_vars].
    destruct (Nat.ltb_spec (length pre + 0)
                (length (pre ++ ∅ :: ((fun _ => ∅) <$> rest)))) as [_|Hge].
    - by rewrite insert_app_r.
    - rewrite length_app in Hge. cbn in Hge. lia. }
  rewrite Hstep, bind_Ok.
  rewrite (imap_ext _
             (fun i attr =>
                ((length (pre ++ [default ∅ (hint_for hints (_varkey v))]) + i)%nat,
                 attr)) rest).
  - rewrite IH, <- app_assoc. reflexivity.
  - intros i x _. cbn. f_equal. rewrite length_app. cbn. lia.
Qed.

(** [set_data] restores the hints. *)
(** [set_data] with a table succeeds, offers [offered_variables] and gives
    every variable the set that the hints hold for it, or the empty set. *)
Lemma set_data_spec w d :
  exists w',
    set_data w (Some d) = Ok w'
    /\ data w' = Some d
    /\ model_vars (var_model w') = offered_variables d
    /\ _transformations (var_model w')
       = (fun v => default ∅ (hint_for (var_hints w) (_varkey v)))
           <$> offered_variables d
    /\ var_hints w' = var_hints w.
Proof.
  unfold set_data.
  pose proof (set_data_loop (var_hints w) (offered_variables d)
                (offered_variables d) []) as Hloop.
  cbn [app length Nat.add] in Hloop. unfold set_variables.
  cbn [model_vars]. rewrite Hloop, bind_Ok.
  eexists. split; [reflexivity|]. by cbn.
Qed.

(** X6. [set_data] with a table, up to the refresh of the controls and
    the final [commit], never fails.  It keeps the table, offers
    the discrete variables and the continuous ones other than the time
    variable, and leaves a well-formed model in which the transformations
    of every offered variable are those that [var_hints] holds under the
    key of the variable (none when there is no hint); the hints themselves
    are not changed. *)
Theorem set_data_restores_hints w d :
  exists w',
    set_data w (Some d) = Ok w'
    /\ data w' = Some d
    /\ model_vars (var_model w') = offered_variables d
    /\ model_wf (var_model w')
    /\ (forall i v,
          offered_variables d !! i = Some v ->
          get_transformations (var_model w') i
          = Ok (filter (fun trans =>
                          trans ∈ default ∅ (hint_for (var_hints w) (_varkey v)))
                  (dict_keys AggOptions)))
    /\ var_hints w' = var_hints w.
Proof.
  destruct (set_data_spec w d) as (w' & Hset & Hd & Hv & Hts & Hh).
  exists w'. split_and!; [exact Hset | exact Hd | exact Hv | | | exact Hh].
  - unfold model_wf. by rewrite Hts, Hv, length_fmap.
  - intros i v Hi. apply get_transformations_lookup.
    by rewrite Hts, list_lookup_fmap, Hi.
Qed.

Lemma set_transformation_loop rows (oper : gset string -> gset string) ts0 :
  (forall s, oper (oper s) = oper s) ->
  Forall (fun r => (r < length ts0)%nat) rows ->
  for_each rows
    (fun ts row =>
       match ts !! row with
       | Some s => Ok (<[row := oper s]> ts)
       | None => Raised IndexError
       end) ts0
  = Ok (imap (fun i s => if bool_decide (i ∈ rows) then oper s else s) ts0).
Proof.
  intros Hidem. revert ts0. induction rows as [|r rows IH]; intros ts0 Hrows.
  - cbn [for_each]. f_equal. apply list_eq. intros i.
    rewrite list_lookup_imap. destruct (ts0 !! i); [|reflexivity]. cbn.
    by rewrite bool_decide_eq_false_2 by apply not_elem_of_nil.
  - apply Forall_cons in Hrows as [Hr Hrows]. rewrite for_each_cons.
    destruct (lookup_lt_is_Some_2 ts0 r Hr) as [s Hs]. rewrite Hs, bind_Ok.
    rewrite IH by (by rewrite length_insert). f_equal.
    apply list_eq. intros i. rewrite !list_lookup_imap.
    destruct (decide (r = i)) as [<-|Hne].
    + rewrite list_lookup_insert_eq, Hs by exact Hr. cbn.
      rewrite (bool_decide_eq_true_2 (r ∈ r :: rows)) by left.
      by destruct (bool_decide (r ∈ rows)); rewrite ?Hidem.
    + rewrite list_lookup_insert_ne by exact Hne.
      destruct (ts0 !! i); [|reflexivity]. cbn. f_equal.
      rewrite (bool_decide_ext (i ∈ r :: rows) (i ∈ rows)); [reflexivity|].
      rewrite elem_of_cons. naive_solver.
Qed.

(** [set_transformation] on rows of the model adds the transformation to
    the sets of these rows, or removes it from them. *)
Lemma set_transformation_spec m rows transformation state :
  rows <> [] ->
  Forall (fun r => (r < length (_transformations m))%nat) rows ->
  exists m',
    set_transformation m rows transformation state = Ok m'
    /\ model_vars m' = model_vars m
    /\ length (_transformations m') = length (_transformations m)
    /\ (forall i s,
          _transformations m !! i = Some s ->
          _transformations m' !! i
          = Some (if bool_decide (i ∈ rows)
                  then (if state then s ∪ {[transformation]}
                        else s ∖ {[transformation]})
                  else s)).
Proof.
  intros Hne Hrows. unfold set_transformation.
  rewrite (set_transformation_loop rows
             (fun s => if state then s ∪ {[transformation]}
                       else s ∖ {[transformation]}))
    by (done || intros s; destruct state; set_solver).
  rewrite bind_Ok. destruct rows as [|r rows]; [done|].
  eexists. split; [reflexivity|]. cbn [model_vars _transformations].
  split_and!; [reflexivity | apply length_imap |].
  intros i s Hs. by rewrite list_lookup_imap, Hs.
Qed.

(** X7. [set_transformation] on a non-empty list of rows of the model
    succeeds and keeps the variables.  Afterwards a row that is not listed
    has the transformations it had; a listed row has the others it had, and
    has [transformation] exactly when the box was checked and
    [transformation] is a key of [AggOptions].  A row listed twice is
    changed as if listed once. *)
Theorem set_transformation_rows m rows transformation state :
  rows <> [] ->
  Forall (fun r => (r < length (_transformations m))%nat) rows ->
  exists m',
    set_transformation m rows transformation state = Ok m'
    /\ model_vars m' = model_vars m
    /\ (forall i, i ∉ rows ->
        get_transformations m' i = get_transformations m i)
    /\ (forall i ts ts',
          i ∈ rows -> get_transformations m i = Ok ts ->
          get_transformations m' i = Ok ts' ->
          forall trans,
            trans ∈ ts'
            <-> (trans <> transformation /\ trans ∈ ts)
                \/ (trans = transformation /\ state = true
                    /\ transformation ∈ dict_keys AggOptions)).
Proof.
  intros Hne Hrows.
  destruct (set_transformation_spec m rows transformation state Hne Hrows)
    as (m' & Hset & Hv & Hlen & Hlook).
  exists m'. split_and!; [exact Hset | exact Hv | |].
  - intros i Hi. unfold get_transformations.
    destruct (_transformations m !! i) as [s|] eqn:Hs.
    + rewrite (Hlook i s Hs). by rewrite bool_decide_eq_false_2.
    + apply lookup_ge_None in Hs. rewrite <- Hlen in Hs.
      apply lookup_ge_None in Hs. by rewrite Hs.
  - intros i ts ts' Hi. unfold get_transformations.
    destruct (_transformations m !! i) as [s|] eqn:Hs; [|discriminate].
    rewrite (Hlook i s Hs), bool_decide_eq_true_2 by exact Hi.
    intros [= <-] [= <-] trans. rewrite !list_elem_of_filter.
    destruct state;
      [rewrite elem_of_union | rewrite elem_of_difference];
      rewrite elem_of_singleton;
      destruct (decide (trans = transformation)) as [->|Hneq];
      intuition congruence.
Qed.

Lemma hint_for_nil key : hint_for [] key = None.
Proof. reflexivity. Qed.

Lemma hint_for_cons k v hints key :
  hint_for ((k, v) :: hints) key
  = if decide (k = key) then Some v else hint_for hints key.
Proof.
  unfold hint_for. cbn [list_find fst].
  destruct (decide (k = key)); [reflexivity|].
  by destruct (list_find _ hints) as [[i [k' v']]|].
Qed.

Lemma hint_for_None hints key :
  key ∉ hints.*1 -> hint_for hints key = None.
Proof.
  induction hints as [|[k v] hints IH]; intros Hk; [reflexivity|].
  rewrite hint_for_cons. cbn in Hk. apply not_elem_of_cons in Hk as [Hne Hk].
  destruct (decide (k = key)); [congruence | by apply IH].
Qed.

Lemma hint_for_app hints k v key :
  hint_for (hints ++ [(k, v)]) key
  = match hint_for hints key with
    | Some x => Some x
    | None => if decide (k = key) then Some v else None
    end.
Proof.
  induction hints as [|[k0 v0] hints IH].
  - cbn [app]. rewrite hint_for_cons. reflexivity.
  - cbn [app]. rewrite !hint_for_cons. by destruct (decide (k0 = key)).
Qed.

Lemma hint_for_setitem hints k v key :
  hint_for (hints_setitem hints k v) key
  = if decide (key = k) then Some v else hint_for hints key.
Proof.
  unfold hints_setitem. destruct (bool_decide_reflect (k ∈ hints.*1)) as [Hin|Hout].
  - induction hints as [|[k0 v0] hints IH]; [by apply elem_of_nil in Hin|].
    cbn [fmap list_fmap fst]. destruct (decide (k0 = k)) as [->|Hne].
    + rewrite !hint_for_cons.
      destruct (decide (k = key)) as [->|Hk]; [by rewrite decide_True|].
      rewrite decide_False by congruence.
      destruct (decide (k ∈ hints.*1)) as [Hin'|Hout'].
      * rewrite IH by exact Hin'. by rewrite decide_False by congruence.
      * clear IH Hin. induction hints as [|[k1 v1] hints IH]; [reflexivity|].
        cbn in Hout'. apply not_elem_of_cons in Hout' as [Hne1 Hout'].
        cbn [fmap list_fmap fst]. rewrite decide_False by congruence.
        rewrite !hint_for_cons.
        destruct (decide (k1 = key)); [reflexivity | by apply IH].
    + cbn in Hin. apply elem_of_cons in Hin as [Heq|Hin]; [congruence|].
      rewrite !hint_for_cons, IH by exact Hin.
      destruct (decide (k0 = key)) as [<-|Hk]; [|reflexivity].
      by rewrite decide_False.
  - rewrite hint_for_app.
    destruct (decide (key = k)) as [->|Hne].
    + rewrite hint_for_None by exact Hout. by rewrite decide_True.
    + destruct (hint_for hints key); [reflexivity|].
      by rewrite decide_False by congruence.
Qed.

Lemma hint_for_delitem hints k key :
  hint_for (hints_delitem hints k) key
  = if decide (key = k) then None else hint_for hints key.
Proof.
  unfold hints_delitem. induction hints as [|[k0 v0] hints IH].
  - by destruct (decide (key = k)).
  - rewrite filter_cons. cbn [fst]. destruct (decide (k0 <> k)) as [Hne|Heq].
    + rewrite !hint_for_cons, IH.
      destruct (decide (k0 = key)) as [<-|]; [by rewrite decide_False|].
      reflexivity.
    + apply dec_stable in Heq as ->. rewrite IH, hint_for_cons.
      destruct (decide (key = k)) as [->|Hne]; [reflexivity|].
      by rewrite decide_False by congruence.
Qed.

Lemma model_getitem_lookup m row v :
  model_vars m !! row = Some v -> model_getitem m row = Ok v.
Proof. unfold model_getitem. by intros ->. Qed.

Lemma checkbox_hints_loop m sel hints0 :
  NoDup (_varkey <$> model_vars m) ->
  Forall (fun r => (r < length (model_vars m))%nat
                   /\ (r < length (_transformations m))%nat) sel ->
  exists hints,
    for_each sel
      (fun hints row =>
         var ← model_getitem m row;
         let key := _varkey var in
         transfs ← get_transformations m row;
         Ok (match transfs with
             | [] =>
                 if bool_decide (key ∈ hints.*1)
                 then hints_delitem hints key else hints
             | _ => hints_setitem hints key (list_to_set transfs)
             end)) hints0
    = Ok hints
    /\ (forall r v, r ∈ sel -> model_vars m !! r = Some v ->
        hint_for hints (_varkey v) = remembered m r)
    /\ (forall key,
          (forall r v, r ∈ sel -> model_vars m !! r = Some v ->
             _varkey v <> key) ->
          hint_for hints key = hint_for hints0 key).
Proof.
  intros Hnd. revert hints0.
  induction sel as [|r sel IH]; intros hints0 Hsel.
  - exists hints0. split; [reflexivity|]. split; [|done].
    intros r v Hr. by apply elem_of_nil in Hr.
  - apply Forall_cons in Hsel as [[Hrv Hrs] Hsel].
    destruct (lookup_lt_is_Some_2 _ _ Hrv) as [v Hv].
    destruct (lookup_lt_is_Some_2 _ _ Hrs) as [s Hs].
    pose (hints1 :=
      match filter (fun trans => trans ∈ s) (dict_keys AggOptions) with
      | [] =>
          if bool_decide (_varkey v ∈ hints0.*1)
          then hints_delitem hints0 (_varkey v) else hints0
      | t :: ts => hints_setitem hints0 (_varkey v) (list_to_set (t :: ts))
      end).
    assert (Hbody :
      (var ← model_getitem m r;
       let key := _varkey var in
       transfs ← get_transformations m r;
       Ok (match transfs with
           | [] =>
               if bool_decide (key ∈ hints0.*1)
               then hints_delitem hints0 key else hints0
           | _ => hints_setitem hints0 key (list_to_set transfs)
           end))
      = Ok hints1).
    { rewrite (model_getitem_lookup m r v Hv), bind_Ok. cbn zeta.
      rewrite (get_transformations_lookup m r s Hs), bind_Ok.
      subst hints1. by destruct (filter _ _). }
    assert (Hrem : remembered m r
                   = match filter (fun trans => trans ∈ s) (dict_keys AggOptions) with
                     | [] => None
                     | t :: ts => Some (list_to_set (t :: ts))
                     end).
    { unfold remembered. by rewrite (get_transformations_lookup m r s Hs). }
    assert (Hstep : forall key,
      hint_for hints1 key
      = if decide (key = _varkey v) then remembered m r
        else hint_for hints0 key).
    { intros key. subst hints1. rewrite Hrem.
      destruct (filter _ _) as [|t ts].
      - destruct (bool_decide_reflect (_varkey v ∈ hints0.*1)) as [Hin|Hout].
        + apply hint_for_delitem.
        + destruct (decide (key = _varkey v)) as [->|]; [|reflexivity].
          by apply hint_for_None.
      - apply hint_for_setitem. }
    destruct (IH hints1 Hsel) as (hints & Hloop & Hin & Hout).
    exists hints. split.
    { etrans; [|exact Hloop].
      exact (f_equal (fun x => x ≫= for_each sel _) Hbody). }
    split.
    + intros r' v' Hr' Hv'. apply elem_of_cons in Hr' as [->|Hr'].
      * rewrite Hv in Hv'. injection Hv' as <-.
        destruct (decide (r ∈ sel)) as [Hrsel|Hrsel]; [by eapply Hin|].
        rewrite Hout, Hstep; [by rewrite decide_True|].
        intros r2 v2 Hr2 Hv2 Heq. apply Hrsel.
        assert (r2 = r) as <-; [|exact Hr2].
        apply (NoDup_lookup _ r2 r (_varkey v) Hnd).
        -- by rewrite list_lookup_fmap, Hv2, <- Heq.
        -- by rewrite list_lookup_fmap, Hv.
      * by eapply Hin.
    + intros key Hkey. rewrite Hout, Hstep.
      * rewrite decide_False; [reflexivity|].
        intros ->. apply (Hkey r v); [left | exact Hv | reflexivity].
      * intros r2 v2 Hr2. apply Hkey. by right.
Qed.

(** [_checkbox_changed] records the transformations of the selected rows in
    the hints. *)
(** [_checkbox_changed] changes the model as [set_transformation] does,
    and records the transformations of the selected rows in the hints. *)
Lemma checkbox_changed_spec w state transformation sel :
  model_wf (var_model w) ->
  NoDup (_varkey <$> model_vars (var_model w)) ->
  sel <> [] ->
  Forall (fun r => (r < length (model_vars (var_model w)))%nat) sel ->
  exists w',
    _checkbox_changed w state transformation sel = Ok w'
    /\ set_transformation (var_model w) sel transformation state
       = Ok (var_model w')
    /\ (forall r v, r ∈ sel -> model_vars (var_model w) !! r = Some v ->
        hint_for (var_hints w') (_varkey v) = remembered (var_model w') r)
    /\ (forall key,
          (forall r v, r ∈ sel -> model_vars (var_model w) !! r = Some v ->
             _varkey v <> key) ->
          hint_for (var_hints w') key = hint_for (var_hints w) key).
Proof.
  intros Hwf Hnd Hne Hsel.
  assert (Hsel' : Forall (fun r => (r < length (_transformations (var_model w)))%nat) sel).
  { unfold model_wf in Hwf. by rewrite Hwf. }
  destruct (set_transformation_spec (var_model w) sel transformation state
              Hne Hsel') as (m' & Hset & Hvars & Hlen & _).
  destruct (checkbox_hints_loop m' sel (var_hints w)) as (hints & Hloop & Hin & Hout).
  - by rewrite Hvars.
  - rewrite Hvars, Hlen. apply Forall_forall. intros r Hr.
    pose proof (proj1 (Forall_forall _ _) Hsel r Hr) as Hlt.
    unfold model_wf in Hwf. split; [exact Hlt | by rewrite Hwf].
  - exists (mkWidget (data w) m' (method w) (window_width w) (keep_instances w)
              (block_width w) (ref_instance w) (period_width w) (use_names w)
              hints (Warning w)).
    split.
    { unfold _checkbox_changed. rewrite Hset.
      exact (f_equal
               (fun x =>
                  x ≫= fun hints' =>
                         Ok (mkWidget (data w) m' (method w) (window_width w)
                               (keep_instances w) (block_width w)
                               (ref_instance w) (period_width w) (use_names w)
                               hints' (Warning w)))
               Hloop). }
    cbn [var_model var_hints]. rewrite <- Hvars. by split_and!.
Qed.

(** X8. With distinct keys (name and kind) of the variables of the model,
    [_checkbox_changed] on a non-empty selection of rows of the model
    succeeds.  Afterwards the hint under the key of every selected variable
    is the set of the transformations the variable now has, and there is
    no hint under this key when it has none; the hints under the keys of
    no selected variable are not changed. *)
Theorem checkbox_changed_hints w state transformation sel :
  model_wf (var_model w) ->
  NoDup (_varkey <$> model_vars (var_model w)) ->
  sel <> [] ->
  Forall (fun r => (r < length (model_vars (var_model w)))%nat) sel ->
  exists w',
    _checkbox_changed w state transformation sel = Ok w'
    /\ (forall r v, r ∈ sel -> model_vars (var_model w) !! r = Some v ->
        hint_for (var_hints w') (_varkey v)
        = match get_transformations (var_model w') r with
          | Ok (t :: ts) => Some (list_to_set (t :: ts))
          | _ => None
          end)
    /\ (forall key,
          (forall r v, r ∈ sel -> model_vars (var_model w) !! r = Some v ->
             _varkey v <> key) ->
          hint_for (var_hints w') key = hint_for (var_hints w) key).
Proof.
  intros Hwf Hnd Hne Hsel.
  destruct (checkbox_changed_spec w state transformation sel Hwf Hnd Hne Hsel)
    as (w' & Hcb & _ & Hin & Hout).
  exists w'. by split_and!.
Qed.

Lemma filter_ext_in {A} (P Q : A -> Prop) `{!forall x, Decision (P x)}
    `{!forall x, Decision (Q x)} (l : list A) :
  (forall x, x ∈ l -> P x <-> Q x) -> filter P l = filter Q l.
Proof.
  induction l as [|x l IH]; intros Hpq; [reflexivity|].
  rewrite !filter_cons. rewrite IH by (intros y Hy; apply Hpq; by right).
  destruct (decide (P x)) as [Hp|Hp], (decide (Q x)) as [Hq|Hq];
    try reflexivity; exfalso.
  - apply Hq, (Hpq x); [left | exact Hp].
  - apply Hp, (Hpq x); [left | exact Hq].
Qed.

Lemma remembered_selects m r s :
  _transformations m !! r = Some s ->
  filter (fun trans => trans ∈ default ∅ (remembered m r)) (dict_keys AggOptions)
  = filter (fun trans => trans ∈ s) (dict_keys AggOptions).
Proof.
  intros Hs. apply filter_ext_in. intros x Hx.
  unfold remembered, get_transformations. rewrite Hs.
  destruct (filter _ _) as [|t ts] eqn:Hf; cbn [default from_option id].
  - split; [by intros ?%not_elem_of_empty|]. intros Hxs.
    assert (x ∈ filter (fun trans => trans ∈ s) (dict_keys AggOptions))
      by (by apply list_elem_of_filter).
    rewrite Hf in H. by apply elem_of_nil in H.
  - rewrite <- Hf, elem_of_list_to_set, list_elem_of_filter. tauto.
Qed.

(** X9. The hints that [_checkbox_changed] records bring the selection
    back: when the model offers the variables of the table [d], under
    distinct keys, and the same table is then given to [set_data] again,
    [set_data] succeeds and every row that was selected has the
    transformations it had after the check box was changed. *)
Theorem hints_restore_selection w d state transformation sel w' :
  model_vars (var_model w) = offered_variables d ->
  model_wf (var_model w) ->
  NoDup (_varkey <$> model_vars (var_model w)) ->
  sel <> [] ->
  Forall (fun r => (r < length (model_vars (var_model w)))%nat) sel ->
  _checkbox_changed w state transformation sel = Ok w' ->
  exists w'',
    set_data w' (Some d) = Ok w''
    /\ model_vars (var_model w'') = model_vars (var_model w')
    /\ (forall r, r ∈ sel ->
        get_transformations (var_model w'') r
        = get_transformations (var_model w') r).
Proof.
  intros Hvars Hwf Hnd Hne Hsel Hcb.
  destruct (checkbox_changed_spec w state transformation sel Hwf Hnd Hne Hsel)
    as (w1 & Hcb1 & Hset & Hin & _).
  rewrite Hcb in Hcb1. injection Hcb1 as <-.
  assert (Hsel' : Forall (fun r => (r < length (_transformations (var_model w)))%nat) sel).
  { unfold model_wf in Hwf. by rewrite Hwf. }
  destruct (set_transformation_spec (var_model w) sel transformation state
              Hne Hsel') as (m' & Hset' & Hvars' & Hlen' & _).
  rewrite Hset in Hset'. injection Hset' as <-.
  destruct (set_data_spec w' d) as (w'' & -> & _ & Hv'' & Hts'' & _).
  exists w''. split; [reflexivity|]. split; [congruence|].
  intros r Hr.
  assert (Hrv : (r < length (model_vars (var_model w)))%nat).
  { by apply (proj1 (Forall_forall _ _) Hsel). }
  destruct (lookup_lt_is_Some_2 _ _ Hrv) as [v Hv].
  assert (Hrs : (r < length (_transformations (var_model w')))%nat).
  { unfold model_wf in Hwf. lia. }
  destruct (lookup_lt_is_Some_2 _ _ Hrs) as [s Hs].
  assert (Hs'' : _transformations (var_model w'') !! r
                 = Some (default ∅ (remembered (var_model w') r))).
  { rewrite Hts'', list_lookup_fmap, <- Hvars, Hv.
    cbn [fmap option_fmap option_map]. by rewrite (Hin r v Hr Hv). }
  rewrite (get_transformations_lookup _ _ _ Hs''),
    (get_transformations_lookup _ _ _ Hs).
  f_equal. by apply remembered_selects.
Qed.

Lemma count_absent (Q : string -> Prop) `{!forall x, Decision (Q x)}
    (l : list string) y :
  y ∉ l -> Counter_getitem (filter Q l) y = 0%nat.
Proof.
  unfold Counter_getitem. induction l as [|z l IH]; intros Hy; [reflexivity|].
  apply not_elem_of_cons in Hy as [Hne Hy]. rewrite filter_cons.
  destruct (decide (Q z)) as [Hq|Hq]; [|exact (IH Hy)].
  rewrite filter_cons, decide_False by (intros Heq; by apply Hne).
  exact (IH Hy).
Qed.

Lemma count_in_selected (P : string -> Prop) `{!forall x, Decision (P x)}
    (l : list string) x :
  NoDup l -> x ∈ l ->
  Counter_getitem (filter P l) x = if decide (P x) then 1%nat else 0%nat.
Proof.
  intros Hnd. induction Hnd as [|y l Hy Hnd IH]; intros Hx.
  - by apply elem_of_nil in Hx.
  - rewrite filter_cons. apply elem_of_cons in Hx as [->|Hx].
    + pose proof (count_absent P l y Hy) as Habs.
      destruct (decide (P y)) as [Hp|Hp]; [|exact Habs].
      unfold Counter_getitem in *.
      rewrite filter_cons, decide_True by reflexivity. cbn [length].
      by rewrite Habs.
    + assert (Hne : y <> x) by (intros ->; contradiction).
      destruct (decide (P y)) as [Hp|Hp]; [|exact (IH Hx)].
      specialize (IH Hx). unfold Counter_getitem in *.
      rewrite filter_cons, decide_False by exact Hne. exact IH.
Qed.

Lemma count_zero (l : list string) x :
  x ∉ l <-> Counter_getitem l x = 0%nat.
Proof.
  unfold Counter_getitem. rewrite length_zero_iff_nil. split.
  - intros Hout.
    destruct (filter (fun y : string => y = x) l) as [|z k] eqn:Hf;
      [reflexivity|].
    exfalso.
    assert (Hz : z ∈ filter (fun y : string => y = x) l) by (rewrite Hf; left).
    apply list_elem_of_filter in Hz as [-> Hz]. contradiction.
  - intros Hf Hx.
    assert (Hx' : x ∈ filter (fun y : string => y = x) l)
      by (by apply list_elem_of_filter).
    rewrite Hf in Hx'. by apply elem_of_nil in Hx'.
Qed.

Lemma count_over_rows (sets : nat -> gset string) (sel : list nat) trans :
  trans ∈ dict_keys AggOptions ->
  Counter_getitem
    (concat ((fun r => filter (fun t => t ∈ sets r) (dict_keys AggOptions))
               <$> sel)) trans
  = length (filter (fun r => trans ∈ sets r) sel).
Proof.
  intros Hk. induction sel as [|r sel IH]; [reflexivity|].
  rewrite fmap_cons, filter_cons. cbn [concat].
  unfold Counter_getitem in *. rewrite filter_app, length_app, IH.
  pose proof (count_in_selected (fun t => t ∈ sets r) (dict_keys AggOptions)
                trans short_desc_NoDup Hk) as Hc.
  unfold Counter_getitem in Hc. rewrite Hc.
  by destruct (decide (trans ∈ sets r)).
Qed.

Lemma length_filter_all {A} (P : A -> Prop) `{!forall x, Decision (P x)} l :
  length (filter P l) = length l <-> Forall P l.
Proof.
  induction l as [|x l IH]; [by split|].
  rewrite filter_cons, Forall_cons.
  pose proof (length_filter P l) as Hle.
  destruct (decide (P x)); cbn [length].
  - rewrite <- IH. split; [intros; split; [done|lia] | intros [_ ?]; lia].
  - split; [lia | by intros [? _]].
Qed.

Lemma length_filter_none {A} (P : A -> Prop) `{!forall x, Decision (P x)} l :
  length (filter P l) = 0%nat <-> Forall (fun x => ~ P x) l.
Proof.
  induction l as [|x l IH]; [by split|].
  rewrite filter_cons, Forall_cons.
  destruct (decide (P x)); cbn [length].
  - split; [lia | by intros [? _]].
  - rewrite IH. tauto.
Qed.

Lemma any_discrete_spec m sel :
  Forall (fun r => (r < length (model_vars m))%nat) sel ->
  exists disc,
    py_any (fun row => is_discrete <$> model_getitem m row) sel = Ok disc
    /\ (disc = true
        <-> exists r v, r ∈ sel /\ model_vars m !! r = Some v
                        /\ is_discrete v = true).
Proof.
  induction 1 as [|r sel Hr _ (disc & IH & Hdisc)].
  - exists false. split; [reflexivity|]. split; [discriminate|].
    intros (r & v & Hin & _). by apply elem_of_nil in Hin.
  - destruct (lookup_lt_is_Some_2 _ _ Hr) as [v Hv].
    cbn [py_any]. rewrite (model_getitem_lookup m r v Hv).
    cbn [fmap result_fmap]. destruct (is_discrete v) eqn:Hdv.
    + exists true. split; [reflexivity|]. split; [|done]. intros _.
      exists r, v. split; [left | done].
    + exists disc. split; [exact IH|]. rewrite Hdisc. split.
      * intros (r' & v' & Hin & Hv' & Hd'). exists r', v'.
        split; [by right | done].
      * intros (r' & v' & Hin & Hv' & Hd').
        apply elem_of_cons in Hin as [->|Hin]; [congruence|].
        by exists r', v'.
Qed.

(** X10. [_selection_changed] on rows of a well-formed model succeeds
    and sets one check box per aggregation, in the order of [AggOptions].
    The box of an aggregation is checked exactly when some row is selected
    and every selected row has the aggregation, unchecked exactly when no
    selected row has it, and partially checked otherwise.  It is disabled
    exactly when no row is selected, or a selected variable is discrete and
    the aggregation does not support discrete variables. *)
Theorem selection_changed_states w sel :
  model_wf (var_model w) ->
  Forall (fun r => (r < length (model_vars (var_model w)))%nat) sel ->
  exists boxes,
    _selection_changed w sel = Ok boxes
    /\ boxes.*1.*1 = dict_keys AggOptions
    /\ (forall trans state disabled,
          (trans, state, disabled) ∈ boxes ->
          (state = Checked
           <-> sel <> []
               /\ forall r s, r ∈ sel ->
                    _transformations (var_model w) !! r = Some s -> trans ∈ s)
          /\ (state = Unchecked
              <-> forall r s, r ∈ sel ->
                    _transformations (var_model w) !! r = Some s -> trans ∉ s)
          /\ (forall desc,
                dict_getitem AggOptions trans = Ok desc ->
                (disabled = true
                 <-> sel = []
                     \/ ((exists r v, r ∈ sel
                            /\ model_vars (var_model w) !! r = Some v
                            /\ is_discrete v = true)
                         /\ supports_discrete desc = false)))).
Proof.
  intros Hwf Hsel.
  set (m := var_model w).
  set (sets := fun r => default ∅ (_transformations m !! r)).
  assert (Hrows : forall r, r ∈ sel -> _transformations m !! r = Some (sets r)).
  { intros r Hr. apply (proj1 (Forall_forall _ _) Hsel) in Hr.
    unfold model_wf in Hwf. fold m in Hwf, Hr. rewrite <- Hwf in Hr.
    destruct (lookup_lt_is_Some_2 _ _ Hr) as [s Hs]. unfold sets.
    by rewrite Hs. }
  assert (Hmap :
    mapM (get_transformations m) sel
    = Ok ((fun r => filter (fun t => t ∈ sets r) (dict_keys AggOptions))
            <$> sel)).
  { apply mapM_ok. intros r Hr. apply get_transformations_lookup, Hrows, Hr. }
  destruct (any_discrete_spec m sel Hsel) as (disc & Hany & Hdisc).
  pose (counts :=
    concat ((fun r => filter (fun t => t ∈ sets r) (dict_keys AggOptions))
              <$> sel)).
  pose (box := fun p : string * AggDesc =>
    (p.1,
     if bool_decide (p.1 ∉ counts) then Unchecked
     else if (Counter_getitem counts p.1 <? length sel)%nat
          then PartiallyChecked
          else Checked,
     (length sel =? 0)%nat || disc && negb (supports_discrete p.2))).
  exists (box <$> AggOptions). split.
  { unfold _selection_changed. fold m. rewrite Hmap, Hany.
    cbn [mbind result_bind].
    first [ reflexivity
          | f_equal; apply list_fmap_ext; by intros i [trans desc] _ ]. }
  split.
  { rewrite <- !list_fmap_compose. apply list_fmap_ext. by intros i [trans desc]. }
  intros trans state disabled Hbox.
  apply list_elem_of_fmap in Hbox as ([trans' desc] & Heq & Hin).
  unfold box in Heq. cbn [fst snd] in Heq. injection Heq as -> -> ->.
  assert (Hk : trans' ∈ dict_keys AggOptions).
  { apply list_elem_of_fmap. by exists (trans', desc). }
  set (n := length (filter (fun r => trans' ∈ sets r) sel)).
  assert (Hcount : Counter_getitem counts trans' = n)
    by exact (count_over_rows sets sel trans' Hk).
  assert (Hnotin : trans' ∉ counts <-> n = 0%nat).
  { rewrite <- Hcount. apply count_zero. }
  assert (Hle : (n <= length sel)%nat) by apply length_filter.
  assert (Hall : n = length sel
                 <-> forall r s, r ∈ sel -> _transformations m !! r = Some s ->
                       trans' ∈ s).
  { unfold n. rewrite length_filter_all, Forall_forall. split.
    - intros H r s Hr Hs. specialize (H r Hr). rewrite (Hrows r Hr) in Hs.
      by injection Hs as <-.
    - intros H r Hr. by apply (H r), Hrows. }
  assert (Hnone : n = 0%nat
                  <-> forall r s, r ∈ sel -> _transformations m !! r = Some s ->
                        trans' ∉ s).
  { unfold n. rewrite length_filter_none, Forall_forall. split.
    - intros H r s Hr Hs. specialize (H r Hr). rewrite (Hrows r Hr) in Hs.
      by injection Hs as <-.
    - intros H r Hr. by apply (H r), Hrows. }
  rewrite Hcount. clearbody n counts. split_and!.
  - destruct (bool_decide_reflect (trans' ∉ counts)) as [Hout|Hin'].
    + apply Hnotin in Hout. split; [discriminate|]. intros [Hne Hrs].
      apply Hall in Hrs. destruct sel; [done|]. cbn in Hrs. lia.
    + assert (n <> 0%nat) by (intros H0; by apply Hin', Hnotin).
      destruct (Nat.ltb_spec n (length sel)).
      * split; [discriminate|]. intros [_ Hrs]. apply Hall in Hrs. lia.
      * split; [|done]. intros _. split; [|apply Hall; lia].
        intros ->. cbn in Hle. lia.
  - destruct (bool_decide_reflect (trans' ∉ counts)) as [Hout|Hin'].
    + apply Hnotin in Hout. split; [|done]. intros _. by apply Hnone.
    + assert (n <> 0%nat) by (intros H0; by apply Hin', Hnotin).
      destruct (Nat.ltb_spec n (length sel));
        (split; [discriminate|]; intros Hno; by apply Hnone in Hno).
  - intros desc' Hdesc.
    assert (desc' = desc) as ->.
    { unfold AggOptions in Hin.
      apply list_elem_of_fmap in Hin as (a & [= -> ->] & Ha).
      rewrite (AggOptions_lookup a Ha) in Hdesc. by injection Hdesc. }
    rewrite orb_true_iff, andb_true_iff, negb_true_iff, Nat.eqb_eq, Hdisc.
    rewrite length_zero_iff_nil. reflexivity.
Qed.

Lemma report_kept_loop aggs kept0 :
  aggs ⊆ descriptors ->
  for_each (short_desc <$> aggs)
    (fun kept t =>
       agg ← dict_getitem AggOptions t;
       Ok (if has_block_transform agg then kept ++ [t] else kept))
    kept0
  = Ok (kept0 ++ (short_desc <$> applicable aggs)).
Proof.
  revert kept0. induction aggs as [|a aggs IH]; intros kept0 Hsub.
  - cbn. by rewrite app_nil_r.
  - assert (Hsub' : aggs ⊆ descriptors) by (intros x Hx; apply Hsub; by right).
    assert (Ha : a ∈ descriptors) by (apply Hsub; left).
    rewrite fmap_cons.
    transitivity
      (for_each (short_desc <$> aggs)
         (fun kept t =>
            agg ← dict_getitem AggOptions t;
            Ok (if has_block_transform agg then kept ++ [t] else kept))
         (if has_block_transform a then kept0 ++ [short_desc a] else kept0)).
    { cbn [for_each]. by rewrite (AggOptions_lookup a Ha). }
    rewrite (IH _ Hsub'). unfold applicable. rewrite filter_cons.
    destruct (has_block_transform a) eqn:Hb.
    + rewrite decide_True by reflexivity.
      by rewrite fmap_cons, <- app_assoc.
    + by rewrite decide_False by discriminate.
Qed.

Lemma report_descs aggs :
  aggs ⊆ descriptors ->
  mapM (fun t => long_desc <$> dict_getitem AggOptions t) (short_desc <$> aggs)
  = Ok (long_desc <$> aggs).
Proof.
  intros Hsub.
  rewrite (mapM_ok _ (fun t => match dict_getitem AggOptions t with
                               | Ok a => long_desc a
                               | Raised _ => ""
                               end)).
  - f_equal. rewrite <- list_fmap_compose. apply list_fmap_ext.
    intros i a Ha. cbn. rewrite AggOptions_lookup; [reflexivity|].
    apply Hsub. by eapply list_elem_of_lookup_2.
  - intros t (a & -> & Ha)%list_elem_of_fmap.
    by rewrite AggOptions_lookup by (by apply Hsub).
Qed.

Lemma report_row (rows : list (string * string)) v aggs :
  aggs ⊆ descriptors ->
  match short_desc <$> aggs with
  | [] => Ok rows
  | _ :: _ =>
      descs ← mapM (fun t => long_desc <$> dict_getitem AggOptions t)
                (short_desc <$> aggs);
      Ok (rows ++ [(name v, join ", " descs)])
  end
  = Ok (rows ++ match aggs with
                | [] => []
                | aggs' => [(name v, join ", " (long_desc <$> aggs'))]
                end).
Proof.
  intros Hsub. rewrite (report_descs aggs Hsub).
  destruct aggs; [by rewrite app_nil_r | reflexivity].
Qed.

Lemma kinds_in_descriptors s : kinds_in s ⊆ descriptors.
Proof. intros a Ha. unfold kinds_in in Ha. by apply list_elem_of_filter in Ha as [_ ?]. Qed.

Lemma applicable_descriptors aggs : aggs ⊆ descriptors -> applicable aggs ⊆ descriptors.
Proof.
  intros Hsub a Ha. unfold applicable in Ha.
  apply list_elem_of_filter in Ha as [_ ?]. by apply Hsub.
Qed.

(** X11. With a well-formed model the second part of [send_report] does
    not fail.  It lists, in the order of the model, the variables that have
    an aggregation to report, each with the long names of these
    aggregations in the order of [AggOptions]; outside of the sliding
    window only the aggregations with a block transformation are reported.
    No table is reported when no variable is listed. *)
Theorem report_transformations_rows w :
  model_wf (var_model w) ->
  report_transformations w
  = Ok (match report_rows w with [] => None | rows => Some rows end).
Proof.
  intros Hwf. unfold report_transformations.
  rewrite (for_each_model (var_model w) _
             (fun rows '(v, s) =>
                Ok (rows ++ match reported w s with
                            | [] => []
                            | aggs => [(name v, join ", " (long_desc <$> aggs))]
                            end)) _ Hwf).
  - unfold report_rows.
    assert (H : forall l rows0,
      for_each l
        (fun rows '(v, s) =>
           Ok (rows ++ match reported w s with
                       | [] => []
                       | aggs => [(name v, join ", " (long_desc <$> aggs))]
                       end)) rows0
      = Ok (rows0
            ++ omap (fun '(v, s) =>
                       match reported w s with
                       | [] => None
                       | aggs => Some (name v, join ", " (long_desc <$> aggs))
                       end) l)).
    { induction l as [|[v s] l IH]; intros rows0.
      - cbn. by rewrite app_nil_r.
      - cbn [for_each mbind result_bind]. rewrite IH, <- app_assoc.
        cbn [omap list_omap]. by destruct (reported w s). }
    rewrite H. cbn [mbind result_bind app]. by destruct (omap _ _).
  - intros rows i v s Hv Hs.
    rewrite (get_transformations_lookup _ _ _ Hs), bind_Ok, filter_keys.
    change (filter (fun a => short_desc a ∈ s) descriptors) with (kinds_in s).
    unfold reported. destruct (method w =? SlidingWindow); cbn [negb].
    + etrans;
        [exact (report_row rows v (kinds_in s) (kinds_in_descriptors s))|].
      by destruct (kinds_in s).
    + rewrite (report_kept_loop (kinds_in s) [] (kinds_in_descriptors s)).
      etrans;
        [exact (report_row rows v (applicable (kinds_in s))
                  (applicable_descriptors _ (kinds_in_descriptors s)))|].
      by destruct (applicable (kinds_in s)).
Qed.

Lemma prefix_spec p s :
  String.prefix p s = true <-> exists c, s = p +:+ c.
Proof.
  revert s. induction p as [|a p IH]; intros s.
  - split; [intros _; exists s; reflexivity | by destruct s].
  - destruct s as [|b s].
    + split; [discriminate|]. intros [c Hc]. discriminate Hc.
    + change (String.prefix (String a p) (String b s))
        with (if Ascii.ascii_dec a b then String.prefix p s else false).
      destruct (Ascii.ascii_dec a b) as [->|Hne].
      * rewrite IH. split; intros [c Hc]; exists c.
        -- rewrite Hc. reflexivity.
        -- change (String b p +:+ c) with (String b (p +:+ c)) in Hc.
           by injection Hc.
      * split; [discriminate|]. intros [c Hc].
        change (String a p +:+ c) with (String a (p +:+ c)) in Hc.
        injection Hc as Hab _. by destruct Hne.
Qed.

Lemma str_contains_spec p s :
  str_contains p s = true <-> exists a c, s = a +:+ p +:+ c.
Proof.
  induction s as [|b s IH].
  - change (str_contains p "") with (String.prefix p "" || false).
    rewrite orb_false_r, prefix_spec. split.
    + intros [c Hc]. exists "", c. exact Hc.
    + intros (a & c & Hc). destruct a as [|x a]; [by exists c|].
      discriminate Hc.
  - change (str_contains p (String b s))
      with (String.prefix p (String b s) || str_contains p s).
    rewrite orb_true_iff, prefix_spec, IH. split.
    + intros [[c Hc] | (a & c & Hc)].
      * exists "", c. exact Hc.
      * exists (String b a), c. rewrite Hc. reflexivity.
    + intros (a & c & Hc). destruct a as [|x a].
      * left. exists c. exact Hc.
      * right. change (String x a +:+ p +:+ c)
                 with (String x (a +:+ p +:+ c)) in Hc.
        injection Hc as _ Hc. by exists a, c.
Qed.

(** X12. [filterAcceptsRow] fails on no row of the source model.  It
    accepts the row of a variable exactly when the variable is continuous
    or only numeric variables are not asked for, and the text of the
    filter occurs in the name of the variable; the empty text occurs in
    every name, so the test for an empty pattern changes nothing. *)
Theorem filter_accepts_row proxy source row var :
  model_vars source !! row = Some var ->
  exists accepted,
    filterAcceptsRow proxy source row = Ok accepted
    /\ (accepted = true
        <-> (filtering proxy = true -> is_continuous var = true)
            /\ exists before after,
                 name var = before +:+ pattern proxy +:+ after).
Proof.
  intros Hvar. unfold filterAcceptsRow, model_getitem. rewrite Hvar, bind_Ok.
  eexists. split; [reflexivity|].
  rewrite andb_true_iff, !orb_true_iff, negb_true_iff, str_contains_spec,
    bool_decide_eq_true.
  split.
  - intros [Hf Hp]. split.
    + intros Hfilt. destruct Hf as [Hf|Hf]; congruence.
    + destruct Hp as [-> | Hp]; [|exact Hp].
      exists "", (name var). reflexivity.
  - intros [Hf Hp]. split; [|right; exact Hp].
    destruct (filtering proxy); [right; by apply Hf | left; reflexivity].
Qed.

(** X13. [N_NONPERIODIC] is found, and it splits the periods of
    [PeriodOptions]: no period before this position is periodic, and
    every period from this position on is. *)
Theorem nonperiodic_before_periodic :
  exists n,
    N_NONPERIODIC = Ok n
    /\ Forall (fun p => periodic p = false) (take n (dict_values PeriodOptions))
    /\ Forall (fun p => periodic p = true) (drop n (dict_values PeriodOptions)).
Proof.
  exists 6%nat. split; [reflexivity|].
  split; repeat constructor.
Qed.




End Properties.

(** * The properties on examples *)

(** The allocator of the small library keeps the number of names. *)
Lemma sample_allocator_keeps_length :
  allocator_keeps_length (E := Sample.env).
Proof.
  split.
  - intros taken l.
    change (length (Sample.unique_names taken l) = length l).
    unfold Sample.unique_names.
    destruct (existsb _ l); [by rewrite length_fmap | reflexivity].
  - intros l.
    change (length (Sample.number_duplicates [] l) = length l).
    generalize (@nil string). induction l as [|p l IH]; intros seen.
    + reflexivity.
    + cbn [Sample.number_duplicates length]. f_equal. apply IH.
Qed.

(** A fact about the one set of a model with one variable, by
    evaluation. *)
Ltac one_selection :=
  let s := fresh "s" in let Hs := fresh "Hs" in
  intros s Hs; cbn [var_model model_vars _transformations Sample.widget
                    Sample.period_widget Sample.kinds] in Hs;
  apply list_elem_of_singleton in Hs as ->; reflexivity.

(** The mean of windows of 3 rows over 1..5, with the rows from the third
    on: 2, 3, 4 beside 3, 4, 5. *)
Example sliding_mean_keep_aligned :
  Sample.brief
    (_compute_sliding_window
       (Sample.widget Sample.five (Sample.kinds ["mean"]) SlidingWindow 3
          KeepComplete))
  = (no_warnings,
     Ok (Some (["x"; "x (mean)"],
               [Sample.cells [3; 4; 5]; Sample.cells [2; 3; 4]], 3%nat))).
Proof. vm_compute. reflexivity. Qed.

(** The cumulative sum over 1..5 when all rows are kept. *)
Example sliding_cumsum_keep_all :
  Sample.brief
    (_compute_sliding_window
       (Sample.widget Sample.five (Sample.kinds ["cumsum"]) SlidingWindow 3
          KeepAll))
  = (no_warnings,
     Ok (Some (["x"; "x (cumsum)"],
               [Sample.cells [1; 2; 3; 4; 5]; Sample.cells [1; 3; 6; 10; 15]],
               5%nat))).
Proof. vm_compute. reflexivity. Qed.

(** Blocks of 2 rows over five rows, with the last row of each block: the
    fifth row is in no block. *)
Example blocks_of_two_keep_last :
  Sample.brief
    (_compute_sequential_blocks
       (Sample.widget Sample.five (Sample.kinds ["sum"]) SequentialBlocks 2
          KeepLast))
  = (no_warnings,
     Ok (Some (["x"; "x (sum)"],
               [Sample.cells [2; 4]; Sample.cells [3; 7]], 2%nat))).
Proof. vm_compute. reflexivity. Qed.

(** The rows of [timed] by month: two in January 1970, two in February
    1970, one in January 1971, with the sums of [x]. *)
Example months_of_timed :
  Sample.brief
    (_compute_period_aggregation
       (Sample.period_widget "Months" (Sample.kinds ["sum"; "cumsum"])))
  = (mkWarnings false (Some "Cumulative sum") false false,
     Ok (Some (["Months"; "Instance count"; "x (sum)"],
               [Sample.cells [0; 2678400; 31536000]; Sample.cells [2; 2; 1];
                Sample.cells [3; 7; 5]], 3%nat))).
Proof. vm_compute. reflexivity. Qed.

(** C5 on four rows and blocks of 5 rows. *)
Lemma block_too_large_witness :
  len Sample.four < 5
  /\ _compute_sequential_blocks
       (Sample.widget Sample.four (Sample.kinds ["mean"]) SequentialBlocks 5
          KeepLast)
     = (mkWarnings false None false true, Ok None).
Proof.
  split; [vm_compute; reflexivity|].
  exact (proj1 (block_too_large
                  (Sample.widget Sample.four (Sample.kinds ["mean"])
                     SequentialBlocks 5 KeepLast)
                  Sample.four eq_refl ltac:(vm_compute; reflexivity))).
Defined.

(** C3 as stated fails on a table without rows: [commit] sends no table
    and shows no warning. *)
Lemma null_output_without_warning :
  let w := Sample.widget Sample.no_rows (Sample.kinds []) SequentialBlocks 2
             KeepFirst in
  data w = Some Sample.no_rows /\ len Sample.no_rows = 0
  /\ snd (commit w) = Ok None
  /\ any_warning (fst (commit w)) = false.
Proof. intros w. repeat split; reflexivity. Qed.

(** C3, amended, on four rows and blocks of 5 rows. *)
Lemma null_output_has_warning_witness :
  let w := Sample.widget Sample.four (Sample.kinds ["mean"]) SequentialBlocks 5
             KeepLast in
  0 < len Sample.four /\ snd (commit w) = Ok None
  /\ any_warning (fst (commit w)) = true.
Proof.
  intros w.
  assert (Hlen : 0 < len Sample.four) by (vm_compute; reflexivity).
  assert (Hnull : snd (commit w) = Ok None) by reflexivity.
  split; [exact Hlen|]. split; [exact Hnull|].
  exact (null_output_has_warning w Sample.four eq_refl Hlen Hnull).
Defined.

(** C1 as stated fails when original rows are kept: with nothing selected
    the sliding window and the sequential blocks return the kept rows of
    the original columns and do not show [no_aggregations]; and when the
    block is wider than the table the sequential blocks show
    [block_to_large] alone. *)
Lemma no_aggregations_not_shown :
  let ws := Sample.widget Sample.five (Sample.kinds []) SlidingWindow 3
              KeepComplete in
  let wb := Sample.widget Sample.five (Sample.kinds []) SequentialBlocks 2
              KeepFirst in
  let wl := Sample.widget Sample.four (Sample.kinds []) SequentialBlocks 5
              DiscardOriginal in
  nothing_selected (E := Sample.env) (var_model ws)
  /\ nothing_selected (E := Sample.env) (var_model wb)
  /\ Sample.brief (_compute_sliding_window ws)
     = (no_warnings, Ok (Some (["x"], [Sample.cells [3; 4; 5]], 3%nat)))
  /\ Sample.brief (_compute_sequential_blocks wb)
     = (no_warnings, Ok (Some (["x"], [Sample.cells [1; 3]], 2%nat)))
  /\ nothing_selected (E := Sample.env) (var_model wl)
  /\ _compute_sequential_blocks wl
     = (mkWarnings false None false true, Ok None).
Proof.
  intros ws wb wl.
  assert (Hnone : forall vars,
            nothing_selected (E := Sample.env) (mkModel vars (Sample.kinds []))).
  { intros vars. one_selection. }
  split_and!; try apply Hnone; reflexivity.
Qed.

(** C1, amended, on the five rows: nothing selected in the sliding window,
    and the cumulative sum alone in blocks of 2 rows, the original data
    being discarded. *)
Lemma no_aggregations_when_discarding_witness :
  let ws := Sample.widget Sample.five (Sample.kinds []) SlidingWindow 3
              DiscardOriginal in
  let wb := Sample.widget Sample.five (Sample.kinds ["cumsum"])
              SequentialBlocks 2 DiscardOriginal in
  _compute_sliding_window ws
  = (mkWarnings true None false false, Ok None)
  /\ no_aggregations (fst (_compute_sequential_blocks wb)) = true
  /\ snd (_compute_sequential_blocks wb) = Ok None.
Proof.
  intros ws wb. split.
  - apply (proj1 (no_aggregations_when_discarding ws Sample.five eq_refl
                    eq_refl) eq_refl).
    one_selection.
  - apply (proj2 (no_aggregations_when_discarding wb Sample.five eq_refl
                    eq_refl) eq_refl).
    + vm_compute. discriminate.
    + one_selection.
Defined.

(** C2 fails with blocks of 2 rows and the middle instance: of four rows,
    in two complete blocks, the rows 1 and 3 are expected and no row is
    kept, so that the table has no row when nothing is selected and cannot
    be built when an aggregate is. *)
Theorem keep_middle_of_two_keeps_no_row :
  let w := Sample.widget Sample.four (Sample.kinds []) SequentialBlocks 2
             KeepMiddle in
  let wm := Sample.widget Sample.four (Sample.kinds ["mean"]) SequentialBlocks
              2 KeepMiddle in
  retained_rows w 4 = Ok []
  /\ segment_rows (block_width w) (reference_offset w) 4 = [1; 3]%nat
  /\ Sample.brief (_compute_sequential_blocks w)
     = (no_warnings, Ok (Some (["x"], [[]], 0%nat)))
  /\ Sample.brief (_compute_sequential_blocks wm)
     = (no_warnings, Raised ValueError).
Proof. intros w wm. split_and!; reflexivity. Qed.



(** C7 on the rows of [timed] by month, with nothing selected. *)
Lemma period_aggregation_counts_witness :
  let w := Sample.period_widget "Months" (Sample.kinds []) in
  exists ts,
    snd (_compute_period_aggregation w) = Ok (Some ts)
    /\ no_aggregations (fst (_compute_period_aggregation w)) = false.
Proof.
  intros w.
  destruct (period_aggregation_counts w Sample.timed Sample.t_var
              Sample.months eq_refl eq_refl eq_refl)
    as (time_column & times & ts & _ & _ & _ & Hts & Hno & _).
  { apply NoDup_singleton. }
  { apply sample_allocator_keeps_length. }
  { reflexivity. }
  { eexists. split; reflexivity. }
  { reflexivity. }
  { intros v Hv.
    assert (Hm : model_vars (var_model w) = [Sample.x_var]) by reflexivity.
    rewrite Hm in Hv. apply list_elem_of_singleton in Hv as ->.
    left. reflexivity. }
  exists ts. split; [exact Hts | exact Hno].
Defined.

(** C8 on the mean and the cumulative sum put in in two orders. *)
Lemma transformations_in_registration_order_witness :
  let m1 := mkModel [Sample.x_var]
              (list_to_set (C := gset string) <$> [["cumsum"; "mean"]]) in
  let m2 := mkModel [Sample.x_var]
              (list_to_set (C := gset string)
                 <$> [["mean"; "cumsum"; "mean"]]) in
  get_transformations (E := Sample.env) m1 0 = Ok ["mean"; "cumsum"]
  /\ proposed_names (E := Sample.env) m1
     = proposed_names (E := Sample.env) m2.
Proof.
  intros m1 m2. split; [reflexivity|].
  apply (transformations_in_registration_order (E := Sample.env)
           [Sample.x_var] [["cumsum"; "mean"]] [["mean"; "cumsum"; "mean"]]).
  constructor; [|constructor].
  intros t. rewrite !elem_of_cons, elem_of_nil. tauto.
Defined.


(** C10 on [timed], whose time variable [t] is an attribute. *)
Lemma time_variable_not_aggregated_witness :
  set_data Sample.fresh (Some Sample.timed) = Ok Sample.loaded
  /\ is_continuous Sample.t_var = true
  /\ (Sample.t_var ∉ model_vars (var_model Sample.loaded))
  /\ selected_aggs (E := Sample.env)
       (mkModel (offered_variables Sample.timed) (Sample.kinds ["mean"]))
       Sample.t_var = [].
Proof.
  assert (Hset : set_data Sample.fresh (Some Sample.timed) = Ok Sample.loaded)
    by reflexivity.
  split; [exact Hset|]. split; [reflexivity|].
  split.
  - exact (proj1 (proj2 (time_variable_not_aggregated Sample.fresh
                           Sample.timed Sample.loaded Sample.t_var
                           (var_model Sample.loaded) Hset eq_refl eq_refl
                           eq_refl))).
  - exact (proj1 (proj2 (proj2 (time_variable_not_aggregated Sample.fresh
                           Sample.timed Sample.loaded Sample.t_var
                           (mkModel (offered_variables Sample.timed)
                              (Sample.kinds ["mean"]))
                           Hset eq_refl eq_refl eq_refl)))).
Defined.

(** X1 on five rows and a window of 7 rows. *)
Lemma commit_width_warnings_witness :
  let w := Sample.widget Sample.five (Sample.kinds ["mean"]) SlidingWindow 7
             KeepComplete in
  window_to_large (fst (commit w)) = true
  /\ block_to_large (fst (commit w)) = false.
Proof.
  intros w.
  assert (Hdata : data w = Some Sample.five) by exact eq_refl.
  assert (Hrows : 0 < len Sample.five) by exact eq_refl.
  assert (Hmethod : 0 <= method w <= 2) by (split; discriminate).
  destruct (commit_width_warnings w Sample.five Hdata Hrows Hmethod)
    as [Hwindow Hblock].
  split; [rewrite Hwindow | rewrite Hblock]; reflexivity.
Defined.

(** X2 on the mean over windows of 3 of the five rows. *)
Lemma sliding_window_original_rows_witness :
  let w := Sample.widget Sample.five (Sample.kinds ["mean"]) SlidingWindow 3
             KeepComplete in
  snd (_compute_sliding_window w) = Ok (Some Sample.aligned)
  /\ ids Sample.aligned = drop 2 (ids Sample.five)
  /\ shape0 (X Sample.aligned) = 3%nat.
Proof.
  intros w.
  assert (Hout : snd (_compute_sliding_window w) = Ok (Some Sample.aligned))
    by reflexivity.
  assert (Hdata : data w = Some Sample.five) by exact eq_refl.
  assert (Hwidth : 1 <= window_width w) by discriminate.
  assert (HY : array_wf (Y Sample.five)) by constructor.
  assert (HM : array_wf (metas_of Sample.five)) by constructor.
  assert (Hkeep : keep_instances w <> DiscardOriginal) by discriminate.
  destruct (sliding_window_original_rows w Sample.five Sample.aligned
              Hdata Hwidth HY HM Hout Hkeep)
    as (Hids & _ & _ & _ & _ & Hrows).
  split; [exact Hout|]. split; [exact Hids | exact Hrows].
Defined.

(** X3 on the mean over windows of 3 of the five rows, alone. *)
Lemma aggregates_only_table_witness :
  let w := Sample.widget Sample.five (Sample.kinds ["mean"]) SlidingWindow 3
             DiscardOriginal in
  snd (_compute_sliding_window w) = Ok (Some Sample.means)
  /\ class_vars (domain Sample.means) = []
  /\ metas (domain Sample.means) = []
  /\ ids Sample.means = @new_ids Sample.env (shape0 (X Sample.means))
  /\ table_attributes Sample.means = table_attributes Sample.five.
Proof.
  intros w.
  assert (Hout : snd (_compute_sliding_window w) = Ok (Some Sample.means))
    by reflexivity.
  assert (Hdata : data w = Some Sample.five) by exact eq_refl.
  assert (Hkeep : keep_instances w = DiscardOriginal) by exact eq_refl.
  destruct (aggregates_only_table w Sample.five Hdata) as (Hsliding & _ & _).
  split; [exact Hout|]. exact (Hsliding Sample.means Hkeep Hout).
Defined.

(** X4 on the sum over blocks of 2 of the five rows, with the last row of
    every block. *)
Lemma sequential_blocks_original_rows_witness :
  let w := Sample.widget Sample.five (Sample.kinds ["sum"]) SequentialBlocks 2
             KeepLast in
  snd (_compute_sequential_blocks w) = Ok (Some Sample.last_of_two)
  /\ ids Sample.last_of_two = [1; 3]
  /\ Z.of_nat (shape0 (X Sample.last_of_two)) = 5 / 2.
Proof.
  intros w.
  assert (Hout : snd (_compute_sequential_blocks w)
                 = Ok (Some Sample.last_of_two)) by reflexivity.
  assert (Hdata : data w = Some Sample.five) by exact eq_refl.
  assert (Hwidth : 2 <= block_width w) by discriminate.
  assert (Href : ref_instance w = KeepFirst \/ ref_instance w = KeepLast
                 \/ (ref_instance w = KeepMiddle /\ 3 <= block_width w))
    by (right; left; exact eq_refl).
  destruct (sequential_blocks_original_rows w Sample.five Sample.last_of_two
              Hdata Hwidth Href Hout)
    as (Hids & _ & _ & _ & _ & Hrows).
  split; [exact Hout|]. split; [exact Hids | exact Hrows].
Defined.


(** X7: the sum is checked for the one row of a model that has the
    mean. *)
Lemma set_transformation_rows_witness :
  let m := mkModel [Sample.x_var] (Sample.kinds ["mean"]) in
  exists m',
    set_transformation m [0%nat] "sum" true = Ok m'
    /\ model_vars m' = model_vars m.
Proof.
  intros m.
  assert (Hrows : [0%nat] <> []) by discriminate.
  assert (Hin : Forall (fun r => (r < length (_transformations m))%nat)
                  [0%nat]) by (repeat constructor).
  destruct (set_transformation_rows (E := Sample.env) m [0%nat] "sum" true
              Hrows Hin)
    as (m' & Hset & Hvars & _).
  exists m'. split; [exact Hset | exact Hvars].
Defined.

(** X8: the mean is checked for [x] in the widget loaded with [timed]. *)
Lemma checkbox_changed_hints_witness :
  exists w',
    _checkbox_changed Sample.loaded true "mean" [0%nat] = Ok w'
    /\ hint_for (var_hints w') (_varkey Sample.x_var)
       = match get_transformations (E := Sample.env) (var_model w') 0 with
         | Ok (t :: ts) => Some (list_to_set (t :: ts))
         | _ => None
         end.
Proof.
  assert (Hwf : model_wf (var_model Sample.loaded)) by exact eq_refl.
  assert (Hkeys : NoDup (_varkey <$> model_vars (var_model Sample.loaded)))
    by exact (NoDup_singleton _).
  assert (Hrows : [0%nat] <> []) by discriminate.
  assert (Hin : Forall (fun r => (r < length (model_vars
                                                (var_model Sample.loaded)))%nat)
                  [0%nat]) by (repeat constructor).
  destruct (checkbox_changed_hints Sample.loaded true "mean" [0%nat]
              Hwf Hkeys Hrows Hin)
    as (w' & Hcb & Hhint & _).
  exists w'. split; [exact Hcb|].
  apply (Hhint 0%nat Sample.x_var); [left | reflexivity].
Defined.

(** X9 on the same widget, given [timed] again afterwards. *)
Lemma hints_restore_selection_witness :
  exists w' w'',
    _checkbox_changed Sample.loaded true "mean" [0%nat] = Ok w'
    /\ set_data w' (Some Sample.timed) = Ok w''
    /\ get_transformations (E := Sample.env) (var_model w'') 0
       = get_transformations (E := Sample.env) (var_model w') 0.
Proof.
  assert (Hok : is_ok (_checkbox_changed Sample.loaded true "mean" [0%nat])
                = true) by (vm_compute; reflexivity).
  destruct (_checkbox_changed Sample.loaded true "mean" [0%nat])
    as [w'|e] eqn:Hcb; [|discriminate Hok].
  assert (Hvars : model_vars (var_model Sample.loaded)
                  = offered_variables Sample.timed) by exact eq_refl.
  assert (Hwf : model_wf (var_model Sample.loaded)) by exact eq_refl.
  assert (Hkeys : NoDup (_varkey <$> model_vars (var_model Sample.loaded)))
    by exact (NoDup_singleton _).
  assert (Hrows : [0%nat] <> []) by discriminate.
  assert (Hin : Forall (fun r => (r < length (model_vars
                                                (var_model Sample.loaded)))%nat)
                  [0%nat]) by (repeat constructor).
  destruct (hints_restore_selection Sample.loaded Sample.timed true "mean"
              [0%nat] w' Hvars Hwf Hkeys Hrows Hin Hcb)
    as (w'' & Hset & _ & Hsame).
  exists w', w''. split; [reflexivity|]. split; [exact Hset|].
  apply Hsame. left.
Defined.

(** X10: the one row of a model that has the mean is selected. *)
Lemma selection_changed_states_witness :
  let w := Sample.widget Sample.five (Sample.kinds ["mean"]) SlidingWindow 3
             KeepComplete in
  exists boxes,
    _selection_changed w [0%nat] = Ok boxes
    /\ boxes.*1.*1 = dict_keys (AggOptions (E := Sample.env)).
Proof.
  intros w.
  assert (Hwf : model_wf (var_model w)) by exact eq_refl.
  assert (Hin : Forall (fun r => (r < length (model_vars (var_model w)))%nat)
                  [0%nat]) by (repeat constructor).
  destruct (selection_changed_states w [0%nat] Hwf Hin)
    as (boxes & Hsel & Hkeys & _).
  exists boxes. split; [exact Hsel | exact Hkeys].
Defined.

(** X11: the mean and the cumulative sum of [x], reported for the
    sequential blocks. *)
Lemma report_transformations_rows_witness :
  let w := Sample.widget Sample.five (Sample.kinds ["mean"; "cumsum"])
             SequentialBlocks 2 KeepLast in
  report_transformations w
  = Ok (match report_rows w with [] => None | rows => Some rows end)
  /\ report_rows w = [("x", "Mean value")].
Proof.
  intros w.
  assert (Hwf : model_wf (var_model w)) by exact eq_refl.
  split; [exact (report_transformations_rows w Hwf) | reflexivity].
Defined.

(** X12: only numeric variables with an [o] in their name are shown, and
    [colour] is discrete. *)
Lemma filter_accepts_row_witness :
  exists accepted,
    filterAcceptsRow (mkProxy true "o")
      (set_variables [Sample.x_var; Sample.colour]) 1 = Ok accepted
    /\ accepted = false.
Proof.
  assert (Hvar : model_vars (set_variables [Sample.x_var; Sample.colour])
                 !! 1%nat = Some Sample.colour) by exact eq_refl.
  destruct (filter_accepts_row (mkProxy true "o")
              (set_variables [Sample.x_var; Sample.colour]) 1 Sample.colour
              Hvar)
    as (accepted & Hacc & Hiff).
  exists accepted. split; [exact Hacc|].
  destruct accepted; [|reflexivity].
  destruct (proj1 Hiff eq_refl) as [Hcont _]. discriminate (Hcont eq_refl).
Defined.
